(** * excel-image-transformer: the image-to-cell resolver and the cell rewriter

    A shallow embedding of [ExcelImageResolver] (image.ts) and of the [Excel]
    class that drives it, with the properties of the specification stated
    and proved, or refuted, on the embedding.

    The file has four parts: the program, function by function; the
    vocabulary in which the properties are stated; a few concrete
    packages; and the lemmas and theorems, the concrete runs last.

    Conventions.
    - A value read out of an XML part is a [jsval]: the program walks such
      values without types, and a property read on [undefined] or [null]
      raises the engine's [TypeError].
    - An [async] method is run to completion: a [completion] is either the
      value a promise resolves to or the exception it rejects with.  The
      methods await one another in sequence, so nothing runs in between.
    - The sax parser of xml-js, [Number], the conversion of a number to a
      property key and the SheetJS helpers are not part of the repository;
      they are variables of the sections below.
    - Element and attribute names are XML names: none is an array index,
      and names that are members of [Object.prototype] are left out of the
      model. *)

From Stdlib Require Import Ascii.
From stdpp Require Import base option list strings pretty gmap.

#[local] Set Warnings "-register-all".
#[local] Open Scope string_scope.

(** ** Exceptions and completions *)

Inductive exn :=
| Error (message : string)   (* [new Error (message)] thrown by the program *)
| TypeError                  (* thrown by the engine on an ill-typed access *)
| RangeError.                (* thrown by the engine when the calls exhaust the stack *)

Inductive completion (A : Type) :=
| Return (a : A)
| Throw (e : exn).
Arguments Return {A} a.
Arguments Throw {A} e.

#[global] Instance completion_ret : MRet completion := @Return.
#[global] Instance completion_bind : MBind completion :=
  λ A B f m, match m with Return a => f a | Throw e => Throw e end.

Fixpoint forM {A B} (f : A → completion B) (l : list A) : completion (list B) :=
  match l with
  | [] => Return []
  | x :: rest => y ← f x; ys ← forM f rest; Return (y :: ys)
  end.

(** The messages of the errors the program throws. *)
Definition msg_not_loaded : string := "还未加载 excel 文件".
Definition msg_sheet_not_found : string := "sheet not found".
Definition msg_anchor_not_found : string := "image anchor not found".
Definition msg_no_sheet (sheetName : string) : string :=
  "没有名为 " +:+ sheetName +:+ " 的工作薄".
Definition msg_xml (path xml : string) : string :=
  "解析 xml 失败 文件名: " +:+ path +:+ " 文件内容: " +:+ xml.

(** The error kinds of the specification, as far as the program has them. *)
Definition NotLoadedError : exn := Error msg_not_loaded.
Definition SheetNotFoundError : exn := Error msg_sheet_not_found.
Definition ImageAnchorNotFoundError : exn := Error msg_anchor_not_found.

(** ** Strings *)

Fixpoint lastIndexOf_from (c : ascii) (s : string) (i : Z) (found : Z) : Z :=
  match s with
  | EmptyString => found
  | String a rest =>
      lastIndexOf_from c rest (i + 1) (if Ascii.eqb a c then i else found)
  end.

(** [s.lastIndexOf(c)] for a one-character pattern: [-1] when absent. *)
Definition lastIndexOf (c : ascii) (s : string) : Z := lastIndexOf_from c s 0 (-1).

Fixpoint drop_chars (n : nat) (s : string) : string :=
  match n, s with
  | O, _ => s
  | S n', String _ rest => drop_chars n' rest
  | S _, EmptyString => EmptyString
  end.

(** [s.substr(start)]: a negative start counts from the end. *)
Definition substr (s : string) (start : Z) : string :=
  let len := Z.of_nat (String.length s) in
  let from := if (start <? 0)%Z then Z.max (len + start) 0 else start in
  drop_chars (Z.to_nat from) s.

(** [s.replace(pat, rep)] for a string pattern: the first occurrence only. *)
Fixpoint replace (pat rep s : string) : string :=
  if String.prefix pat s then rep +:+ drop_chars (String.length pat) s
  else match s with
       | EmptyString => EmptyString
       | String a rest => String a (replace pat rep rest)
       end.

(** The part of a target after its last slash:
    [t.substr(t.lastIndexOf("/") + 1)]. *)
Definition basename (t : string) : string := substr t (lastIndexOf "/" t + 1).

Definition is_digit (a : ascii) : bool :=
  let n := nat_of_ascii a in ((48 <=? n) && (n <=? 57))%nat.

Fixpoint all_digits (s : string) : bool :=
  match s with
  | EmptyString => true
  | String a rest => is_digit a && all_digits rest
  end.

Fixpoint digits_value (s : string) (acc : N) : N :=
  match s with
  | EmptyString => acc
  | String a rest => digits_value rest (acc * 10 + (N_of_ascii a - 48))%N
  end.

(** A property name is an array index when it is the canonical decimal
    form of an integer below 2^32 - 1. *)
Definition array_index (k : string) : option nat :=
  match k with
  | EmptyString => None
  | String a rest =>
      if all_digits k && (negb (Ascii.eqb a "0") || String.eqb rest "")
      then let n := digits_value k 0 in
           if (n <? 4294967295)%N then Some (N.to_nat n) else None
      else None
  end.

(** ** Properties of an object, in enumeration order

    The own string-keyed properties of an ordinary object are enumerated
    with the array indices first, ascending, then the other names in the
    order they were created. *)

Definition key_before (k k' : string) : bool :=
  match array_index k, array_index k' with
  | Some n, Some n' => (n <? n')%nat
  | Some _, None => true
  | None, _ => false
  end.

Fixpoint props_get {A} (k : string) (ps : list (string * A)) : option A :=
  match ps with
  | [] => None
  | (k', v) :: rest => if String.eqb k k' then Some v else props_get k rest
  end.

(** [o[k] = v] *)
Fixpoint props_set {A} (k : string) (v : A) (ps : list (string * A)) : list (string * A) :=
  match ps with
  | [] => [(k, v)]
  | (k', v') :: rest =>
      if String.eqb k k' then (k, v) :: rest
      else if key_before k k' then (k, v) :: ps
      else (k', v') :: props_set k v rest
  end.

(** [delete o[k]] *)
Definition props_delete {A} (k : string) (ps : list (string * A)) : list (string * A) :=
  filter (λ p, negb (String.eqb k p.1)) ps.

(** ** Values *)

Inductive jsval :=
| JUndefined
| JNull
| JString (s : string)
| JObject (props : list (string * jsval))
| JArray (items : list jsval).

Definition truthy (v : jsval) : bool :=
  match v with
  | JUndefined | JNull | JString "" => false
  | _ => true
  end.

(** [a || b] *)
Definition or_else (a b : jsval) : jsval := if truthy a then a else b.

(** [typeof v === "object"] *)
Definition is_object (v : jsval) : bool :=
  match v with
  | JNull | JObject _ | JArray _ => true
  | _ => false
  end.

Definition isArray (v : jsval) : bool :=
  match v with JArray _ => true | _ => false end.

Definition char_at (s : string) (i : nat) : jsval :=
  match String.get i s with
  | Some a => JString (String a EmptyString)
  | None => JUndefined
  end.

(** [v[k]] for a string key.  The names the program reads are element and
    attribute names; none of them is a member of a prototype. *)
Definition get (v : jsval) (k : string) : completion jsval :=
  match v with
  | JUndefined | JNull => Throw TypeError
  | JString s =>
      Return (match array_index k with Some i => char_at s i | None => JUndefined end)
  | JObject ps => Return (default JUndefined (props_get k ps))
  | JArray items =>
      Return (match array_index k with
              | Some i => default JUndefined (items !! i)
              | None => JUndefined
              end)
  end.

(** [v[k]] where [v] is known to be an object or an array. *)
Definition own (v : jsval) (k : string) : jsval :=
  match get v k with Return x => x | Throw _ => JUndefined end.

Fixpoint index_keys (from count : nat) : list string :=
  match count with
  | O => []
  | S c => pretty from :: index_keys (S from) c
  end.

(** [Object.keys(v)] *)
Definition keys (v : jsval) : completion (list string) :=
  match v with
  | JUndefined | JNull => Throw TypeError
  | JString s => Return (index_keys 0 (String.length s))
  | JObject ps => Return (ps.*1)
  | JArray items => Return (index_keys 0 (length items))
  end.

(** The enumerable own properties of a value, as [Object.assign] reads them
    from its source. *)
Definition entries (v : jsval) : list (string * jsval) :=
  match v with
  | JUndefined | JNull => []
  | JString s => map (λ i, (pretty i, char_at s i)) (seq 0 (String.length s))
  | JObject ps => ps
  | JArray items => imap (λ i x, (pretty i, x)) items
  end.

(** [o[k] = x] on an object, and on an array at one of its indices (the
    only writes to arrays in the program). *)
Definition put (o : jsval) (k : string) (x : jsval) : jsval :=
  match o with
  | JObject ps => JObject (props_set k x ps)
  | JArray items =>
      match array_index k with
      | Some i => JArray (<[i := x]> items)
      | None => o
      end
  | _ => o
  end.

(** [Object.assign(o, src)] *)
Definition assign (o src : jsval) : jsval :=
  fold_left (λ acc p, put acc p.1 p.2) (entries src) o.

(** [delete o[k]] *)
Definition remove (o : jsval) (k : string) : jsval :=
  match o with
  | JObject ps => JObject (props_delete k ps)
  | _ => o
  end.

(** [String(v)], as a template literal converts its holes. *)
Fixpoint js_to_string (v : jsval) : string :=
  match v with
  | JUndefined => "undefined"
  | JNull => "null"
  | JString s => s
  | JObject _ => "[object Object]"
  | JArray items =>
      String.concat ","
        (map (λ x, match x with
                   | JUndefined | JNull => ""
                   | _ => js_to_string x
                   end) items)
  end.

(** [a.concat(b)]: of an array (an array argument is spread) or of a string;
    other receivers have no such method. *)
Definition js_concat (a b : jsval) : completion jsval :=
  match a with
  | JArray l =>
      Return (JArray (l ++ match b with JArray l' => l' | _ => [b] end))
  | JString s => Return (JString (s +:+ js_to_string b))
  | _ => Throw TypeError
  end.

(** The elements of the receiver of [map], [forEach], [find] and [flatMap]:
    only an array has these methods. *)
Definition elements (v : jsval) : completion (list jsval) :=
  match v with
  | JArray l => Return l
  | _ => Throw TypeError
  end.

(** The receiver of [substr], [lastIndexOf] and [replace]. *)
Definition as_string (v : jsval) : completion string :=
  match v with
  | JString s => Return s
  | _ => Throw TypeError
  end.

(** Key equality of a [Map] (SameValueZero).  Objects are equal to
    themselves only, and every object met as a key is a node of its own in
    a freshly parsed tree. *)
Definition same_value_zero (a b : jsval) : bool :=
  match a, b with
  | JUndefined, JUndefined | JNull, JNull => true
  | JString s, JString t => String.eqb s t
  | _, _ => false
  end.

(** A [Map]: its entries in insertion order. *)
Fixpoint map_get {V} (k : jsval) (m : list (jsval * V)) : option V :=
  match m with
  | [] => None
  | (k', v) :: rest => if same_value_zero k' k then Some v else map_get k rest
  end.

Fixpoint map_set {V} (k : jsval) (v : V) (m : list (jsval * V)) : list (jsval * V) :=
  match m with
  | [] => [(k, v)]
  | (k', v') :: rest =>
      if same_value_zero k' k then (k', v) :: rest else (k', v') :: map_set k v rest
  end.

Fixpoint foldM {A S} (f : S → A → completion S) (l : list A) (s : S) : completion S :=
  match l with
  | [] => Return s
  | x :: rest => s' ← f s x; foldM f rest s'
  end.

(** ** xml-js in compact mode

    [xml2js] is the library xml-js: a sax parser that reports the elements
    and texts of a document, and a builder that stores them in nested
    objects.  The parser is a variable of the development; the builder is
    modelled for elements, attributes and texts, which is what the parts
    read by the program are made of (comments, CDATA sections, processing
    instructions and the declaration add keys the program never reads). *)

Inductive xml_node :=
| XElement (name : string) (attributes : list (string * string)) (children : list xml_node)
| XText (text : string).

(** What the parser has reported when it is closed.  [xml2js] runs
    [parser.write (xml).close ()] on a strict parser.  An error met while
    the text is written is kept by the parser and thrown by [close]: such a
    run is a completion that throws.  An error met at the end of the text
    is reported to the handler and not thrown: a text that ends inside a
    tag has that tag dropped, and a text that ends inside an element
    leaves the element open. *)
Inductive report :=
| Closed (roots : list xml_node)   (* every element that was opened has ended *)
| Unclosed.                        (* the text ends inside an element *)

(** What [xml2js] returns.  The builder links the object of an element to
    that of its parent under the key [_parent] when the element starts and
    deletes the link when it ends: when every element has ended the value
    is a tree, and when one is left open the value reaches itself. *)
Inductive built :=
| Tree (obj : jsval)
| Cyclic.

Definition is_space (a : ascii) : bool :=
  let n := nat_of_ascii a in (((9 <=? n) && (n <=? 13)) || (n =? 32))%nat.

(** [!text.trim()] *)
Fixpoint blank (s : string) : bool :=
  match s with
  | EmptyString => true
  | String a rest => is_space a && blank rest
  end.

Definition has_key (k : string) (o : jsval) : bool :=
  match o with
  | JObject ps => bool_decide (is_Some (props_get k ps))
  | _ => false
  end.

Section Compact.
Variable alwaysArray : list string.

Definition includes (k : string) : bool := existsb (String.eqb k) alwaysArray.

(** Where a started element is stored in the object of its parent: a
    name of [alwaysArray] opens an array at its first occurrence, any
    other name becomes an array at its second. *)
Definition onStartElement (name : string) (element currentElement : jsval) : jsval :=
  let c1 := if negb (has_key name currentElement) && includes name
            then put currentElement name (JArray []) else currentElement in
  let c2 := if truthy (own c1 name) && negb (isArray (own c1 name))
            then put c1 name (JArray [own c1 name]) else c1 in
  match own c2 name with
  | JArray l => put c2 name (JArray (l ++ [element])%list)
  | _ => put c2 name element
  end.

Definition addField (key : string) (value currentElement : jsval) : jsval :=
  let c1 := if negb (truthy (own currentElement key)) && includes key
            then put currentElement key (JArray []) else currentElement in
  let c2 := if truthy (own c1 key) && negb (isArray (own c1 key))
            then put c1 key (JArray [own c1 key]) else c1 in
  match own c2 key with
  | JArray l => put c2 key (JArray (l ++ [value])%list)
  | _ => put c2 key value
  end.

Variables attributesKey textKey : string.

Fixpoint compact (n : xml_node) (currentElement : jsval) : jsval :=
  match n with
  | XText text =>
      if blank text then currentElement
      else addField textKey (JString text) currentElement
  | XElement name attributes children =>
      let element :=
        match attributes with
        | [] => JObject []
        | _ => JObject [(attributesKey,
                 fold_left (λ o p, put o p.1 (JString p.2)) attributes (JObject []))]
        end in
      onStartElement name
        (fold_left (λ cur c, compact c cur) children element) currentElement
  end.
End Compact.

Fixpoint height (v : jsval) : nat :=
  match v with
  | JObject ps => S (foldr (λ p h, height p.2 `max` h) 0 ps)
  | JArray items => S (foldr (λ x h, height x `max` h) 0 items)
  | _ => 0
  end.

(** ** The package *)

(** The [_data] of an unzipped entry: the buffer itself, or an object whose
    [getContent] method returns it. *)
Inductive entry_data :=
| Buffer (content : string)
| Lazy (getContent : string).

Record zip_entry := { _data : entry_data }.

Record WorkBook (worksheet : Type) := {
  SheetNames : list string;
  Sheets : gmap string worksheet;
  files : gmap string zip_entry
}.
Arguments SheetNames {worksheet} _.
Arguments Sheets {worksheet} _.
Arguments files {worksheet} _.

(** [new File([data], filename)] *)
Record File := { file_name : string; file_bits : string }.

Record cell (number : Type) := { row : number; col : number }.
Arguments row {number} _.
Arguments col {number} _.

Record IImageAnchor (number : Type) := {
  anchor_from : cell number;
  anchor_to : cell number
}.
Arguments anchor_from {number} _.
Arguments anchor_to {number} _.

Record IImageMetadata (number : Type) := {
  file : option File;      (* [null] when the media part is absent *)
  from : cell number;
  to : cell number
}.
Arguments file {number} _.
Arguments from {number} _.
Arguments to {number} _.

Record Sheet := { sheet_id : jsval; sheet_name : jsval }.

(** ** ExcelImageResolver *)

Section ExcelImageResolver.
Context {worksheet number : Type}.
(** The sax parser of xml-js on the text of a part: what it has reported,
    or the exception it throws. *)
Variable sax : string → completion report.
(** [Number(v)] *)
Variable Number : jsval → number.
(** [this.workbook] *)
Variable workbook : WorkBook worksheet.

Definition attributesKey : string := "_attr".
Definition textKey : string := "_text".
Definition alwaysArray : list string := ["xdr:twoCellAnchor"; "Relationship"; "sheet"].

Definition xml2js (xml : string) : completion built :=
  reported ← sax xml;
  Return (match reported with
          | Closed roots =>
              Tree (fold_left (λ currentElement n,
                                 compact alwaysArray attributesKey textKey n currentElement)
                              roots (JObject []))
          | Unclosed => Cyclic
          end).

(** The body of the [forEach] of [_mergeAttrAndText (obj, newObj,
    newObjKey, newObjParent)], on the key [k].  The state is [newObj] and,
    once the text key was met under a parent, the value stored in
    [newObjParent[newObjKey]].  At the outermost call [newObj] is a fresh
    object and there is no parent; at every inner call [newObj] is [obj]
    itself ([aliased]), so that what is read from [obj] is what was last
    written to [newObj].  [inner attrs] is the call
    [_mergeAttrAndText (attrs, newObj[k], k, newObj)]. *)
Definition merge_key (inner : jsval → completion (jsval * option jsval))
    (obj : jsval) (aliased hasParent : bool)
    (state : jsval * option jsval) (k : string) : completion (jsval * option jsval) :=
  let '(newObj, moved) := state in
  let attrs := own (if aliased then newObj else obj) k in
  if String.eqb k attributesKey then
    Return (remove (assign newObj attrs) k, moved)
  else if String.eqb k textKey then
    Return (newObj, if hasParent then Some attrs else moved)
  else
    let newObj := put newObj k attrs in
    if is_object attrs then
      '(child, text) ← inner attrs;
      Return (put newObj k (default child text), moved)
    else Return (newObj, moved).

(** [_mergeAttrAndText] on a tree; [fuel] bounds the depth of the calls,
    and [mergeAttrAndText_fuel] shows that any fuel above the height of
    [obj] gives the same result. *)
Fixpoint _mergeAttrAndText (fuel : nat) (obj newObj : jsval) (aliased hasParent : bool)
  : completion (jsval * option jsval) :=
  match fuel with
  | O => Return (newObj, None)
  | S fuel' =>
      ks ← keys obj;
      foldM (merge_key (λ attrs, _mergeAttrAndText fuel' attrs attrs true true)
               obj aliased hasParent)
        ks (newObj, None)
  end.

(** On a value that reaches itself the calls of [_mergeAttrAndText] do
    not end.  The key [_parent] of an element left open was created when
    the element started, so it is enumerated before the children and the
    text of the element: the call on the element enters its parent before
    anything could replace the element, the call on the parent enters the
    element again, and the engine gives up when the stack is exhausted. *)
Definition _xml2Obj (xml : string) : completion jsval :=
  obj ← xml2js xml;
  match obj with
  | Tree obj =>
      r ← _mergeAttrAndText (S (height obj)) obj (JObject []) false false;
      Return r.1
  | Cyclic => Throw RangeError
  end.

Definition content (e : zip_entry) : string :=
  match _data e with
  | Buffer c => c
  | Lazy c => c
  end.

(** [null] is [None]. *)
Definition _getDataFromWbFile (path : string) : option string :=
  content <$> files workbook !! path.

(** The [FileReader] decodes a blob held in memory; whatever [_xml2Obj]
    throws, the error of the parser or that of the engine, is replaced by
    the error of the program. *)
Definition _parseMetaXmlToObject (path : string) : completion jsval :=
  match _getDataFromWbFile path with
  | None => Return JNull
  | Some xml =>
      match _xml2Obj xml with
      | Return o => Return o
      | Throw _ => Throw (Error (msg_xml path xml))
      end
  end.

Definition _parseMetaImageToFile (path filename : string) : option File :=
  match _getDataFromWbFile path with
  | None => None
  | Some data => Some {| file_name := filename; file_bits := data |}
  end.

(** [new Map(entries)] *)
Definition new_Map {V} (kvs : list (jsval * V)) : list (jsval * V) :=
  fold_left (λ m kv, map_set kv.1 kv.2 m) kvs [].

(** The new value of [this.sheetMap]. *)
Definition _resolveSheetMap : completion (list (jsval * Sheet)) :=
  wbXmlObj ← _parseMetaXmlToObject "xl/workbook.xml";
  wb ← get wbXmlObj "workbook";
  sheets ← get wb "sheets";
  sheet ← get sheets "sheet";
  sheet ← elements sheet;
  kvs ← forM (λ sheet,
           name ← get sheet "name";
           sheetId ← get sheet "sheetId";
           Return (name, {| sheet_name := name; sheet_id := sheetId |})) sheet;
  Return (new_Map kvs).

(** [r.Id = v] in strict code: fails on a primitive; its value is [v]. *)
Definition assign_Id (r v : jsval) : completion jsval :=
  match r with
  | JObject _ | JArray _ => Return (put r "Id" v)
  | _ => Throw TypeError
  end.

(** [relationships.find(r => { return r.Id = drawingRelId; })]: the
    callback assigns, and its value is the assigned one. *)
Fixpoint find_relationship (relationships : list jsval) (drawingRelId : jsval)
  : completion jsval :=
  match relationships with
  | [] => Return JUndefined
  | r :: rest =>
      r' ← assign_Id r drawingRelId;
      if truthy drawingRelId then Return r'
      else find_relationship rest drawingRelId
  end.

(** [xmlObj.Relationships.Relationship], as the receiver of an array
    method. *)
Definition relationships_of (xmlObj : jsval) : completion (list jsval) :=
  rels ← get xmlObj "Relationships";
  relationships ← get rels "Relationship";
  elements relationships.

Definition _resolveDrawing (sheetId : jsval) : completion (option (jsval * jsval)) :=
  sheetXmlObj ← _parseMetaXmlToObject ("xl/worksheets/sheet" +:+ js_to_string sheetId +:+ ".xml");
  ws ← get sheetXmlObj "worksheet";
  drawing ← get ws "drawing";
  if negb (truthy drawing) then Return None else
  drawingRelId ← get drawing "r:id";
  sheetRelsXmlObj ← _parseMetaXmlToObject
    ("xl/worksheets/_rels/sheet" +:+ js_to_string sheetId +:+ ".xml.rels");
  if negb (truthy sheetRelsXmlObj) then Return None else
  relationships ← relationships_of sheetRelsXmlObj;
  relationshipOfDrawing ← find_relationship relationships drawingRelId;
  if negb (truthy relationshipOfDrawing) then Return None else
  drawingTarget ← get relationshipOfDrawing "Target";
  drawingTarget ← as_string drawingTarget;
  let drawingXmlFilename := basename drawingTarget in
  let drawingXmlFilePath := replace ".." "xl" drawingTarget in
  drawingXmlObj ← _parseMetaXmlToObject drawingXmlFilePath;
  let drawingRelXmlFilename := drawingXmlFilename +:+ ".rels" in
  let drawingRelXmlFilePath := "xl/drawings/_rels/" +:+ drawingRelXmlFilename in
  drawingRelXmlObj ← _parseMetaXmlToObject drawingRelXmlFilePath;
  Return (Some (drawingXmlObj, drawingRelXmlObj)).

(** [anchor["xdr:pic"]["xdr:blipFill"]["a:blip"]["r:embed"]] *)
Definition embed_id (anchor : jsval) : completion jsval :=
  pic ← get anchor "xdr:pic";
  blipFill ← get pic "xdr:blipFill";
  blip ← get blipFill "a:blip";
  get blip "r:embed".

(** The body of [imageAnchors.forEach]: the relationship id of an anchor
    and its two corners; [to] is read from ["xdr:from"] when the anchor
    has no ["xdr:to"]. *)
Definition read_anchor (anchor : jsval) : completion (jsval * IImageAnchor number) :=
  id ← embed_id anchor;
  xfrom ← get anchor "xdr:from";
  from_row ← get xfrom "xdr:row";
  xfrom ← get anchor "xdr:from";
  from_col ← get xfrom "xdr:col";
  xto ← get anchor "xdr:to";
  let isOneCellAnchors := negb (truthy xto) in
  corner ← get anchor ("xdr:" +:+ (if isOneCellAnchors then "from" else "to"));
  to_row ← get corner "xdr:row";
  corner ← get anchor ("xdr:" +:+ (if isOneCellAnchors then "from" else "to"));
  to_col ← get corner "xdr:col";
  Return (id, {| anchor_from := {| row := Number from_row; col := Number from_col |};
                 anchor_to := {| row := Number to_row; col := Number to_col |} |}).

(** One step of the [forEach]: the anchor is pushed on the list of its id. *)
Definition add_anchor (imageAnchorsMap : list (jsval * list (IImageAnchor number)))
    (anchor : jsval) : completion (list (jsval * list (IImageAnchor number))) :=
  '(id, a) ← read_anchor anchor;
  let entity := default [] (map_get id imageAnchorsMap) in
  Return (map_set id (entity ++ [a])%list imageAnchorsMap).

(** The body of [relationships.flatMap]. *)
Definition relationship_images (imageAnchorsMap : list (jsval * list (IImageAnchor number)))
    (r : jsval) : completion (list (IImageMetadata number)) :=
  id ← get r "Id";
  target ← get r "Target";
  target ← as_string target;
  let filename := basename target in
  let path := "xl/media/" +:+ filename in
  let file := _parseMetaImageToFile path filename in
  match map_get id imageAnchorsMap with
  | None => Throw (Error msg_anchor_not_found)
  | Some imageAnchors =>
      Return (map (λ anchor, {| file := file; from := anchor_from anchor;
                                to := anchor_to anchor |}) imageAnchors)
  end.

(** [imageAnchors], as the receiver of [forEach]: the one-cell anchors
    followed by the two-cell anchors. *)
Definition image_anchors (drawingXmlObj : jsval) : completion (list jsval) :=
  wsDr ← get drawingXmlObj "xdr:wsDr";
  two ← get wsDr "xdr:twoCellAnchor";
  let twoCellAnchors := or_else two (JArray []) in
  wsDr ← get drawingXmlObj "xdr:wsDr";
  one ← get wsDr "xdr:oneCellAnchor";
  let oneCellAnchors := or_else one (JArray []) in
  imageAnchors ← js_concat oneCellAnchors twoCellAnchors;
  elements imageAnchors.

(** The part of [_resolveSheetImages] that follows the test of
    [drawingObj]. *)
Definition drawing_images (drawingXmlObj drawingRelXmlObj : jsval)
  : completion (list (IImageMetadata number)) :=
  imageAnchors ← image_anchors drawingXmlObj;
  imageAnchorsMap ← foldM add_anchor imageAnchors [];
  relationships ← relationships_of drawingRelXmlObj;
  imageMetadatas ← forM (relationship_images imageAnchorsMap) relationships;
  Return (List.concat imageMetadatas).

Definition _resolveSheetImages (sheetId : jsval) : completion (list (IImageMetadata number)) :=
  drawingObj ← _resolveDrawing sheetId;
  match drawingObj with
  | None => Return []
  | Some (drawingXmlObj, drawingRelXmlObj) => drawing_images drawingXmlObj drawingRelXmlObj
  end.

(** [IImageMetadatasMap]: an object keyed by sheet name, its entries in
    the order in which [for ... in] enumerates them. *)
Definition _resolveAllSheetImages (sheetMap : list (jsval * Sheet))
  : completion (list (string * list (IImageMetadata number))) :=
  foldM (λ metadatasMap sheetName,
      match map_get (JString sheetName) sheetMap with
      | None => Throw (Error msg_sheet_not_found)
      | Some sheet =>
          images ← _resolveSheetImages (sheet_id sheet);
          Return (props_set sheetName images metadatasMap)
      end) (SheetNames workbook) [].

Definition resolveImageLocations : completion (list (string * list (IImageMetadata number))) :=
  sheetMap ← _resolveSheetMap;
  _resolveAllSheetImages sheetMap.
End ExcelImageResolver.

(** ** Arrays of the cell grid

    The grid read from a worksheet is an array of rows, each an array of
    cell values; both kinds of array may have holes, and a write past the
    end extends the array.  [data[n]] converts the number [n] to a property
    key: an array index, or a name when [n] is not an integer below
    2^32 - 1. *)

Inductive key :=
| Index (i : nat)
| Named (s : string).

#[global] Instance key_eq_dec : EqDecision key.
Proof. solve_decision. Defined.

Record sparse (A : Type) := {
  slots : list (option A);      (* [None] is a hole *)
  named : gmap string A
}.
Arguments slots {A} _.
Arguments named {A} _.

(** [[]] *)
Definition new_array {A} : sparse A := {| slots := []; named := ∅ |}.

(** [a[k]]; [None] is [undefined]. *)
Definition arr_get {A} (a : sparse A) (k : key) : option A :=
  match k with
  | Index i => mjoin (slots a !! i)
  | Named s => named a !! s
  end.

(** [a[k] = x] *)
Definition arr_set {A} (a : sparse A) (k : key) (x : A) : sparse A :=
  match k with
  | Index i =>
      {| slots := if decide (i < length (slots a)) then <[i := Some x]> (slots a)
                  else (slots a ++ replicate (i - length (slots a)) None ++ [Some x])%list;
         named := named a |}
  | Named s => {| slots := slots a; named := <[s := x]> (named a) |}
  end.

(** ** Excel *)

Section Excel.
Context {worksheet number any St : Type}.
Variable sax : string → completion report.
Variable Number : jsval → number.
(** The property key of a number. *)
Variable key_of : number → key.
(** [XLSX.read (buffer, {type: "buffer", bookFiles: true})] *)
Variable XLSX_read : string → completion (WorkBook worksheet).
(** [XLSX.utils.sheet_to_json (sheet, {header: 1})]; the sheet may be
    [undefined]. *)
Variable sheet_to_json : option worksheet → sparse (sparse any).
(** The worksheet after [XLSX.utils.sheet_add_aoa (sheet, data)]. *)
Variable sheet_add_aoa : worksheet → sparse (sparse any) → worksheet.

(** The resolver of [./image], built on the workbook: it reads the [files]
    and the [SheetNames] of the workbook only, which [Excel] never writes. *)
Record ExcelImageResolver := { resolver_workbook : WorkBook worksheet }.

Record Excel := {
  workbook : option (WorkBook worksheet);
  imageResolver : option ExcelImageResolver
}.

(** [new Excel()] *)
Definition new_Excel : Excel := {| workbook := None; imageResolver := None |}.

Definition load (this : Excel) (buffer : string) : completion Excel :=
  wb ← XLSX_read buffer;
  Return {| workbook := Some wb; imageResolver := Some {| resolver_workbook := wb |} |}.

Definition _assertHasLoaded (this : Excel) : completion unit :=
  match workbook this with
  | None => Throw (Error msg_not_loaded)
  | Some _ => Return ()
  end.

Definition getDataBySheetName (this : Excel) (sheetName : string)
  : completion (sparse (sparse any)) :=
  match workbook this with
  | None => Throw TypeError
  | Some wb => Return (sheet_to_json (Sheets wb !! sheetName))
  end.

Definition _assertSheetExist (this : Excel) (sheetName : string) : completion unit :=
  match workbook this with
  | None => Throw TypeError
  | Some wb =>
      match Sheets wb !! sheetName with
      | None => Throw (Error (msg_no_sheet sheetName))
      | Some _ => Return ()
      end
  end.

Definition setData (this : Excel) (sheetName : string) (data : sparse (sparse any))
  : completion Excel :=
  _ ← _assertSheetExist this sheetName;
  match workbook this with
  | None => Throw TypeError
  | Some wb =>
      match Sheets wb !! sheetName with
      | None => Throw TypeError
      | Some sheet =>
          let sheets := <[sheetName := sheet_add_aoa sheet data]> (Sheets wb) in
          Return {| workbook := Some {| SheetNames := SheetNames wb;
                                        Sheets := sheets;
                                        files := files wb |};
                    imageResolver := imageResolver this |}
      end
  end.

Definition getData (this : Excel) : completion (list (string * sparse (sparse any))) :=
  _ ← _assertHasLoaded this;
  match workbook this with
  | None => Throw TypeError
  | Some wb =>
      forM (λ name, data ← getDataBySheetName this name; Return (name, data)) (SheetNames wb)
  end.

(** The two assignments of the inner loop:
    [data[row] = data[row] || []; data[row][col] = str]. *)
Definition write_cell (data : sparse (sparse any)) (at_ : cell number) (str : any)
  : sparse (sparse any) :=
  let data := arr_set data (key_of (row at_))
                (default new_array (arr_get data (key_of (row at_)))) in
  match arr_get data (key_of (row at_)) with
  | Some r => arr_set data (key_of (row at_)) (arr_set r (key_of (col at_)) str)
  | None => data
  end.

(** The callback: what its promise settles to, and the state of the
    world it leaves. *)
Variable cb : St → option File → cell number → completion any * St.

(** [for (const location of locations)] *)
Fixpoint transform_locations (locations : list (IImageMetadata number))
    (data : sparse (sparse any)) (st : St) : completion (sparse (sparse any)) * St :=
  match locations with
  | [] => (Return data, st)
  | location :: rest =>
      match cb st (file location) (from location) with
      | (Return str, st) => transform_locations rest (write_cell data (from location) str) st
      | (Throw e, st) => (Throw e, st)
      end
  end.

(** [for (let sheetName in locationsMap)] *)
Fixpoint transform_sheets (locationsMap : list (string * list (IImageMetadata number)))
    (this : Excel) (st : St) : completion unit * Excel * St :=
  match locationsMap with
  | [] => (Return (), this, st)
  | (sheetName, locations) :: rest =>
      match getDataBySheetName this sheetName with
      | Throw e => (Throw e, this, st)
      | Return data =>
          match transform_locations locations data st with
          | (Throw e, st) => (Throw e, this, st)
          | (Return data, st) =>
              match setData this sheetName data with
              | Throw e => (Throw e, this, st)
              | Return this => transform_sheets rest this st
              end
          end
      end
  end.

Definition transformImagesToStr (this : Excel) (st : St) : completion unit * Excel * St :=
  match imageResolver this with
  | None => (Throw TypeError, this, st)
  | Some resolver =>
      match resolveImageLocations sax Number (resolver_workbook resolver) with
      | Throw e => (Throw e, this, st)
      | Return locationsMap => transform_sheets locationsMap this st
      end
  end.
End Excel.

(** ** The copy of the resolver in src/excel/image.ts

    The repository holds a second copy of image.ts.  It differs from the
    one above in [_resolveSheetImages] only: it reads the two-cell anchors
    alone and keeps one anchor for each relationship id. *)

Section Legacy.
Context {worksheet number : Type}.
Variable sax : string → completion report.
Variable Number : jsval → number.
Variable workbook : WorkBook worksheet.

(** The body of [imageAnchors.map]: an entry [[id, { from, to }]]. *)
Definition legacy_read_anchor (anchor : jsval) : completion (jsval * IImageAnchor number) :=
  id ← embed_id anchor;
  xfrom ← get anchor "xdr:from";
  from_row ← get xfrom "xdr:row";
  xfrom ← get anchor "xdr:from";
  from_col ← get xfrom "xdr:col";
  xto ← get anchor "xdr:to";
  to_row ← get xto "xdr:row";
  xto ← get anchor "xdr:to";
  to_col ← get xto "xdr:col";
  Return (id, {| anchor_from := {| row := Number from_row; col := Number from_col |};
                 anchor_to := {| row := Number to_row; col := Number to_col |} |}).

(** The body of [relationships.map]. *)
Definition legacy_relationship_image (imageAnchorsMap : list (jsval * IImageAnchor number))
    (r : jsval) : completion (IImageMetadata number) :=
  id ← get r "Id";
  target ← get r "Target";
  target ← as_string target;
  let filename := basename target in
  let path := "xl/media/" +:+ filename in
  let file := _parseMetaImageToFile workbook path filename in
  match map_get id imageAnchorsMap with
  | None => Throw (Error msg_anchor_not_found)
  | Some imageAnchor =>
      Return {| file := file; from := anchor_from imageAnchor; to := anchor_to imageAnchor |}
  end.

(** The part of the older [_resolveSheetImages] that follows the test of
    [drawingObj]. *)
Definition legacy_drawing_images (drawingXmlObj drawingRelXmlObj : jsval)
  : completion (list (IImageMetadata number)) :=
  wsDr ← get drawingXmlObj "xdr:wsDr";
  imageAnchors ← get wsDr "xdr:twoCellAnchor";
  imageAnchors ← elements imageAnchors;
  entries ← forM legacy_read_anchor imageAnchors;
  let imageAnchorsMap := new_Map entries in
  relationships ← relationships_of drawingRelXmlObj;
  forM (legacy_relationship_image imageAnchorsMap) relationships.

Definition legacy_resolveSheetImages (sheetId : jsval)
  : completion (list (IImageMetadata number)) :=
  drawingObj ← _resolveDrawing sax workbook sheetId;
  match drawingObj with
  | None => Return []
  | Some (drawingXmlObj, drawingRelXmlObj) =>
      legacy_drawing_images drawingXmlObj drawingRelXmlObj
  end.

(** The two methods below are, word for word, those of the copy above. *)
Definition legacy_resolveAllSheetImages (sheetMap : list (jsval * Sheet))
  : completion (list (string * list (IImageMetadata number))) :=
  foldM (λ metadatasMap sheetName,
      match map_get (JString sheetName) sheetMap with
      | None => Throw (Error msg_sheet_not_found)
      | Some sheet =>
          images ← legacy_resolveSheetImages (sheet_id sheet);
          Return (props_set sheetName images metadatasMap)
      end) (SheetNames workbook) [].

Definition legacy_resolveImageLocations
  : completion (list (string * list (IImageMetadata number))) :=
  sheetMap ← _resolveSheetMap sax workbook;
  legacy_resolveAllSheetImages sheetMap.
End Legacy.

(** * The vocabulary of the statements *)

(** [v == null] *)
Definition nullish (v : jsval) : bool :=
  match v with JUndefined | JNull => true | _ => false end.

(** Every value held by [v] has a height below [H]. *)
Definition below (H : nat) (v : jsval) : Prop :=
  match v with
  | JObject ps => Forall (λ p, height p.2 < H)%nat ps
  | JArray l => Forall (λ x, height x < H)%nat l
  | _ => True
  end.

(** What an aliased loop of [_mergeAttrAndText] keeps true of its state:
    the object and the value moved to the parent hold nothing of height
    [H] or more. *)
Definition merge_inv (H : nat) (aliased : bool) (state : jsval * option jsval) : Prop :=
  aliased = true →
  (0 < H)%nat ∧ below H state.1 ∧ ∀ x, state.2 = Some x → (height x < H)%nat.

Section AnchorVocabulary.
Context {number : Type}.
Variable Number : jsval → number.

(** The cell a coordinate pair declares. *)
Definition corner (pair : jsval) : cell number :=
  {| row := Number (own pair "xdr:row"); col := Number (own pair "xdr:col") |}.

(** The anchors that reference a relationship id, in anchor-list order. *)
Definition anchors_of (id : jsval) (parsed : list (jsval * IImageAnchor number))
  : list (IImageAnchor number) :=
  (filter (λ p, same_value_zero p.1 id) parsed).*2.
End AnchorVocabulary.

Section ImageVocabulary.
Context {worksheet number : Type}.
Variable wb : WorkBook worksheet.

(** An entry of a relationship table, seen as its id and its target. *)
Definition is_relationship (r : jsval) (v : jsval * string) : Prop :=
  get r "Id" = Return v.1 ∧ get r "Target" = Return (JString v.2).

(** The file of a media target: [null] when the part is absent. *)
Definition media (target : string) : option File :=
  _parseMetaImageToFile wb ("xl/media/" +:+ basename target) (basename target).

(** A file placed at each anchor of a list, in the order of the list. *)
Definition located (f : option File) (anchors : list (IImageAnchor number))
  : list (IImageMetadata number) :=
  map (λ a, {| file := f; from := anchor_from a; to := anchor_to a |}) anchors.

(** What a relationship contributes, given the anchors read. *)
Definition images_of (parsed : list (jsval * IImageAnchor number)) (v : jsval * string)
  : completion (list (IImageMetadata number)) :=
  match anchors_of v.1 parsed with
  | [] => Throw ImageAnchorNotFoundError
  | l => Return (located (media v.2) l)
  end.
End ImageVocabulary.

(** No key is repeated, and no key stands after one it should precede. *)
Fixpoint enumerated (ks : list string) : Prop :=
  match ks with
  | [] => True
  | k :: rest => (∀ k', k' ∈ rest → key_before k' k = false ∧ k' ≠ k) ∧ enumerated rest
  end.

Section RewriteVocabulary.
Context {worksheet number any St : Type}.
Variable key_of : number → key.
Variable sheet_to_json : option worksheet → sparse (sparse any).
Variable sheet_add_aoa : worksheet → sparse (sparse any) → worksheet.

(** [data[c.row][c.col]], where a missing row has no cells. *)
Definition cell_get (data : sparse (sparse any)) (c : cell number) : option any :=
  r ← arr_get data (key_of (row c)); arr_get r (key_of (col c)).

(** The workbook with other sheets. *)
Definition with_Sheets (wb : WorkBook worksheet) (sheets : gmap string worksheet)
  : WorkBook worksheet :=
  {| SheetNames := SheetNames wb; Sheets := sheets; files := files wb |}.

(** The object with another workbook. *)
Definition with_workbook (this : @Excel worksheet) (wb : WorkBook worksheet)
  : @Excel worksheet :=
  {| workbook := Some wb; imageResolver := imageResolver this |}.

(** A callback whose promise always resolves. *)
Variable f : St → option File → cell number → any * St.

Definition resolving : St → option File → cell number → completion any * St :=
  λ st file c, (Return (f st file c).1, (f st file c).2).

(** What the specification asks of one image: the callback is given the
    file and the [from] cell, and its string is written at that cell. *)
Definition rewrite_step (acc : sparse (sparse any) * St) (l : IImageMetadata number)
  : sparse (sparse any) * St :=
  (write_cell key_of acc.1 (from l) (f acc.2 (file l) (from l)).1,
   (f acc.2 (file l) (from l)).2).

(** The arguments of the callback, image by image. *)
Definition callbacks (locationsMap : list (string * list (IImageMetadata number)))
  : list (option File * cell number) :=
  flat_map (λ e, map (λ l, (file l, from l)) e.2) locationsMap.

(** The state of the world after the callback has run on each of a list
    of arguments, in the order of the list and once on each. *)
Definition state_after (calls : list (option File * cell number)) (st : St) : St :=
  fold_left (λ s c, (f s c.1 c.2).2) calls st.

(** The sheets and the state after the sheets of a map are rewritten one
    after the other. *)
Definition rewrite_sheet (acc : gmap string worksheet * St)
    (e : string * list (IImageMetadata number)) : gmap string worksheet * St :=
  match acc.1 !! e.1 with
  | Some sheet =>
      let r := fold_left rewrite_step e.2 (sheet_to_json (Some sheet), acc.2) in
      (<[e.1 := sheet_add_aoa sheet r.1]> acc.1, r.2)
  | None => acc
  end.
End RewriteVocabulary.

(** ** Strings and paths *)

(** [s] holds the character [c]. *)
Fixpoint has_char (c : ascii) (s : string) : bool :=
  match s with
  | EmptyString => false
  | String a rest => Ascii.eqb a c || has_char c rest
  end.

(** [pat] occurs in [s]. *)
Fixpoint occurs (pat s : string) : bool :=
  String.prefix pat s ||
  match s with
  | EmptyString => false
  | String _ rest => occurs pat rest
  end.
(** ** The result of the merge *)

(** A key that is neither the key of the attributes nor that of the
    text. *)
Definition plain (k : string) : bool :=
  negb (String.eqb k attributesKey) && negb (String.eqb k textKey).


(** The objects on which the merge is described by [merged]: no [null];
    the keys of an object are distinct and none is an array index; the
    attributes of an element are an object whose keys are distinct, are
    no array indices and are no keys of the element; an array is shorter
    than 2^32 - 1.  What stands under the key of the text is not
    constrained. *)
Fixpoint regular (v : jsval) : bool :=
  match v with
  | JUndefined | JString _ => true
  | JNull => false
  | JArray items => forallb regular items && (N.of_nat (length items) <? 4294967295)%N
  | JObject ps =>
      bool_decide (NoDup ps.*1)
      && forallb (λ p, bool_decide (array_index p.1 = None)) ps
      && forallb (λ p, negb (plain p.1) || regular p.2) ps
      && match props_get attributesKey ps with
         | Some (JObject attrs) =>
             bool_decide (NoDup attrs.*1)
             && forallb (λ a, bool_decide (array_index a.1 = None)
                              && bool_decide (a.1 ∉ ps.*1)) attrs
         | Some _ => false
         | None => true
         end
  end.

(** What the merge leaves in the place of a value: an element that has
    text becomes its text; any other element becomes the object of its
    children, each merged, followed by its attributes; an array is
    merged item by item. *)
Fixpoint merged (v : jsval) : jsval :=
  match v with
  | JObject ps =>
      match props_get textKey ps with
      | Some text => text
      | None =>
          JObject (props_delete attributesKey (map (λ p, (p.1, merged p.2)) ps) ++
                   match props_get attributesKey ps with
                   | Some attrs => entries attrs
                   | None => []
                   end)
      end
  | JArray items => JArray (map merged items)
  | _ => v
  end.

(** An entry of an element after the merge: the entry of the text is
    left as it is. *)
Definition merged_entry (p : string * jsval) : string * jsval :=
  if String.eqb p.1 textKey then p else (p.1, merged p.2).

(** The attributes of an element, as entries. *)
Definition hoisted (ps : list (string * jsval)) : list (string * jsval) :=
  match props_get attributesKey ps with
  | Some attrs => entries attrs
  | None => []
  end.

(** * Worked packages

    Concrete packages on which the definitions are run.  The text of a
    part is written out from its tree, and the parser reads back the trees
    of the package at hand, and three texts that are no documents. *)

Fixpoint show (n : xml_node) : string :=
  match n with
  | XText text => text
  | XElement name attributes children =>
      "<" +:+ name +:+
      String.concat "" (map (λ p, " " +:+ p.1 +:+ "='" +:+ p.2 +:+ "'") attributes) +:+
      ">" +:+ String.concat "" (map show children) +:+ "</" +:+ name +:+ ">"
  end.

(** A text that ends inside its first tag: no element is reported. *)
Definition truncated_tag : string := "<workbook".
(** A text that ends inside two elements. *)
Definition truncated_element : string := "<workbook><sheets>".
(** A text whose end tag closes another element than the one open: the
    parser keeps the error while the text is written and throws it. *)
Definition crossed_tags : string := "<workbook></sheets>".

(** The parser of the worked packages: what the parser of xml-js reports
    on the text of each document listed and on the three texts above.  A
    part of a worked package is one of these texts ([sax_for_listed]), and
    no other text is parsed in a run below. *)
Definition sax_for (docs : list xml_node) (xml : string) : completion report :=
  match List.find (λ d, String.eqb (show d) xml) docs with
  | Some d => Return (Closed [d])
  | None =>
      if String.eqb xml truncated_tag then Return (Closed [])
      else if String.eqb xml truncated_element then Return Unclosed
      else if String.eqb xml crossed_tags then Throw (Error "Unexpected close tag")
      else Throw (Error "a text of no worked package")
  end.

(** [Number] on the decimal literals that cell coordinates are written
    with; [None] stands for any other outcome. *)
Definition Number_decimal (v : jsval) : option N :=
  match v with
  | JString (String _ _ as s) => if all_digits s then Some (digits_value s 0) else None
  | _ => None
  end.

Definition key_decimal (n : option N) : key :=
  match n with
  | Some i => Index (N.to_nat i)
  | None => Named "NaN"
  end.

Definition demo_grid : Type := sparse (sparse string).

(** A worksheet of SheetJS, as far as the two helpers read and write it:
    the value of each cell that has one, by row and column, and the range
    [!ref] of the sheet, from its first row and column to its last; an
    empty sheet has no range.  Cell values are strings. *)
Record demo_sheet := {
  sheet_ref : option ((nat * nat) * (nat * nat));
  sheet_cells : gmap (nat * nat) string
}.

Definition empty_sheet : demo_sheet := {| sheet_ref := None; sheet_cells := ∅ |}.

(** An array ends at its last element: the holes after it are none. *)
Fixpoint strip_holes {A} (l : list (option A)) : list (option A) :=
  match l with
  | [] => []
  | x :: rest =>
      match x, strip_holes rest with
      | None, [] => []
      | _, rest' => x :: rest'
      end
  end.

(** [sheet_to_json (sheet, {header: 1})]: one array for each row of the
    range, blank rows included, numbered from the first row of the range;
    in a row, the value of a cell at its column counted from the first
    column of the range.  A sheet without a range gives no rows. *)
Definition demo_to_json (sheet : option demo_sheet) : demo_grid :=
  match sheet ≫= sheet_ref, sheet with
  | Some ((r0, c0), (r1, c1)), Some ws =>
      {| slots :=
           map (λ r, Some {| slots := strip_holes
                                        (map (λ c, sheet_cells ws !! (r, c))
                                             (seq c0 (S c1 - c0)));
                             named := ∅ |})
               (seq r0 (S r1 - r0));
         named := ∅ |}
  | _, _ => new_array
  end.

(** The range after the cell at [r] and [c] is written. *)
Definition grow (ref : option ((nat * nat) * (nat * nat))) (r c : nat)
  : option ((nat * nat) * (nat * nat)) :=
  match ref with
  | None => Some ((r, c), (r, c))
  | Some ((r0, c0), (r1, c1)) => Some ((r0 `min` r, c0 `min` c), (r1 `max` r, c1 `max` c))
  end.

(** The cells that [sheet_add_aoa (sheet, data)] writes, in the order of
    its two loops: each element of each row of [data] that is not a hole,
    at its own row and column, counted from the first cell of the sheet.
    Properties of the arrays that are no indices are not visited. *)
Definition written (data : demo_grid) : list ((nat * nat) * string) :=
  imap pair (slots data) ≫= λ '(r, cells),
    match cells with
    | None => []
    | Some cells => omap (λ '(c, v), pair (r, c) <$> v) (imap pair (slots cells))
    end.

(** A cell is written, and the range is extended to hold it. *)
Definition write (ws : demo_sheet) (w : (nat * nat) * string) : demo_sheet :=
  {| sheet_ref := grow (sheet_ref ws) w.1.1 w.1.2;
     sheet_cells := <[w.1 := w.2]> (sheet_cells ws) |}.

Definition demo_add_aoa (sheet : demo_sheet) (data : demo_grid) : demo_sheet :=
  fold_left write (written data) sheet.

Definition el := XElement.
Definition tx := XText.

Definition x_pair (tag c r : string) : xml_node :=
  el tag [] [el "xdr:col" [] [tx c]; el "xdr:colOff" [] [tx "0"];
             el "xdr:row" [] [tx r]; el "xdr:rowOff" [] [tx "0"]].

Definition x_pic (rid : string) : xml_node :=
  el "xdr:pic" []
    [el "xdr:nvPicPr" [] [el "xdr:cNvPr" [("id", "2"); ("name", "Picture")] []];
     el "xdr:blipFill" [] [el "a:blip" [("r:embed", rid)] []; el "a:stretch" [] []]].

Definition x_two (rid c1 r1 c2 r2 : string) : xml_node :=
  el "xdr:twoCellAnchor" [("editAs", "oneCell")]
    [x_pair "xdr:from" c1 r1; x_pair "xdr:to" c2 r2; x_pic rid; el "xdr:clientData" [] []].

Definition x_one (rid c1 r1 : string) : xml_node :=
  el "xdr:oneCellAnchor" []
    [x_pair "xdr:from" c1 r1; el "xdr:ext" [("cx", "9525"); ("cy", "9525")] [];
     x_pic rid; el "xdr:clientData" [] []].

Definition x_rel (rid target : string) : xml_node :=
  el "Relationship" [("Id", rid); ("Type", "t"); ("Target", target)] [].

Definition x_rels (rels : list xml_node) : xml_node := el "Relationships" [] rels.

Definition x_drawing (anchors : list xml_node) : xml_node := el "xdr:wsDr" [] anchors.

Definition x_workbook (sheets : list (string * string)) : xml_node :=
  el "workbook" []
    [el "sheets" [] (map (λ s, el "sheet" [("name", s.1); ("sheetId", s.2)] []) sheets)].

(** A worksheet that declares the drawing [rid]. *)
Definition x_sheet (rid : string) : xml_node :=
  el "worksheet" [] [el "sheetData" [] []; el "drawing" [("r:id", rid)] []].

Definition demo_files (parts : list (string * xml_node)) (media : list (string * string))
  : gmap string zip_entry :=
  list_to_map (map (λ p, (p.1, {| _data := Buffer (show p.2) |})) parts ++
               map (λ p, (p.1, {| _data := Lazy p.2 |})) media)%list.

(** A workbook whose worksheets are empty. *)
Definition demo_book (names : list string) (parts : list (string * xml_node))
    (media : list (string * string)) : WorkBook demo_sheet :=
  {| SheetNames := names;
     Sheets := list_to_map (map (λ n, (n, empty_sheet)) names);
     files := demo_files parts media |}.

Definition demo_sax (parts : list (string * xml_node)) : string → completion report :=
  sax_for parts.*2.

(** One sheet, [Data], with its worksheet relationships, its drawing and
    the relationships of the drawing. *)
Definition sheet_parts (declared : string) (sheet_rels : list xml_node)
  : list (string * xml_node) :=
  [("xl/workbook.xml", x_workbook [("Data", "1")]);
   ("xl/worksheets/sheet1.xml", x_sheet declared);
   ("xl/worksheets/_rels/sheet1.xml.rels", x_rels sheet_rels)].

Definition drawing_parts (anchors : list xml_node) (drawing_rels : list xml_node)
  : list (string * xml_node) :=
  [("xl/drawings/drawing1.xml", x_drawing anchors);
   ("xl/drawings/_rels/drawing1.xml.rels", x_rels drawing_rels)].

Definition one_sheet (sheet_rels : list xml_node) (anchors : list xml_node)
    (drawing_rels : list xml_node) : list (string * xml_node) :=
  (sheet_parts "rId1" sheet_rels ++ drawing_parts anchors drawing_rels)%list.

Definition image1 : list (string * string) := [("xl/media/image1.png", "PNG1")].

(** The scenario of the specification: a two-cell anchor at rows 2 to 4
    and columns 1 to 3 that references [rId1], bound to [image1.png]. *)
Definition parts_scenario : list (string * xml_node) :=
  one_sheet [x_rel "rId1" "../drawings/drawing1.xml"]
            [x_two "rId1" "1" "2" "3" "4"]
            [x_rel "rId1" "../media/image1.png"].

(** The value of a completion that returns. *)
Definition the {A} (c : completion A) (d : A) : A :=
  match c with Return a => a | Throw _ => d end.

(** *** One image referenced by two anchors *)

Definition image12 : list (string * string) :=
  [("xl/media/image1.png", "PNG1"); ("xl/media/image2.png", "PNG2")].

(** The drawing declares an anchor of [rId1], one of [rId2] and a second
    one of [rId1]. *)
Definition parts_shared : list (string * xml_node) :=
  one_sheet [x_rel "rId1" "../drawings/drawing1.xml"]
            [x_two "rId1" "1" "2" "3" "4"; x_two "rId2" "5" "6" "7" "8";
             x_two "rId1" "0" "9" "1" "10"]
            [x_rel "rId1" "../media/image1.png"; x_rel "rId2" "../media/image2.png"].

Definition sax_shared := demo_sax parts_shared.
Definition book_shared := demo_book ["Data"] parts_shared image12.

Definition shared_drawing : jsval * jsval :=
  Eval vm_compute in
    default (JNull, JNull) (the (_resolveDrawing sax_shared book_shared (JString "1")) None).
Definition shared_anchors : list jsval :=
  Eval vm_compute in the (image_anchors shared_drawing.1) [].
Definition shared_parsed : list (jsval * IImageAnchor (option N)) :=
  Eval vm_compute in the (forM (read_anchor Number_decimal) shared_anchors) [].
Definition shared_rels : list jsval :=
  Eval vm_compute in the (relationships_of shared_drawing.2) [].
Definition shared_views : list (jsval * string) :=
  [(JString "rId1", "../media/image1.png"); (JString "rId2", "../media/image2.png")].

(** *** A media part that is absent *)

Definition book_no_image2 := demo_book ["Data"] parts_shared image1.

(** *** The two shapes of anchor *)

Definition anchor_one_cell : jsval :=
  JObject [("xdr:from", JObject [("xdr:col", JString "7"); ("xdr:row", JString "8")]);
           ("xdr:pic", JObject [("xdr:blipFill",
              JObject [("a:blip", JObject [("r:embed", JString "rId1")])])])].

Definition anchor_two_cell : jsval :=
  JObject [("xdr:from", JObject [("xdr:col", JString "1"); ("xdr:row", JString "2")]);
           ("xdr:to", JObject [("xdr:col", JString "3"); ("xdr:row", JString "4")]);
           ("xdr:pic", JObject [("xdr:blipFill",
              JObject [("a:blip", JObject [("r:embed", JString "rId1")])])])].

(** *** The drawing is the second relationship of the worksheet

    The worksheet declares the drawing [rId2]; its relationship table lists
    the comments part first. *)

Definition parts_drawing_second : list (string * xml_node) :=
  (sheet_parts "rId2" [x_rel "rId1" "../comments1.xml";
                       x_rel "rId2" "../drawings/drawing1.xml"] ++
   [("xl/comments1.xml", el "comments" [] [el "authors" [] []])] ++
   drawing_parts [x_two "rId1" "1" "2" "3" "4"] [x_rel "rId1" "../media/image1.png"])%list.

Definition sax_second := demo_sax parts_drawing_second.
Definition book_second := demo_book ["Data"] parts_drawing_second image1.

(** *** A drawing with exactly one one-cell anchor *)

Definition parts_single_one_cell : list (string * xml_node) :=
  one_sheet [x_rel "rId1" "../drawings/drawing1.xml"]
            [x_one "rId1" "1" "2"]
            [x_rel "rId1" "../media/image1.png"].

Definition sax_single := demo_sax parts_single_one_cell.
Definition book_single := demo_book ["Data"] parts_single_one_cell image1.

(** *** A worksheet that declares a drawing and has no relationship table *)

Definition parts_no_rels : list (string * xml_node) :=
  [("xl/workbook.xml", x_workbook [("Data", "1")]);
   ("xl/worksheets/sheet1.xml", x_sheet "rId1")].

Definition sax_no_rels := demo_sax parts_no_rels.
Definition book_no_rels := demo_book ["Data"] parts_no_rels image1.

(** *** A drawing part that is absent *)

Definition parts_no_drawing : list (string * xml_node) :=
  sheet_parts "rId1" [x_rel "rId1" "../drawings/drawing1.xml"].

Definition sax_no_drawing := demo_sax parts_no_drawing.
Definition book_no_drawing := demo_book ["Data"] parts_no_drawing image1.

(** *** A relationship that no anchor references *)

(** The relationships of the drawing list [rId9], which no anchor embeds. *)
Definition parts_orphan : list (string * xml_node) :=
  one_sheet [x_rel "rId1" "../drawings/drawing1.xml"]
            [x_two "rId1" "1" "2" "3" "4"]
            [x_rel "rId1" "../media/image1.png"; x_rel "rId9" "../media/image2.png"].

Definition sax_orphan := demo_sax parts_orphan.
Definition book_orphan := demo_book ["Data"] parts_orphan image12.

(** The same package without [image2.png], the target of [rId9]. *)
Definition book_orphan_no_media := demo_book ["Data"] parts_orphan image1.

Definition orphan_sheetMap : list (jsval * Sheet) :=
  Eval vm_compute in the (_resolveSheetMap sax_orphan book_orphan) [].
Definition orphan_drawing : jsval * jsval :=
  Eval vm_compute in
    default (JNull, JNull) (the (_resolveDrawing sax_orphan book_orphan (JString "1")) None).
Definition orphan_anchors : list jsval :=
  Eval vm_compute in the (image_anchors orphan_drawing.1) [].
Definition orphan_parsed : list (jsval * IImageAnchor (option N)) :=
  Eval vm_compute in the (forM (read_anchor Number_decimal) orphan_anchors) [].
Definition orphan_rels : list jsval :=
  Eval vm_compute in the (relationships_of orphan_drawing.2) [].

(** An object on which a workbook was loaded. *)
Definition loaded (wb : WorkBook demo_sheet) : @Excel demo_sheet :=
  {| workbook := Some wb; imageResolver := Some {| resolver_workbook := wb |} |}.

(** A callback that records its arguments and resolves to a URL. *)
Definition log_url (st : list (option File * cell (option N))) (file : option File)
    (c : cell (option N)) : string * list (option File * cell (option N)) :=
  ("https://cdn/x.png", (st ++ [(file, c)])%list).

(** *** The order of the callbacks *)

Definition child_named (tag : string) (n : xml_node) : option xml_node :=
  match n with
  | XElement _ _ children =>
      List.find (λ c, match c with
                      | XElement t _ _ => String.eqb t tag
                      | XText _ => false
                      end) children
  | XText _ => None
  end.

Definition text_of (n : xml_node) : jsval :=
  match n with
  | XElement _ _ [XText t] => JString t
  | _ => JUndefined
  end.

(** The [from] cells of the anchors of a drawing, in the order in which
    the drawing declares the anchors. *)
Definition declaration_order (drawing : xml_node) : list (cell (option N)) :=
  match drawing with
  | XElement _ _ children =>
      omap (λ anchor,
              match anchor with
              | XElement t _ _ =>
                  if String.eqb t "xdr:oneCellAnchor" || String.eqb t "xdr:twoCellAnchor"
                  then pair ← child_named "xdr:from" anchor;
                       r ← child_named "xdr:row" pair;
                       c ← child_named "xdr:col" pair;
                       Some {| row := Number_decimal (text_of r);
                               col := Number_decimal (text_of c) |}
                  else None
              | XText _ => None
              end) children
  | XText _ => []
  end.

Definition shared_map : list (string * list (IImageMetadata (option N))) :=
  Eval vm_compute in the (resolveImageLocations sax_shared Number_decimal book_shared) [].

(** *** One-cell and two-cell anchors

    The drawing declares a two-cell anchor of [rId1] at row 2, a one-cell
    anchor of [rId2] at row 6 and a one-cell anchor of [rId1] at row 9. *)

Definition parts_mixed : list (string * xml_node) :=
  one_sheet [x_rel "rId1" "../drawings/drawing1.xml"]
            [x_two "rId1" "1" "2" "3" "4"; x_one "rId2" "5" "6"; x_one "rId1" "0" "9"]
            [x_rel "rId1" "../media/image1.png"; x_rel "rId2" "../media/image2.png"].

Definition sax_mixed := demo_sax parts_mixed.
Definition book_mixed := demo_book ["Data"] parts_mixed image12.

Definition mixed_sheetMap : list (jsval * Sheet) :=
  Eval vm_compute in the (_resolveSheetMap sax_mixed book_mixed) [].
Definition mixed_drawing : jsval * jsval :=
  Eval vm_compute in
    default (JNull, JNull) (the (_resolveDrawing sax_mixed book_mixed (JString "1")) None).
Definition mixed_ones : list jsval :=
  Eval vm_compute in
    the (elements (own (own mixed_drawing.1 "xdr:wsDr") "xdr:oneCellAnchor")) [].
Definition mixed_twos : list jsval :=
  Eval vm_compute in
    the (elements (own (own mixed_drawing.1 "xdr:wsDr") "xdr:twoCellAnchor")) [].
Definition mixed_parsed : list (jsval * IImageAnchor (option N)) :=
  Eval vm_compute in the (forM (read_anchor Number_decimal) (mixed_ones ++ mixed_twos)) [].
Definition mixed_rels : list jsval :=
  Eval vm_compute in the (relationships_of mixed_drawing.2) [].
Definition mixed_map : list (string * list (IImageMetadata (option N))) :=
  Eval vm_compute in the (resolveImageLocations sax_mixed Number_decimal book_mixed) [].

(** *** The parts of the sheet of the shared drawing *)

Definition shared_sheet : jsval :=
  Eval vm_compute in
    the (_parseMetaXmlToObject sax_shared book_shared "xl/worksheets/sheet1.xml") JNull.
Definition shared_sheet_rels : jsval :=
  Eval vm_compute in
    the (_parseMetaXmlToObject sax_shared book_shared "xl/worksheets/_rels/sheet1.xml.rels")
      JNull.
Definition shared_sheetMap : list (jsval * Sheet) :=
  Eval vm_compute in the (_resolveSheetMap sax_shared book_shared) [].
Definition shared_locations : list (IImageMetadata (option N)) :=
  Eval vm_compute in default [] (props_get "Data" shared_map).

(** What [xml2js] builds of the relationships of the drawing. *)
Definition shared_rels_text : string :=
  Eval vm_compute in
    default "" (_getDataFromWbFile book_shared "xl/drawings/_rels/drawing1.xml.rels").
Definition shared_rels_built : list (string * jsval) :=
  Eval vm_compute in
    match xml2js sax_shared shared_rels_text with
    | Return (Tree (JObject ps)) => ps
    | _ => []
    end.

(** *** The drawing of the scenario *)

Definition sax_scenario := demo_sax parts_scenario.
Definition book_scenario := demo_book ["Data"] parts_scenario image1.
Definition scenario_drawing : jsval * jsval :=
  Eval vm_compute in
    default (JNull, JNull)
      (the (_resolveDrawing sax_scenario book_scenario (JString "1")) None).
Definition scenario_anchors : list jsval :=
  Eval vm_compute in the (image_anchors scenario_drawing.1) [].
Definition scenario_parsed : list (jsval * IImageAnchor (option N)) :=
  Eval vm_compute in the (forM (read_anchor Number_decimal) scenario_anchors) [].

(** *** A worksheet without a drawing *)

Definition x_sheet_plain : xml_node := el "worksheet" [] [el "sheetData" [] []].

Definition parts_plain : list (string * xml_node) :=
  [("xl/workbook.xml", x_workbook [("Data", "1")]);
   ("xl/worksheets/sheet1.xml", x_sheet_plain)].

Definition sax_plain := demo_sax parts_plain.
Definition book_plain := demo_book ["Data"] parts_plain [].

(** *** A sheet name that [xl/workbook.xml] does not declare *)

Definition book_other := demo_book ["Data"; "Other"] parts_plain [].

(** *** A sheet named by a number *)

Definition parts_numbered : list (string * xml_node) :=
  [("xl/workbook.xml", x_workbook [("Data", "1"); ("2024", "2")]);
   ("xl/worksheets/sheet1.xml", x_sheet_plain);
   ("xl/worksheets/sheet2.xml", x_sheet_plain)].

Definition sax_numbered := demo_sax parts_numbered.
Definition book_numbered := demo_book ["Data"; "2024"] parts_numbered [].
Definition numbered_sheetMap : list (jsval * Sheet) :=
  Eval vm_compute in the (_resolveSheetMap sax_numbered book_numbered) [].

(** *** A [sheetId] that numbers no worksheet part *)

(** The workbook declares the sheet with [sheetId] 3; its worksheet is
    the part [sheet1.xml]. *)
Definition parts_renumbered : list (string * xml_node) :=
  [("xl/workbook.xml", x_workbook [("Data", "3")]);
   ("xl/worksheets/sheet1.xml", x_sheet_plain)].

Definition sax_renumbered := demo_sax parts_renumbered.
Definition book_renumbered := demo_book ["Data"] parts_renumbered [].

(** *** A target written from the root of the package *)

Definition parts_absolute : list (string * xml_node) :=
  (sheet_parts "rId1" [x_rel "rId1" "/xl/drawings/drawing1.xml"] ++
   drawing_parts [x_two "rId1" "1" "2" "3" "4"] [x_rel "rId1" "../media/image1.png"])%list.

Definition sax_absolute := demo_sax parts_absolute.
Definition book_absolute := demo_book ["Data"] parts_absolute image1.
Definition absolute_sheet : jsval :=
  Eval vm_compute in
    the (_parseMetaXmlToObject sax_absolute book_absolute "xl/worksheets/sheet1.xml") JNull.
Definition absolute_sheet_rels : jsval :=
  Eval vm_compute in
    the (_parseMetaXmlToObject sax_absolute book_absolute
           "xl/worksheets/_rels/sheet1.xml.rels") JNull.
Definition absolute_drawing_rels : jsval :=
  Eval vm_compute in
    the (_parseMetaXmlToObject sax_absolute book_absolute
           "xl/drawings/_rels/drawing1.xml.rels") JNull.

(** *** A drawing with a chart *)

Definition x_chart (c1 r1 c2 r2 : string) : xml_node :=
  el "xdr:twoCellAnchor" []
    [x_pair "xdr:from" c1 r1; x_pair "xdr:to" c2 r2;
     el "xdr:graphicFrame" [] [el "xdr:nvGraphicFramePr" [] []];
     el "xdr:clientData" [] []].

Definition parts_chart : list (string * xml_node) :=
  one_sheet [x_rel "rId1" "../drawings/drawing1.xml"]
            [x_two "rId1" "1" "2" "3" "4"; x_chart "5" "6" "7" "8"]
            [x_rel "rId1" "../media/image1.png"].

Definition sax_chart := demo_sax parts_chart.
Definition book_chart := demo_book ["Data"] parts_chart image1.
Definition chart_drawing : jsval * jsval :=
  Eval vm_compute in
    default (JNull, JNull) (the (_resolveDrawing sax_chart book_chart (JString "1")) None).
Definition chart_anchors : list jsval :=
  Eval vm_compute in the (image_anchors chart_drawing.1) [].

(** *** A workbook part that is no document *)


(** *** Callbacks and readers *)

(** A callback that resolves once and rejects from then on; its state
    counts its calls. *)
Definition upload_once (st : nat) (file : option File) (c : cell (option N))
  : completion string * nat :=
  match st with
  | O => (Return "https://cdn/1.png", 1)
  | S _ => (Throw (Error "upload failed"), S st)
  end.

(** A worksheet with a title in each of its first two cells, and the
    shared package with that worksheet. *)
Definition titled_sheet : demo_sheet :=
  {| sheet_ref := Some ((0, 0), (0, 1));
     sheet_cells := {[ (0, 0) := "name"; (0, 1) := "photo" ]} |}.

Definition book_titled : WorkBook demo_sheet :=
  {| SheetNames := ["Data"];
     Sheets := {[ "Data" := titled_sheet ]};
     files := demo_files parts_shared image12 |}.

(** A reader that knows two files. *)
Definition demo_read (buffer : string) : completion (WorkBook demo_sheet) :=
  if String.eqb buffer "shared.xlsx" then Return book_shared
  else if String.eqb buffer "titled.xlsx" then Return book_titled
  else Throw (Error "unsupported file").

(** The grid after the three images of the shared drawing are rewritten
    with [log_url]. *)
Definition shared_rewritten : demo_grid * list (option File * cell (option N)) :=
  Eval vm_compute in
    match transform_locations key_decimal (resolving log_url) shared_locations new_array [] with
    | (Return data, st) => (data, st)
    | (Throw _, st) => (new_array, st)
    end.

(** * Tactics *)

(** Case analysis on the next property read of the goal; a read that
    throws closes a goal about the exception thrown. *)
Ltac step_get :=
  let close Hget v :=
    try (let Heq := fresh in
         intros Heq; injection Heq as <-; revert Hget; unfold get; destruct v; congruence) in
  match goal with
  | |- mbind _ (get ?v ?k) = _ → _ =>
      let Hget := fresh "Hget" in
      destruct (get v k) eqn:Hget; cbn; [| close Hget v]
  | |- get ?v ?k = _ → _ =>
      let Hget := fresh "Hget" in
      destruct (get v k) eqn:Hget; cbn; [| close Hget v]
  end.

(** Evaluation of a closed equation. *)
Ltac run := vm_compute; reflexivity.

(** One case for each member of a list written out. *)
Ltac each_in tac :=
  let v := fresh "v" in
  let Hv := fresh "Hv" in
  intros v Hv;
  repeat (apply elem_of_cons in Hv as [->|Hv]; [tac|]);
  inversion Hv.

Ltac each_view := each_in ltac:(vm_compute; discriminate).

(** * Properties *)

(** ** Completions *)

Lemma bind_Return {A B} (m : completion A) (f : A → completion B) (b : B) :
  m ≫= f = Return b → ∃ a, m = Return a ∧ f a = Return b.
Proof. destruct m as [a|e]; [eauto | discriminate]. Qed.

Lemma Return_bind {A B} (a : A) (f : A → completion B) : Return a ≫= f = f a.
Proof. reflexivity. Qed.

Lemma forM_app {A B} (f : A → completion B) (l1 l2 : list A) :
  forM f (l1 ++ l2)%list = ys1 ← forM f l1; ys2 ← forM f l2; Return (ys1 ++ ys2)%list.
Proof.
  induction l1 as [|x l1 IH]; cbn.
  - destruct (forM f l2); reflexivity.
  - destruct (f x) as [y|e]; cbn; [|reflexivity].
    rewrite IH. destruct (forM f l1); cbn; [|reflexivity].
    destruct (forM f l2); reflexivity.
Qed.

Lemma forM_Forall2 {A B} (f : A → completion B) (l : list A) (ys : list B) :
  Forall2 (λ x y, f x = Return y) l ys → forM f l = Return ys.
Proof.
  induction 1 as [|x y l ys Hx _ IH]; cbn; [reflexivity|].
  rewrite Hx; cbn. rewrite IH. reflexivity.
Qed.

(** ** Values *)

(** The engine throws nothing but [TypeError] on the reads and calls of
    the model. *)
Lemma get_throws v k e : get v k = Throw e → e = TypeError.
Proof. destruct v; cbn; congruence. Qed.

Lemma get_own v k x : get v k = Return x → x = own v k.
Proof. unfold own. intros ->. reflexivity. Qed.

Lemma get_defined v k : nullish v = false → get v k = Return (own v k).
Proof. unfold own. destruct v; cbn; congruence. Qed.

Lemma truthy_defined v : truthy v = true → nullish v = false.
Proof. destruct v; cbn; congruence. Qed.

Lemma get_Return_defined v k x : get v k = Return x → nullish v = false.
Proof. destruct v; cbn; congruence. Qed.

Lemma elements_throws v e : elements v = Throw e → e = TypeError.
Proof. destruct v; cbn; congruence. Qed.

Lemma js_concat_throws a b e : js_concat a b = Throw e → e = TypeError.
Proof. destruct a; cbn; congruence. Qed.

Lemma as_string_throws v e : as_string v = Throw e → e = TypeError.
Proof. destruct v; cbn; congruence. Qed.

(** ** Maps *)

Lemma same_value_zero_trans a b c :
  same_value_zero a b = true → same_value_zero a c = same_value_zero b c.
Proof.
  destruct a, b; cbn; try discriminate; try reflexivity.
  intros ->%String.eqb_eq. reflexivity.
Qed.

Lemma map_get_map_set {V} (k id : jsval) (v : V) (m : list (jsval * V)) :
  map_get id (map_set k v m) = if same_value_zero k id then Some v else map_get id m.
Proof.
  induction m as [|[k' v'] m IH]; cbn.
  - reflexivity.
  - destruct (same_value_zero k' k) eqn:Hk; cbn.
    + rewrite (same_value_zero_trans _ _ id Hk). destruct (same_value_zero k id); reflexivity.
    + rewrite IH. destruct (same_value_zero k' id) eqn:Hk'; [|reflexivity].
      destruct (same_value_zero k id) eqn:Hid; [|reflexivity].
      exfalso. destruct k', k, id; cbn in *; try discriminate.
      apply String.eqb_eq in Hk', Hid. subst.
      rewrite String.eqb_refl in Hk. discriminate.
Qed.

(** ** The depth of the merge *)

Lemma height_props ps (p : string * jsval) :
  p ∈ ps → (height p.2 ≤ foldr (λ p h, height p.2 `max` h) 0 ps)%nat.
Proof.
  induction ps as [|q ps IH]; [inversion 1|].
  intros [->|Hin]%elem_of_cons; cbn; [lia|]. specialize (IH Hin). lia.
Qed.

Lemma height_items l (x : jsval) :
  x ∈ l → (height x ≤ foldr (λ x h, height x `max` h) 0 l)%nat.
Proof.
  induction l as [|y l IH]; [inversion 1|].
  intros [->|Hin]%elem_of_cons; cbn; [lia|]. specialize (IH Hin). lia.
Qed.

Lemma below_height v : below (height v) v.
Proof.
  destruct v as [| |s|ps|l]; cbn; try exact I.
  - apply Forall_forall. intros p Hp. apply height_props in Hp. lia.
  - apply Forall_forall. intros x Hx. apply height_items in Hx. lia.
Qed.

Lemma height_below H v : (0 < H)%nat → below H v → (height v ≤ H)%nat.
Proof.
  intros HH. destruct v as [| |s|ps|l]; cbn; try lia.
  - induction 1 as [|p ps Hp _ IH]; cbn in *; lia.
  - induction 1 as [|x l Hx _ IH]; cbn in *; lia.
Qed.

Lemma props_get_elem {A} k (ps : list (string * A)) x :
  props_get k ps = Some x → (k, x) ∈ ps.
Proof.
  induction ps as [|[k' v] ps IH]; cbn; [discriminate|].
  destruct (String.eqb k k') eqn:Hk.
  - apply String.eqb_eq in Hk. intros [= ->]. subst. left.
  - intros H. right. apply IH. exact H.
Qed.

Lemma char_at_height s i : height (char_at s i) = 0.
Proof. unfold char_at. destruct (String.get i s); reflexivity. Qed.

Lemma own_below H v k : (0 < H)%nat → below H v → (height (own v k) < H)%nat.
Proof.
  intros HH Hv. unfold own. destruct v as [| |s|ps|l]; cbn; try exact HH.
  - destruct (array_index k); [rewrite char_at_height|]; exact HH.
  - destruct (props_get k ps) as [x|] eqn:Hx; cbn; [|exact HH].
    apply props_get_elem in Hx. cbn in Hv. rewrite Forall_forall in Hv.
    apply (Hv _ Hx).
  - destruct (array_index k) as [i|]; [|exact HH].
    destruct (l !! i) as [x|] eqn:Hx; cbn; [|exact HH].
    cbn in Hv. rewrite Forall_forall in Hv. apply Hv.
    eapply list_elem_of_lookup_2. exact Hx.
Qed.

Lemma own_object_positive v k : is_object (own v k) = true → (0 < height v)%nat.
Proof.
  unfold own. destruct v as [| |s|ps|l]; cbn; try discriminate; try lia.
  destruct (array_index k); [|discriminate].
  unfold char_at. destruct (String.get _ s); discriminate.
Qed.

Lemma props_set_Forall {A} (P : string * A → Prop) k x ps :
  P (k, x) → Forall P ps → Forall P (props_set k x ps).
Proof.
  intros Hx. induction 1 as [|[k' v'] ps Hp Hps IH]; cbn.
  - repeat constructor. exact Hx.
  - destruct (String.eqb k k'); [constructor; assumption|].
    destruct (key_before k k'); repeat constructor; assumption.
Qed.

Lemma put_below H o k x : below H o → (height x < H)%nat → below H (put o k x).
Proof.
  intros Ho Hx. destruct o as [| |s|ps|l]; cbn; try exact I.
  - apply props_set_Forall; assumption.
  - destruct (array_index k) as [i|]; [|exact Ho]. cbn.
    apply Forall_insert; assumption.
Qed.

Lemma entries_height src k x : (k, x) ∈ entries src → (height x < S (height src))%nat.
Proof.
  destruct src as [| |s|ps|l]; cbn; try (inversion 1; fail).
  - intros Hin. apply list_elem_of_fmap in Hin as (i & [= _ ->] & _).
    rewrite char_at_height. lia.
  - intros Hin. apply height_props in Hin. cbn in Hin. lia.
  - intros Hin. apply elem_of_lookup_imap in Hin as (i & y & [= _ ->] & Hy).
    apply list_elem_of_lookup_2, height_items in Hy. lia.
Qed.

Lemma assign_below H o src : below H o → (height src < H)%nat → below H (assign o src).
Proof.
  intros Ho Hsrc. unfold assign.
  assert (∀ p, p ∈ entries src → (height p.2 < H)%nat) as Hall.
  { intros [k x] Hin. apply entries_height in Hin. cbn. lia. }
  revert o Ho. induction (entries src) as [|p ps IH]; intros o Ho; cbn; [exact Ho|].
  apply IH.
  - intros q Hq. apply Hall. right. exact Hq.
  - apply put_below; [exact Ho|]. apply Hall. left.
Qed.

Lemma remove_below H o k : below H o → below H (remove o k).
Proof.
  destruct o as [| |s|ps|l]; cbn; try (intros; exact I); try (intros H'; exact H').
  intros Hps. unfold props_delete. rewrite Forall_forall in *.
  intros p [_ Hp]%list_elem_of_filter. apply Hps. exact Hp.
Qed.

(** Two inner calls that agree below [H], and whose results are no higher
    than their arguments, give the same step on a key. *)
Lemma merge_key_step (inner1 inner2 : jsval → completion (jsval * option jsval))
    (H : nat) obj aliased hasParent state k :
  (∀ v, is_object v = true → (height v < H)%nat →
        inner1 v = inner2 v ∧
        ∀ c t, inner1 v = Return (c, t) → (height (default c t) ≤ height v)%nat) →
  (aliased = false → below H obj) →
  merge_inv H aliased state →
  merge_key inner1 obj aliased hasParent state k
  = merge_key inner2 obj aliased hasParent state k ∧
  ∀ state', merge_key inner1 obj aliased hasParent state k = Return state' →
            merge_inv H aliased state'.
Proof.
  intros Hinner Hobj Hinv. destruct state as [cur moved]. unfold merge_key.
  set (src := if aliased then cur else obj).
  assert (aliased = true → (height (own src k) < H)%nat) as Hread.
  { intros Ha. destruct (Hinv Ha) as (HH & Hc & _). subst src. rewrite Ha.
    apply own_below; assumption. }
  assert (is_object (own src k) = true → (height (own src k) < H)%nat) as Hattrs.
  { intros Hobject. destruct aliased eqn:Ha; [apply Hread; reflexivity|].
    subst src. pose proof (own_object_positive _ _ Hobject) as Hpos.
    specialize (Hobj eq_refl). apply own_below; [|exact Hobj].
    destruct obj as [| |s|ps|l]; cbn in Hpos, Hobj; try lia.
    - destruct ps as [|p ps]; [cbn in Hobject; discriminate|].
      inversion Hobj; subst. lia.
    - destruct l as [|x l]; [|inversion Hobj; subst; lia].
      unfold own in Hobject. cbn in Hobject.
      destruct (array_index k) as [[|i]|]; discriminate. }
  destruct (String.eqb k attributesKey).
  { split; [reflexivity|]. intros state' [= <-] Ha.
    destruct (Hinv Ha) as (HH & Hc & Hm). split; [exact HH|]. split; [|exact Hm].
    cbn. apply remove_below, assign_below; [exact Hc | apply Hread; exact Ha]. }
  destruct (String.eqb k textKey).
  { split; [reflexivity|]. intros state' [= <-] Ha.
    destruct (Hinv Ha) as (HH & Hc & Hm). split; [exact HH|]. split; [exact Hc|].
    cbn. destruct hasParent; [|exact Hm]. intros x [= <-]. apply Hread. exact Ha. }
  destruct (is_object (own src k)) eqn:Hobject.
  - destruct (Hinner _ Hobject (Hattrs eq_refl)) as [Heq Hres]. rewrite <- Heq.
    split; [reflexivity|].
    destruct (inner1 (own src k)) as [[child text]|e]; cbn; [|discriminate].
    intros state' [= <-] Ha. destruct (Hinv Ha) as (HH & Hc & Hm).
    split; [exact HH|]. split; [|exact Hm]. cbn.
    specialize (Hres _ _ eq_refl). specialize (Hattrs eq_refl).
    apply put_below; [apply put_below; [exact Hc | exact Hattrs]|]. lia.
  - split; [reflexivity|]. intros state' [= <-] Ha.
    destruct (Hinv Ha) as (HH & Hc & Hm). split; [exact HH|]. split; [|exact Hm].
    cbn. apply put_below; [exact Hc | apply Hread; exact Ha].
Qed.

Lemma merge_key_loop (inner1 inner2 : jsval → completion (jsval * option jsval))
    (H : nat) obj aliased hasParent :
  (∀ v, is_object v = true → (height v < H)%nat →
        inner1 v = inner2 v ∧
        ∀ c t, inner1 v = Return (c, t) → (height (default c t) ≤ height v)%nat) →
  (aliased = false → below H obj) →
  ∀ ks state,
    merge_inv H aliased state →
    foldM (merge_key inner1 obj aliased hasParent) ks state
    = foldM (merge_key inner2 obj aliased hasParent) ks state ∧
    ∀ state', foldM (merge_key inner1 obj aliased hasParent) ks state = Return state' →
              merge_inv H aliased state'.
Proof.
  intros Hinner Hobj. induction ks as [|k ks IH]; intros state Hinv; cbn [foldM].
  - split; [reflexivity|]. intros state' [= <-]. exact Hinv.
  - destruct (merge_key_step inner1 inner2 H obj aliased hasParent state k Hinner Hobj Hinv)
      as [Heq Hnext].
    rewrite <- Heq.
    destruct (merge_key inner1 obj aliased hasParent state k) as [state1|e];
      cbn [mbind completion_bind].
    + apply IH. apply Hnext. reflexivity.
    + split; [reflexivity | discriminate].
Qed.

Lemma mergeAttrAndText_inner n :
  ∀ m v, (height v < n)%nat → (height v < m)%nat → is_object v = true →
    _mergeAttrAndText n v v true true = _mergeAttrAndText m v v true true ∧
    ∀ c t, _mergeAttrAndText n v v true true = Return (c, t) →
           (height (default c t) ≤ height v)%nat.
Proof.
  induction n as [|n IH]; intros m v Hn Hm Hv; [lia|].
  destruct m as [|m]; [lia|]. cbn [_mergeAttrAndText].
  destruct (keys v) as [ks|e] eqn:Hks; cbn [mbind completion_bind];
    [|split; [reflexivity | discriminate]].
  assert (0 < height v)%nat as Hpos by (destruct v; cbn in *; try discriminate; lia).
  destruct (merge_key_loop (λ attrs, _mergeAttrAndText n attrs attrs true true)
              (λ attrs, _mergeAttrAndText m attrs attrs true true)
              (height v) v true true) with (ks := ks) (state := (v, @None jsval))
    as [Heq Hres].
  - intros u Hu Hlt. apply IH; [lia | lia | exact Hu].
  - discriminate.
  - intros _. split; [exact Hpos|]. split; [apply below_height | discriminate].
  - split; [exact Heq|]. intros c t Hrun.
    destruct (Hres _ Hrun eq_refl) as (_ & Hc & Ht). cbn in Hc, Ht.
    destruct t as [x|]; cbn.
    + specialize (Ht x eq_refl). lia.
    + apply height_below; assumption.
Qed.

(** Any fuel above the height of the object gives the same merge. *)
Lemma mergeAttrAndText_fuel n m obj newObj :
  (height obj < n)%nat → (height obj < m)%nat →
  _mergeAttrAndText n obj newObj false false = _mergeAttrAndText m obj newObj false false.
Proof.
  intros Hn Hm. destruct n as [|n]; [lia|]. destruct m as [|m]; [lia|].
  cbn [_mergeAttrAndText].
  destruct (keys obj) as [ks|e]; cbn [mbind completion_bind]; [|reflexivity].
  apply (merge_key_loop (λ attrs, _mergeAttrAndText n attrs attrs true true)
           (λ attrs, _mergeAttrAndText m attrs attrs true true) (height obj) obj false false).
  - intros u Hu Hlt. apply mergeAttrAndText_inner; [lia | lia | exact Hu].
  - intros _. apply below_height.
  - discriminate.
Qed.

(** [_xml2Obj] is the merge of the whole object: its fuel is enough. *)
Lemma xml2Obj_fuel (sax : string → completion report) xml obj n :
  xml2js sax xml = Return (Tree obj) → (height obj < n)%nat →
  _xml2Obj sax xml = (r ← _mergeAttrAndText n obj (JObject []) false false; Return r.1).
Proof.
  intros Hobj Hn. unfold _xml2Obj. rewrite Hobj. cbn [mbind completion_bind].
  rewrite (mergeAttrAndText_fuel (S (height obj)) n) by lia. reflexivity.
Qed.

(** ** The anchors of a drawing *)

Section Anchors.
Context {number : Type}.
Variable Number : jsval → number.

Lemma anchors_of_cons id aid a (parsed : list (jsval * IImageAnchor number)) :
  anchors_of id ((aid, a) :: parsed) =
  if same_value_zero aid id then a :: anchors_of id parsed else anchors_of id parsed.
Proof.
  unfold anchors_of. rewrite filter_cons. cbn.
  destruct (same_value_zero aid id); cbn; [|reflexivity].
  case_decide; [reflexivity | exfalso; auto].
Qed.

Lemma embed_id_throws anchor e : embed_id anchor = Throw e → e = TypeError.
Proof.
  unfold embed_id.
  repeat step_get.
  discriminate.
Qed.

Lemma read_anchor_throws anchor e : read_anchor Number anchor = Throw e → e = TypeError.
Proof.
  unfold read_anchor.
  destruct (embed_id anchor) eqn:Hid; cbn; [| apply embed_id_throws in Hid; congruence].
  repeat step_get.
  discriminate.
Qed.

Lemma add_anchor_Return m anchor aid a :
  read_anchor Number anchor = Return (aid, a) →
  add_anchor Number m anchor =
    Return (map_set aid (default [] (map_get aid m) ++ [a])%list m).
Proof. intros H. unfold add_anchor. rewrite H. reflexivity. Qed.

Lemma add_anchor_throws m anchor e : add_anchor Number m anchor = Throw e → e = TypeError.
Proof.
  unfold add_anchor.
  destruct (read_anchor Number anchor) as [[id a]|e'] eqn:H; cbn; [discriminate|].
  apply read_anchor_throws in H. congruence.
Qed.

Lemma foldM_add_anchor_throws anchors m e :
  foldM (add_anchor Number) anchors m = Throw e → e = TypeError.
Proof.
  revert m. induction anchors as [|a anchors IH]; intros m; cbn; [discriminate|].
  destruct (add_anchor Number m a) eqn:H; cbn; [apply IH|].
  apply add_anchor_throws in H. congruence.
Qed.

Lemma image_anchors_throws dx e : image_anchors dx = Throw e → e = TypeError.
Proof.
  unfold image_anchors.
  repeat step_get.
  destruct (js_concat _ _) eqn:H; cbn; [apply elements_throws|].
  apply js_concat_throws in H. congruence.
Qed.

Lemma map_get_same {V} (a b : jsval) (m : list (jsval * V)) :
  same_value_zero a b = true → map_get a m = map_get b m.
Proof.
  intros Hab. induction m as [|[k v] m IH]; cbn; [reflexivity|].
  assert (same_value_zero k a = same_value_zero k b) as ->.
  { destruct k, a, b; cbn in *; try discriminate; try reflexivity.
    apply String.eqb_eq in Hab. subst. reflexivity. }
  rewrite IH. reflexivity.
Qed.

(** The [Map] the [forEach] builds: under each id, the anchors that
    reference it, in anchor-list order. *)
Lemma foldM_add_anchor anchors parsed m0 :
  forM (read_anchor Number) anchors = Return parsed →
  ∃ m, foldM (add_anchor Number) anchors m0 = Return m ∧
    ∀ rid, map_get rid m =
          match anchors_of rid parsed with
          | [] => map_get rid m0
          | l => Some (default [] (map_get rid m0) ++ l)%list
          end.
Proof.
  revert parsed m0. induction anchors as [|a anchors IH]; intros parsed m0; cbn.
  - intros [= <-]. exists m0. split; [reflexivity|]. intros rid. reflexivity.
  - destruct (read_anchor Number a) as [[aid x]|] eqn:Ha; cbn; [|discriminate].
    destruct (forM (read_anchor Number) anchors) as [rest|] eqn:Hrest; cbn; [|discriminate].
    intros [= <-].
    destruct (IH rest (map_set aid (default [] (map_get aid m0) ++ [x])%list m0) eq_refl)
      as (m & Hm & Hget).
    exists m. split; [rewrite (add_anchor_Return _ _ _ _ Ha); exact Hm|]. intros rid.
    rewrite Hget, anchors_of_cons, map_get_map_set.
    destruct (same_value_zero aid rid) eqn:Hid.
    + rewrite (map_get_same aid rid m0 Hid). cbn.
      destruct (anchors_of rid rest); [reflexivity|].
      rewrite <- app_assoc. reflexivity.
    + reflexivity.
Qed.

Lemma forM_read_anchor_fails anchors e m0 :
  forM (read_anchor Number) anchors = Throw e →
  foldM (add_anchor Number) anchors m0 = Throw TypeError.
Proof.
  revert e m0. induction anchors as [|a anchors IH]; intros e m0; cbn; [discriminate|].
  destruct (read_anchor Number a) as [[aid x]|e'] eqn:Ha; cbn.
  - rewrite (add_anchor_Return _ _ _ _ Ha). cbn.
    destruct (forM (read_anchor Number) anchors) as [|e''] eqn:Hrest; cbn; [discriminate|].
    intros _. apply (IH e''). reflexivity.
  - intros _. unfold add_anchor. rewrite Ha. cbn.
    apply read_anchor_throws in Ha. congruence.
Qed.

(** C5.  An anchor whose picture names a relationship id and which
    declares a [from] pair is read as that id with [from] taken from the
    [from] pair, and with [to] taken from the [to] pair when one is
    declared (a two-cell anchor) and from the [from] pair otherwise (a
    one-cell anchor), so that then [to = from]. *)
Theorem read_anchor_corners (anchor id xfrom : jsval) :
  embed_id anchor = Return id →
  get anchor "xdr:from" = Return xfrom →
  nullish xfrom = false →
  read_anchor Number anchor =
    Return (id, {| anchor_from := corner Number xfrom;
                   anchor_to := if truthy (own anchor "xdr:to")
                                then corner Number (own anchor "xdr:to")
                                else corner Number xfrom |}).
Proof.
  intros Hid Hfrom Hdef. unfold read_anchor. rewrite Hid. cbn.
  rewrite Hfrom. cbn.
  rewrite (get_defined xfrom "xdr:row" Hdef), (get_defined xfrom "xdr:col" Hdef). cbn.
  pose proof (get_Return_defined _ _ _ Hfrom) as Ha.
  rewrite (get_defined anchor "xdr:to" Ha). cbn.
  destruct (truthy (own anchor "xdr:to")) eqn:Hto; cbn.
  - change ("xdr:" +:+ "to") with "xdr:to".
    rewrite (get_defined anchor "xdr:to" Ha). cbn.
    rewrite !(get_defined _ _ (truthy_defined _ Hto)). cbn. reflexivity.
  - change ("xdr:" +:+ "from") with "xdr:from".
    rewrite Hfrom. cbn.
    rewrite (get_defined xfrom "xdr:row" Hdef), (get_defined xfrom "xdr:col" Hdef).
    reflexivity.
Qed.
End Anchors.

(** ** The images of a sheet *)

Section SheetImages.
Context {worksheet number : Type}.
Variable sax : string → completion report.
Variable Number : jsval → number.
Variable wb : WorkBook worksheet.

Lemma relationship_images_spec m (parsed : list (jsval * IImageAnchor number)) r v :
  (∀ rid, map_get rid m = match anchors_of rid parsed with [] => None | l => Some l end) →
  is_relationship r v →
  relationship_images wb m r = images_of wb parsed v.
Proof.
  intros Hm [HId HTarget]. unfold relationship_images, images_of.
  rewrite HId. cbn. rewrite HTarget. cbn. rewrite Hm.
  destruct (anchors_of v.1 parsed); reflexivity.
Qed.

Lemma drawing_images_spec dx dr anchors parsed rels views :
  image_anchors dx = Return anchors →
  forM (read_anchor Number) anchors = Return parsed →
  relationships_of dr = Return rels →
  Forall2 is_relationship rels views →
  drawing_images Number wb dx dr =
    (l ← forM (images_of wb parsed) views; Return (List.concat l)).
Proof.
  intros Ha Hp Hr Hv. unfold drawing_images. rewrite Ha. cbn.
  destruct (foldM_add_anchor Number anchors parsed [] Hp) as (m & -> & Hm). cbn.
  rewrite Hr. cbn. clear Hr.
  assert (forM (relationship_images wb m) rels = forM (images_of wb parsed) views) as ->;
    [|reflexivity].
  induction Hv as [|r v rels views Hrv _ IH]; cbn; [reflexivity|].
  rewrite (relationship_images_spec m parsed r v); [|intros rid; rewrite Hm|exact Hrv].
  - rewrite IH. reflexivity.
  - destruct (anchors_of rid parsed); reflexivity.
Qed.

Lemma resolveSheetImages_spec sheetId dx dr anchors parsed rels views :
  _resolveDrawing sax wb sheetId = Return (Some (dx, dr)) →
  image_anchors dx = Return anchors →
  forM (read_anchor Number) anchors = Return parsed →
  relationships_of dr = Return rels →
  Forall2 is_relationship rels views →
  _resolveSheetImages sax Number wb sheetId =
    (l ← forM (images_of wb parsed) views; Return (List.concat l)).
Proof.
  intros Hd Ha Hp Hr Hv. unfold _resolveSheetImages. rewrite Hd. cbn.
  eapply drawing_images_spec; eassumption.
Qed.

Lemma forM_images_of_all (parsed : list (jsval * IImageAnchor number)) views :
  (∀ v, v ∈ views → anchors_of v.1 parsed ≠ []) →
  forM (images_of wb parsed) views =
    Return (map (λ v, located (media wb v.2) (anchors_of v.1 parsed)) views).
Proof.
  induction views as [|v views IH]; intros Hall; cbn [forM map]; [reflexivity|].
  rewrite IH by (intros v' Hv'; apply Hall; right; exact Hv').
  unfold images_of.
  destruct (anchors_of v.1 parsed) as [|a l] eqn:Hv; [|reflexivity].
  exfalso. apply (Hall v); [left | exact Hv].
Qed.

Lemma forM_images_of_missing (parsed : list (jsval * IImageAnchor number)) views :
  (∃ v, v ∈ views ∧ anchors_of v.1 parsed = []) →
  forM (images_of wb parsed) views = Throw ImageAnchorNotFoundError.
Proof.
  induction views as [|v views IH]; intros (v0 & Hin & Hnone); cbn [forM].
  - inversion Hin.
  - destruct (images_of wb parsed v) as [imgs|e] eqn:Hv.
    + rewrite IH; [reflexivity|].
      exists v0. split; [|exact Hnone].
      apply elem_of_cons in Hin as [->|Hin]; [|exact Hin].
      unfold images_of in Hv. rewrite Hnone in Hv. discriminate.
    + unfold images_of in Hv.
      destruct (anchors_of v.1 parsed); [|discriminate].
      injection Hv as <-. reflexivity.
Qed.

Lemma media_absent target :
  files wb !! ("xl/media/" +:+ basename target) = None → media wb target = None.
Proof.
  intros H. unfold media, _parseMetaImageToFile, _getDataFromWbFile. rewrite H. reflexivity.
Qed.

(** On a sheet whose drawing is located, whose anchors are all read and
    whose relationships each have an id, a target and at least one anchor,
    the images resolved are, relationship by relationship in the order of
    the table, the file of the relationship at each of its anchors. *)
Lemma resolveSheetImages_located sheetId dx dr anchors parsed rels views :
  _resolveDrawing sax wb sheetId = Return (Some (dx, dr)) →
  image_anchors dx = Return anchors →
  forM (read_anchor Number) anchors = Return parsed →
  relationships_of dr = Return rels →
  Forall2 is_relationship rels views →
  (∀ v, v ∈ views → anchors_of v.1 parsed ≠ []) →
  _resolveSheetImages sax Number wb sheetId =
    Return (List.concat (map (λ v, located (media wb v.2) (anchors_of v.1 parsed)) views)).
Proof.
  intros Hd Ha Hp Hr Hv Hall.
  rewrite (resolveSheetImages_spec _ _ _ _ _ _ _ Hd Ha Hp Hr Hv).
  rewrite (forM_images_of_all _ _ Hall). reflexivity.
Qed.

(** When the relationships are all resolved, each has contributed the
    file of its target at each of its anchors. *)
Lemma forM_images_of_Return (parsed : list (jsval * IImageAnchor number)) views l :
  forM (images_of wb parsed) views = Return l →
  l = map (λ v, located (media wb v.2) (anchors_of v.1 parsed)) views.
Proof.
  revert l. induction views as [|v views IH]; intros l; cbn [forM map].
  - intros [= <-]. reflexivity.
  - destruct (images_of wb parsed v) as [imgs|e] eqn:Himgs; cbn [mbind completion_bind];
      [|discriminate].
    destruct (forM (images_of wb parsed) views) as [l'|]; cbn [mbind completion_bind];
      [|discriminate].
    intros [= <-]. rewrite <- (IH l' eq_refl). f_equal.
    unfold images_of in Himgs. destruct (anchors_of v.1 parsed); [discriminate|].
    injection Himgs as <-. reflexivity.
Qed.
End SheetImages.

(** ** Parts that are missing *)

Section MissingParts.
Context {worksheet number : Type}.
Variable sax : string → completion report.
Variable Number : jsval → number.
Variable wb : WorkBook worksheet.

Lemma parse_absent path :
  files wb !! path = None → _parseMetaXmlToObject sax wb path = Return JNull.
Proof.
  intros H. unfold _parseMetaXmlToObject, _getDataFromWbFile. rewrite H. reflexivity.
Qed.

Lemma drawing_images_null dx dr :
  dx = JNull ∨ dr = JNull → drawing_images Number wb dx dr = Throw TypeError.
Proof.
  intros [-> | ->]; [reflexivity|]. unfold drawing_images.
  destruct (image_anchors dx) as [anchors|e] eqn:Ha; cbn.
  - destruct (foldM (add_anchor Number) anchors []) as [m|e] eqn:Hm; cbn; [reflexivity|].
    apply foldM_add_anchor_throws in Hm. congruence.
  - apply image_anchors_throws in Ha. congruence.
Qed.

(** C2, as the program has it.  On a worksheet that declares a drawing:
    when the relationship table of the worksheet is absent from the
    package, the sheet resolves to an empty list of images; when the
    locator returns the two parts of the drawing and one of them is
    [null], which is what reading an absent part gives, the resolution
    of the sheet fails with a [TypeError]. *)
Theorem resolveSheetImages_missing_part sheetId sheetXmlObj ws drawing :
  _parseMetaXmlToObject sax wb ("xl/worksheets/sheet" +:+ js_to_string sheetId +:+ ".xml")
    = Return sheetXmlObj →
  get sheetXmlObj "worksheet" = Return ws →
  get ws "drawing" = Return drawing →
  truthy drawing = true →
  (files wb !! ("xl/worksheets/_rels/sheet" +:+ js_to_string sheetId +:+ ".xml.rels") = None →
   _resolveSheetImages sax Number wb sheetId = Return []) ∧
  (∀ dx dr,
     _resolveDrawing sax wb sheetId = Return (Some (dx, dr)) →
     dx = JNull ∨ dr = JNull →
     _resolveSheetImages sax Number wb sheetId = Throw TypeError) ∧
  (∀ path, files wb !! path = None → _parseMetaXmlToObject sax wb path = Return JNull).
Proof.
  intros Hsheet Hws Hdrawing Htruthy. split; [|split].
  - intros Habsent. unfold _resolveSheetImages, _resolveDrawing.
    rewrite Hsheet. cbn. rewrite Hws. cbn. rewrite Hdrawing. cbn.
    rewrite Htruthy. cbn.
    rewrite (get_defined drawing "r:id" (truthy_defined _ Htruthy)). cbn.
    rewrite (parse_absent _ Habsent). reflexivity.
  - intros dx dr Hd Hnull. unfold _resolveSheetImages. rewrite Hd. cbn.
    apply drawing_images_null. exact Hnull.
  - apply parse_absent.
Qed.
End MissingParts.

(** ** The enumeration order of an object *)

Lemma key_before_asym k k' : key_before k k' = true → key_before k' k = false.
Proof.
  unfold key_before. destruct (array_index k), (array_index k'); try discriminate; auto.
  intros H%Nat.ltb_lt. apply Nat.ltb_ge. lia.
Qed.

Lemma key_before_trans a b c :
  key_before a b = true → key_before b c = true → key_before a c = true.
Proof.
  unfold key_before.
  destruct (array_index a), (array_index b), (array_index c); try discriminate; auto.
  intros H1%Nat.ltb_lt H2%Nat.ltb_lt. apply Nat.ltb_lt. lia.
Qed.

Lemma key_before_irrefl k : key_before k k = false.
Proof.
  unfold key_before. destruct (array_index k); [|reflexivity]. apply Nat.ltb_irrefl.
Qed.

Lemma props_set_keys {A} k (v : A) ps k' :
  k' ∈ (props_set k v ps).*1 → k' = k ∨ k' ∈ ps.*1.
Proof.
  induction ps as [|[k0 v0] ps IH]; cbn.
  - intros ->%list_elem_of_singleton. left. reflexivity.
  - destruct (String.eqb k k0) eqn:Hk; cbn.
    + apply String.eqb_eq in Hk. subst. intros H. right. exact H.
    + destruct (key_before k k0); cbn.
      * intros [->|H]%elem_of_cons; [left; reflexivity | right; exact H].
      * intros [->|H]%elem_of_cons; [right; left|].
        destruct (IH H) as [->|H']; [left; reflexivity | right; right; exact H'].
  Qed.

Lemma props_set_enumerated {A} k (v : A) ps :
  enumerated ps.*1 → enumerated (props_set k v ps).*1.
Proof.
  induction ps as [|[k0 v0] ps IH]; cbn.
  - intros _. split; [|exact I]. intros k' H. inversion H.
  - intros [Hhead Htail]. destruct (String.eqb k k0) eqn:Hk; cbn.
    + apply String.eqb_eq in Hk. subst. split; assumption.
    + apply String.eqb_neq in Hk. destruct (key_before k k0) eqn:Hb; cbn.
      * split; [|split; assumption].
        intros k' [->|Hin]%elem_of_cons.
        -- split; [apply key_before_asym; exact Hb | congruence].
        -- destruct (Hhead k' Hin) as [Hk' _]. split.
           ++ destruct (key_before k' k) eqn:Hk'k; [|reflexivity].
              rewrite (key_before_trans _ _ _ Hk'k Hb) in Hk'. discriminate.
           ++ intros ->. congruence.
      * split; [|apply IH; exact Htail].
        intros k' Hin. apply props_set_keys in Hin as [->|Hin].
        -- split; [exact Hb | exact Hk].
        -- apply Hhead. exact Hin.
Qed.

Lemma enumerated_NoDup ks : enumerated ks → NoDup ks.
Proof.
  induction ks as [|k ks IH]; cbn; [constructor|].
  intros [Hhead Htail]. constructor; [|apply IH; exact Htail].
  intros Hin. destruct (Hhead k Hin) as [_ Hne]. congruence.
Qed.

Lemma foldM_invariant {A S} (P : S → Prop) (f : S → A → completion S) l s s' :
  (∀ s x s', f s x = Return s' → P s → P s') →
  foldM f l s = Return s' → P s → P s'.
Proof.
  intros Hstep. revert s. induction l as [|x l IH]; intros s; cbn.
  - intros [= <-]. auto.
  - destruct (f s x) as [s1|] eqn:Hx; cbn; [|discriminate].
    intros H Hs. apply (IH s1 H). eapply Hstep; eassumption.
Qed.

Lemma foldM_app {A S} (f : S → A → completion S) l1 l2 s :
  foldM f (l1 ++ l2)%list s = s1 ← foldM f l1 s; foldM f l2 s1.
Proof.
  revert s. induction l1 as [|x l1 IH]; intros s; cbn; [reflexivity|].
  destruct (f s x); cbn; [apply IH | reflexivity].
Qed.

(** ** Writes to the grid *)

Lemma arr_get_set {A} (a : sparse A) (k : key) (x : A) :
  arr_get (arr_set a k x) k = Some x.
Proof.
  destruct k as [i|n]; cbn.
  - case_decide as Hi.
    + rewrite list_lookup_insert_eq by exact Hi. reflexivity.
    + rewrite lookup_app_r by lia.
      rewrite lookup_app_r by (rewrite length_replicate; lia).
      rewrite length_replicate, Nat.sub_diag. reflexivity.
  - apply lookup_insert_eq.
Qed.

Lemma arr_get_set_other {A} (a : sparse A) (k k' : key) (x : A) :
  k ≠ k' → arr_get (arr_set a k x) k' = arr_get a k'.
Proof.
  intros Hne. destruct k as [i|n], k' as [j|m]; cbn; try reflexivity.
  - assert (i ≠ j) as Hij by congruence.
    case_decide as Hi.
    + rewrite list_lookup_insert_ne by exact Hij. reflexivity.
    + destruct (decide (j < length (slots a))) as [Hj|Hj].
      * rewrite lookup_app_l by exact Hj. reflexivity.
      * rewrite (lookup_ge_None_2 (slots a) j) by lia.
        rewrite lookup_app_r by lia.
        destruct (decide (j < i)) as [Hlt|Hge].
        -- rewrite lookup_app_l by (rewrite length_replicate; lia).
           rewrite lookup_replicate_2 by lia. reflexivity.
        -- rewrite lookup_ge_None_2; [reflexivity|].
           rewrite length_app, length_replicate. cbn. lia.
  - apply lookup_insert_ne. congruence.
Qed.

Lemma arr_set_set {A} (a : sparse A) (k : key) (x y : A) :
  arr_set (arr_set a k x) k y = arr_set a k y.
Proof.
  destruct a as [sl nm]. destruct k as [i|n]; cbn; f_equal.
  - destruct (decide (i < length sl)) as [Hi|Hi].
    + rewrite length_insert. rewrite decide_True by exact Hi.
      apply list_insert_insert_eq.
    + rewrite decide_True by (rewrite !length_app, length_replicate; cbn; lia).
      rewrite (app_assoc sl).
      rewrite insert_app_r_alt by (rewrite length_app, length_replicate; lia).
      rewrite length_app, length_replicate.
      replace (i - (length sl + (i - length sl))) with 0 by lia.
      cbn. rewrite <- app_assoc. reflexivity.
  - apply insert_insert_eq.
Qed.

Section Grid.
Context {number any : Type}.
Variable key_of : number → key.

Lemma write_cell_eq (data : sparse (sparse any)) (c : cell number) (str : any) :
  write_cell key_of data c str =
  arr_set data (key_of (row c))
    (arr_set (default new_array (arr_get data (key_of (row c)))) (key_of (col c)) str).
Proof.
  unfold write_cell. rewrite arr_get_set. apply arr_set_set.
Qed.

(** The string is read back at the cell written. *)
Lemma write_cell_read (data : sparse (sparse any)) (c : cell number) (str : any) :
  cell_get key_of (write_cell key_of data c str) c = Some str.
Proof.
  rewrite write_cell_eq. unfold cell_get. rewrite arr_get_set. cbn. apply arr_get_set.
Qed.

(** Every cell at another position is left as it was. *)
Lemma write_cell_other (data : sparse (sparse any)) (c c' : cell number) (str : any) :
  (key_of (row c'), key_of (col c')) ≠ (key_of (row c), key_of (col c)) →
  cell_get key_of (write_cell key_of data c str) c' = cell_get key_of data c'.
Proof.
  intros Hne. rewrite write_cell_eq. unfold cell_get.
  destruct (decide (key_of (row c) = key_of (row c'))) as [Hr|Hr].
  - rewrite <- Hr, arr_get_set. cbn.
    rewrite arr_get_set_other by congruence.
    destruct (arr_get data (key_of (row c))); [reflexivity|]. cbn.
    destruct (key_of (col c')); [reflexivity | apply lookup_empty].
  - rewrite arr_get_set_other by exact Hr. reflexivity.
Qed.

(** A write at a row index beyond the rows of the grid extends the grid
    up to that index, leaves the rows it had as they were and the rows in
    between as holes, and stores at the index a new row that holds the
    string at the column of the cell. *)
Lemma write_cell_grows (data : sparse (sparse any)) (c : cell number) (str : any) (i : nat) :
  key_of (row c) = Index i →
  (length (slots data) ≤ i)%nat →
  length (slots (write_cell key_of data c str)) = S i ∧
  arr_get (write_cell key_of data c str) (Index i)
    = Some (arr_set new_array (key_of (col c)) str) ∧
  cell_get key_of (write_cell key_of data c str) c = Some str ∧
  (∀ j, (j < length (slots data))%nat →
        slots (write_cell key_of data c str) !! j = slots data !! j) ∧
  (∀ j, (length (slots data) ≤ j < i)%nat →
        arr_get (write_cell key_of data c str) (Index j) = None).
Proof.
  intros Hrow Hlen.
  assert (arr_get data (Index i) = None) as Hnone.
  { cbn. rewrite lookup_ge_None_2 by exact Hlen. reflexivity. }
  split; [|split; [|split; [|split]]].
  - rewrite write_cell_eq, Hrow. cbn.
    rewrite decide_False by lia.
    rewrite !length_app, length_replicate. cbn. lia.
  - rewrite write_cell_eq, Hrow, arr_get_set, Hnone. reflexivity.
  - apply write_cell_read.
  - intros j Hj. rewrite write_cell_eq, Hrow. cbn.
    rewrite decide_False by lia. apply lookup_app_l. exact Hj.
  - intros j Hj. rewrite write_cell_eq, Hrow.
    rewrite arr_get_set_other by (intros [= ->]; lia).
    cbn. rewrite lookup_ge_None_2 by lia. reflexivity.
Qed.
End Grid.

(** ** The rewrite of the cells *)

Section Transform.
Context {worksheet number any St : Type}.
Variable sax : string → completion report.
Variable Number : jsval → number.
Variable key_of : number → key.
Variable sheet_to_json : option worksheet → sparse (sparse any).
Variable sheet_add_aoa : worksheet → sparse (sparse any) → worksheet.

(** C9.  Before [load], [getData] fails with the error of
    [_assertHasLoaded], and [transformImagesToStr], which does not call
    it, fails with a [TypeError] on the resolver that is not there. *)
Theorem transform_before_load
    (cb : St → option File → cell number → completion any * St) (st : St) :
  transformImagesToStr sax Number key_of sheet_to_json sheet_add_aoa cb new_Excel st
    = (Throw TypeError, new_Excel, st) ∧
  TypeError ≠ NotLoadedError ∧
  getData sheet_to_json (@new_Excel worksheet) = Throw NotLoadedError.
Proof. split; [reflexivity|]. split; [discriminate | reflexivity]. Qed.

(** A failure of the resolver is the failure of the transform: no
    callback runs and nothing is written. *)
Lemma transform_resolve_fails
    (cb : St → option File → cell number → completion any * St)
    (this : @Excel worksheet) resolver e st :
  imageResolver this = Some resolver →
  resolveImageLocations sax Number (resolver_workbook resolver) = Throw e →
  transformImagesToStr sax Number key_of sheet_to_json sheet_add_aoa cb this st
    = (Throw e, this, st).
Proof. intros Hr He. unfold transformImagesToStr. rewrite Hr, He. reflexivity. Qed.

(** A callback whose promise always resolves. *)
Variable f : St → option File → cell number → any * St.

(** The rewrite of one sheet, on the variables of the section. *)
#[local] Abbreviation sheet_step := (rewrite_sheet key_of sheet_to_json sheet_add_aoa f).

Lemma transform_locations_resolving locations data st :
  transform_locations key_of (resolving f) locations data st =
  (Return (fold_left (rewrite_step key_of f) locations (data, st)).1,
   (fold_left (rewrite_step key_of f) locations (data, st)).2).
Proof.
  revert data st. induction locations as [|l locations IH]; intros data st; cbn.
  - reflexivity.
  - rewrite IH. reflexivity.
Qed.

Lemma rewrite_step_state locations data st :
  (fold_left (rewrite_step key_of f) locations (data, st)).2
  = state_after f (map (λ l, (file l, from l)) locations) st.
Proof.
  revert data st. induction locations as [|l locations IH]; intros data st; cbn.
  - reflexivity.
  - unfold rewrite_step at 2. cbn. rewrite IH. reflexivity.
Qed.

Lemma rewrite_sheet_Some sheets st name locations sheet :
  sheets !! name = Some sheet →
  sheet_step (sheets, st) (name, locations) =
  (<[name := sheet_add_aoa sheet
               (fold_left (rewrite_step key_of f) locations
                  (sheet_to_json (Some sheet), st)).1]>
     sheets,
   (fold_left (rewrite_step key_of f) locations (sheet_to_json (Some sheet), st)).2).
Proof. intros H. unfold rewrite_sheet. cbn [fst snd]. rewrite H. reflexivity. Qed.

Lemma rewrite_sheet_None sheets st name locations :
  sheets !! name = None → sheet_step (sheets, st) (name, locations) = (sheets, st).
Proof. intros H. unfold rewrite_sheet. cbn [fst snd]. rewrite H. reflexivity. Qed.

Lemma transform_sheets_resolving locationsMap (this : @Excel worksheet) wb st :
  workbook this = Some wb →
  (∀ name, name ∈ locationsMap.*1 → is_Some (Sheets wb !! name)) →
  transform_sheets key_of sheet_to_json sheet_add_aoa (resolving f) locationsMap this st =
  (Return (),
   with_workbook this
     (with_Sheets wb (fold_left sheet_step locationsMap (Sheets wb, st)).1),
   (fold_left sheet_step locationsMap (Sheets wb, st)).2).
Proof.
  revert this wb st.
  induction locationsMap as [|[name locations] rest IH]; intros this wb st Hwb Hall.
  - cbn. destruct this as [w r], wb as [sn sh fl]. cbn in Hwb. subst w. reflexivity.
  - destruct (Hall name) as [sheet Hsheet]; [left|].
    cbn [transform_sheets]. unfold getDataBySheetName. rewrite Hwb.
    rewrite transform_locations_resolving.
    unfold setData, _assertSheetExist. rewrite Hwb, Hsheet. cbn [mbind completion_bind].
    match goal with |- transform_sheets _ _ _ _ _ ?t _ = _ => set (this' := t) end.
    rewrite (IH this' (with_Sheets wb
               (<[name := sheet_add_aoa sheet
                   (fold_left (rewrite_step key_of f) locations
                  (sheet_to_json (Some sheet), st)).1]>
                  (Sheets wb)))).
    + cbn [fold_left]. rewrite (rewrite_sheet_Some _ _ _ _ _ Hsheet). reflexivity.
    + reflexivity.
    + intros n Hn. cbn. apply lookup_insert_is_Some'. right. apply Hall. right. exact Hn.
Qed.

Lemma rewrite_sheet_state locationsMap sheets st :
  (∀ name, name ∈ locationsMap.*1 → is_Some (sheets !! name)) →
  (fold_left sheet_step locationsMap (sheets, st)).2
  = state_after f (callbacks locationsMap) st.
Proof.
  revert sheets st.
  induction locationsMap as [|[name locations] rest IH]; intros sheets st Hall.
  - reflexivity.
  - destruct (Hall name) as [sheet Hsheet]; [left|].
    cbn [fold_left]. rewrite (rewrite_sheet_Some _ _ _ _ _ Hsheet).
    rewrite IH.
    + rewrite rewrite_step_state. unfold callbacks, state_after. cbn [flat_map snd].
      rewrite fold_left_app. reflexivity.
    + intros n Hn. apply lookup_insert_is_Some'. right. apply Hall. right. exact Hn.
Qed.

Lemma rewrite_sheet_untouched locationsMap sheets st name :
  name ∉ locationsMap.*1 →
  (fold_left sheet_step locationsMap (sheets, st)).1 !! name = sheets !! name.
Proof.
  revert sheets st.
  induction locationsMap as [|[n locations] rest IH]; intros sheets st Hnot.
  - reflexivity.
  - cbn [fold_left].
    assert (n ≠ name) as Hne by (intros ->; apply Hnot; left).
    assert (name ∉ rest.*1) as Hrest by (intros H; apply Hnot; right; exact H).
    destruct (sheets !! n) eqn:Hn.
    + rewrite (rewrite_sheet_Some _ _ _ _ _ Hn).
      rewrite IH by exact Hrest. apply lookup_insert_ne. exact Hne.
    + rewrite (rewrite_sheet_None _ _ _ _ Hn). apply IH. exact Hrest.
Qed.

Lemma rewrite_sheet_lookup locationsMap sheets st i name locations :
  NoDup locationsMap.*1 →
  (∀ name, name ∈ locationsMap.*1 → is_Some (sheets !! name)) →
  locationsMap !! i = Some (name, locations) →
  ∃ sheet, sheets !! name = Some sheet ∧
    (fold_left sheet_step locationsMap (sheets, st)).1 !! name
    = Some (sheet_add_aoa sheet
              (fold_left (rewrite_step key_of f) locations
                 (sheet_to_json (Some sheet),
                  state_after f (callbacks (take i locationsMap)) st)).1).
Proof.
  revert sheets st i.
  induction locationsMap as [|[n locs] rest IH]; intros sheets st i Hnodup Hall Hi.
  - destruct i; discriminate.
  - apply NoDup_cons in Hnodup as [Hnotin Hnodup].
    destruct (Hall n) as [sheet Hsheet]; [left|].
    cbn [fold_left]. rewrite (rewrite_sheet_Some _ _ _ _ _ Hsheet).
    destruct i as [|i]; cbn in Hi.
    + injection Hi as -> ->. exists sheet. split; [exact Hsheet|].
      rewrite rewrite_sheet_untouched by exact Hnotin.
      rewrite lookup_insert_eq. reflexivity.
    + assert (name ∈ rest.*1) as Hin.
      { apply list_elem_of_fmap. exists (name, locations). split; [reflexivity|].
        eapply list_elem_of_lookup_2. exact Hi. }
      assert (n ≠ name) as Hne by (intros ->; contradiction).
      destruct (IH (<[n := sheet_add_aoa sheet
                       (fold_left (rewrite_step key_of f) locs (sheet_to_json (Some sheet), st)).1]>
                     sheets)
                   (fold_left (rewrite_step key_of f) locs (sheet_to_json (Some sheet), st)).2
                   i Hnodup) as (sheet' & Hsheet' & Hfinal).
      * intros n' Hn'. apply lookup_insert_is_Some'. right. apply Hall. right. exact Hn'.
      * exact Hi.
      * rewrite lookup_insert_ne in Hsheet' by exact Hne.
        exists sheet'. split; [exact Hsheet'|]. rewrite Hfinal.
        rewrite rewrite_step_state. cbn [take]. unfold callbacks at 2, state_after at 3.
        cbn [flat_map snd]. rewrite fold_left_app. reflexivity.
Qed.

(** The map the resolver returns has each sheet name once. *)
Lemma resolveImageLocations_NoDup (wb : WorkBook worksheet) locationsMap :
  resolveImageLocations sax Number wb = Return locationsMap → NoDup locationsMap.*1.
Proof.
  unfold resolveImageLocations.
  destruct (_resolveSheetMap sax wb) as [sheetMap|]; cbn; [|discriminate].
  unfold _resolveAllSheetImages. intros H. apply enumerated_NoDup.
  eapply (foldM_invariant (λ m : list (string * list (IImageMetadata number)),
                             enumerated m.*1)); [|exact H|exact I].
  intros m sheetName m' Hstep Hm.
  cbn beta in Hstep.
  destruct (map_get (JString sheetName) sheetMap) as [sheet|]; [|discriminate].
  destruct (_resolveSheetImages sax Number wb (sheet_id sheet)) as [images|];
    [|discriminate].
  cbn in Hstep. injection Hstep as <-. apply props_set_enumerated. exact Hm.
Qed.

End Transform.

(** ** A relationship without an anchor *)

Lemma foldM_returns {A S} (f : S → A → completion S) (l : list A) :
  (∀ x, x ∈ l → ∀ s, ∃ s', f s x = Return s') →
  ∀ s, ∃ s', foldM f l s = Return s'.
Proof.
  induction l as [|x l IH]; intros Hall s; cbn; [eauto|].
  destruct (Hall x (list_elem_of_here _ _) s) as [s1 ->]. cbn.
  apply IH. intros y Hy. apply Hall. right. exact Hy.
Qed.

Section AnchorNotFound.
Context {worksheet number any St : Type}.
Variable sax : string → completion report.
Variable Number : jsval → number.
Variable key_of : number → key.
Variable sheet_to_json : option worksheet → sparse (sparse any).
Variable sheet_add_aoa : worksheet → sparse (sparse any) → worksheet.
Variable wb : WorkBook worksheet.

(** C7.  Let a sheet be the first of the workbook whose images are not
    resolved: its drawing is located, its anchors are all read and its
    relationships each have an id and a target, but one of them is
    referenced by no anchor.  Then the resolution of the sheet, the
    resolution of the workbook and every transform of it fail with the
    error "image anchor not found"; the transform runs no callback and
    writes nothing. *)
Theorem anchor_not_found sheetMap pre name post sheet dx dr anchors parsed rels views :
  _resolveSheetMap sax wb = Return sheetMap →
  SheetNames wb = (pre ++ name :: post)%list →
  (∀ n, n ∈ pre → ∃ s imgs, map_get (JString n) sheetMap = Some s ∧
                             _resolveSheetImages sax Number wb (sheet_id s) = Return imgs) →
  map_get (JString name) sheetMap = Some sheet →
  _resolveDrawing sax wb (sheet_id sheet) = Return (Some (dx, dr)) →
  image_anchors dx = Return anchors →
  forM (read_anchor Number) anchors = Return parsed →
  relationships_of dr = Return rels →
  Forall2 is_relationship rels views →
  (∃ v, v ∈ views ∧ anchors_of v.1 parsed = []) →
  _resolveSheetImages sax Number wb (sheet_id sheet) = Throw ImageAnchorNotFoundError ∧
  resolveImageLocations sax Number wb = Throw ImageAnchorNotFoundError ∧
  ∀ (cb : St → option File → cell number → completion any * St)
    (this : @Excel worksheet) (st : St),
    imageResolver this = Some {| resolver_workbook := wb |} →
    transformImagesToStr sax Number key_of sheet_to_json sheet_add_aoa cb this st
      = (Throw ImageAnchorNotFoundError, this, st).
Proof.
  intros Hmap Hnames Hpre Hsheet Hd Ha Hp Hr Hv Hmissing.
  assert (_resolveSheetImages sax Number wb (sheet_id sheet)
          = Throw ImageAnchorNotFoundError) as Hfail.
  { rewrite (resolveSheetImages_spec sax Number wb _ _ _ _ _ _ _ Hd Ha Hp Hr Hv).
    rewrite (forM_images_of_missing wb _ _ Hmissing). reflexivity. }
  assert (resolveImageLocations sax Number wb = Throw ImageAnchorNotFoundError) as Hall.
  { unfold resolveImageLocations. rewrite Hmap. cbn [mbind completion_bind].
    unfold _resolveAllSheetImages. rewrite Hnames, foldM_app.
    match goal with |- context [foldM ?g pre []] =>
      destruct (foldM_returns g pre) with (s := @nil (string * list (IImageMetadata number)))
        as [m1 ->]
    end.
    - intros n Hn m. destruct (Hpre n Hn) as (s & imgs & -> & ->). cbn. eauto.
    - cbn. rewrite Hsheet, Hfail. reflexivity. }
  split; [exact Hfail|]. split; [exact Hall|].
  intros cb this st Hthis.
  apply (transform_resolve_fails sax Number key_of sheet_to_json sheet_add_aoa cb this
           _ _ st Hthis). exact Hall.
Qed.
End AnchorNotFound.

(** ** File names and paths *)

Lemma append_cons a s1 s2 : String a s1 +:+ s2 = String a (s1 +:+ s2).
Proof. reflexivity. Qed.

Lemma append_nil s : "" +:+ s = s.
Proof. reflexivity. Qed.

Lemma append_assoc s1 s2 s3 : (s1 +:+ s2) +:+ s3 = s1 +:+ s2 +:+ s3.
Proof.
  induction s1 as [|a s1 IH]; [reflexivity|]. rewrite !append_cons, IH. reflexivity.
Qed.

Lemma length_append s1 s2 :
  String.length (s1 +:+ s2) = (String.length s1 + String.length s2)%nat.
Proof.
  induction s1 as [|a s1 IH]; [reflexivity|]. rewrite append_cons. cbn. rewrite IH. reflexivity.
Qed.

Lemma lastIndexOf_from_absent c s i found :
  has_char c s = false → lastIndexOf_from c s i found = found.
Proof.
  revert i found. induction s as [|a s IH]; intros i found; cbn; [reflexivity|].
  intros [Ha Hs]%orb_false_iff. rewrite Ha. apply IH. exact Hs.
Qed.

Lemma lastIndexOf_from_app c s1 s2 i found :
  lastIndexOf_from c (s1 +:+ s2) i found =
  lastIndexOf_from c s2 (i + Z.of_nat (String.length s1)) (lastIndexOf_from c s1 i found).
Proof.
  revert i found. induction s1 as [|a s1 IH]; intros i found.
  - rewrite append_nil. cbn. rewrite Z.add_0_r. reflexivity.
  - rewrite append_cons. cbn [lastIndexOf_from String.length]. rewrite IH. f_equal. lia.
Qed.

Lemma drop_chars_app s1 s2 : drop_chars (String.length s1) (s1 +:+ s2) = s2.
Proof.
  induction s1 as [|a s1 IH]; [rewrite append_nil; destruct s2; reflexivity|].
  rewrite append_cons. exact IH.
Qed.

(** The file name of a target is what follows its last slash. *)
Lemma basename_app dir name :
  has_char "/" name = false → basename (dir +:+ "/" +:+ name) = name.
Proof.
  intros Hname. unfold basename, lastIndexOf.
  rewrite lastIndexOf_from_app, append_cons, append_nil. cbn [lastIndexOf_from].
  rewrite Ascii.eqb_refl, (lastIndexOf_from_absent _ _ _ _ Hname).
  unfold substr. rewrite (proj2 (Z.ltb_ge _ _)) by lia.
  replace (Z.to_nat (0 + Z.of_nat (String.length dir) + 1))
    with (String.length (dir +:+ "/")) by (rewrite length_append; cbn; lia).
  change (String "/" name) with ("/" +:+ name).
  rewrite <- append_assoc. apply drop_chars_app.
Qed.

(** A target without a slash is its own file name. *)
Lemma basename_plain t : has_char "/" t = false → basename t = t.
Proof.
  intros Ht. unfold basename, lastIndexOf.
  rewrite (lastIndexOf_from_absent _ _ _ _ Ht). reflexivity.
Qed.

Lemma replace_absent pat rep s : occurs pat s = false → replace pat rep s = s.
Proof.
  induction s as [|a s IH]; cbn [occurs replace].
  - intros [-> _]%orb_false_iff. reflexivity.
  - intros [-> Hs]%orb_false_iff. rewrite IH by exact Hs. reflexivity.
Qed.

Lemma replace_unfold pat rep s :
  replace pat rep s =
  if String.prefix pat s then rep +:+ drop_chars (String.length pat) s
  else match s with
       | EmptyString => EmptyString
       | String a rest => String a (replace pat rep rest)
       end.
Proof. destruct s; reflexivity. Qed.

Lemma prefix_append pat s : String.prefix pat (pat +:+ s) = true.
Proof.
  induction pat as [|a pat IH]; [destruct s; reflexivity|].
  rewrite append_cons. cbn. destruct (ascii_dec a a); [exact IH | congruence].
Qed.

(** The first occurrence is the one replaced: a pattern at the head. *)
Lemma replace_head pat rep s : replace pat rep (pat +:+ s) = rep +:+ s.
Proof. rewrite replace_unfold, prefix_append, drop_chars_app. reflexivity. Qed.

(** ** Reads and writes of properties *)

Lemma props_get_props_set {A} k k' (v : A) ps :
  props_get k' (props_set k v ps) = if String.eqb k' k then Some v else props_get k' ps.
Proof.
  induction ps as [|[k0 v0] ps IH]; cbn; [reflexivity|].
  destruct (String.eqb k k0) eqn:Hk; cbn.
  - apply String.eqb_eq in Hk. subst k0. destruct (String.eqb k' k); reflexivity.
  - destruct (key_before k k0); cbn; [reflexivity|]. rewrite IH.
    destruct (String.eqb k' k0) eqn:Hk0; [|reflexivity].
    apply String.eqb_eq in Hk0. subst k0.
    rewrite String.eqb_sym, Hk. reflexivity.
Qed.

Lemma relationships_of_truthy xmlObj rels :
  relationships_of xmlObj = Return rels → truthy xmlObj = true.
Proof.
  destruct xmlObj as [| |s|ps|l]; try discriminate; reflexivity.
Qed.

Lemma forM_elem_fails {A B} (f : A → completion B) (l : list A) x e :
  x ∈ l → f x = Throw e → ∃ e', forM f l = Throw e'.
Proof.
  intros Hin Hx. induction l as [|y l IH]; [inversion Hin|]. cbn.
  destruct (f y) as [b|e1] eqn:Hy; cbn; [|eauto].
  apply elem_of_cons in Hin as [->|Hin]; [congruence|].
  destruct (IH Hin) as [e' ->]. cbn. eauto.
Qed.

(** ** The parts of a drawing *)

Section DrawingParts.
Context {worksheet number : Type}.
Variable sax : string → completion report.
Variable Number : jsval → number.
Variable wb : WorkBook worksheet.

(** The locator on a worksheet that declares a drawing and whose
    relationship table begins with an object: the two parts it reads are
    named after the target of that first entry. *)
Lemma resolveDrawing_located sheetId sheetXmlObj ws drawing sheetRels ps rest target :
  _parseMetaXmlToObject sax wb ("xl/worksheets/sheet" +:+ js_to_string sheetId +:+ ".xml")
    = Return sheetXmlObj →
  get sheetXmlObj "worksheet" = Return ws →
  get ws "drawing" = Return drawing →
  truthy drawing = true →
  truthy (own drawing "r:id") = true →
  _parseMetaXmlToObject sax wb
    ("xl/worksheets/_rels/sheet" +:+ js_to_string sheetId +:+ ".xml.rels") = Return sheetRels →
  relationships_of sheetRels = Return (JObject ps :: rest) →
  props_get "Target" ps = Some (JString target) →
  _resolveDrawing sax wb sheetId =
    (drawingXmlObj ← _parseMetaXmlToObject sax wb (replace ".." "xl" target);
     drawingRelXmlObj ← _parseMetaXmlToObject sax wb
                          ("xl/drawings/_rels/" +:+ basename target +:+ ".rels");
     Return (Some (drawingXmlObj, drawingRelXmlObj))).
Proof.
  intros Hsheet Hws Hdrawing Htruthy Hid Hrels Hlist Htarget. unfold _resolveDrawing.
  rewrite Hsheet, Return_bind, Hws, Return_bind, Hdrawing, Return_bind, Htruthy.
  cbn [negb]. rewrite (get_defined drawing "r:id" (truthy_defined _ Htruthy)), Return_bind.
  rewrite Hrels, Return_bind, (relationships_of_truthy _ _ Hlist). cbn [negb].
  rewrite Hlist, Return_bind. cbn [find_relationship assign_Id]. rewrite Return_bind, Hid.
  rewrite Return_bind. cbn [truthy put negb get].
  rewrite props_get_props_set, Htarget. reflexivity.
Qed.

(** X1.  On a worksheet that declares a drawing, the drawing is read from
    the target of the first relationship of the sheet, which is the one the
    lookup selects, taken relative to the directory of the worksheets, and
    its relationship table from the [_rels] directory of [xl/drawings]
    under the file name of the target, wherever the target points. *)
Theorem resolveDrawing_relative_target
    sheetId sheetXmlObj ws drawing sheetRels ps rest mid name :
  _parseMetaXmlToObject sax wb ("xl/worksheets/sheet" +:+ js_to_string sheetId +:+ ".xml")
    = Return sheetXmlObj →
  get sheetXmlObj "worksheet" = Return ws →
  get ws "drawing" = Return drawing →
  truthy drawing = true →
  truthy (own drawing "r:id") = true →
  _parseMetaXmlToObject sax wb
    ("xl/worksheets/_rels/sheet" +:+ js_to_string sheetId +:+ ".xml.rels") = Return sheetRels →
  relationships_of sheetRels = Return (JObject ps :: rest) →
  props_get "Target" ps = Some (JString (".." +:+ mid +:+ "/" +:+ name)) →
  has_char "/" name = false →
  _resolveDrawing sax wb sheetId =
    (drawingXmlObj ← _parseMetaXmlToObject sax wb ("xl" +:+ mid +:+ "/" +:+ name);
     drawingRelXmlObj ← _parseMetaXmlToObject sax wb
                          ("xl/drawings/_rels/" +:+ name +:+ ".rels");
     Return (Some (drawingXmlObj, drawingRelXmlObj))).
Proof.
  intros Hsheet Hws Hdrawing Htruthy Hid Hrels Hlist Htarget Hname.
  rewrite (resolveDrawing_located _ _ _ _ _ _ _ _ Hsheet Hws Hdrawing Htruthy Hid Hrels
             Hlist Htarget).
  rewrite replace_head, <- (append_assoc ".." mid), (basename_app _ _ Hname). reflexivity.
Qed.

(** X2.  A target in which [".."] does not occur, such as an absolute one,
    is taken as the name of the part as it stands; when the package has no
    part of that name the resolution of the sheet fails with a [TypeError]. *)
Theorem resolveSheetImages_target_without_dots
    sheetId sheetXmlObj ws drawing sheetRels ps rest target dr :
  _parseMetaXmlToObject sax wb ("xl/worksheets/sheet" +:+ js_to_string sheetId +:+ ".xml")
    = Return sheetXmlObj →
  get sheetXmlObj "worksheet" = Return ws →
  get ws "drawing" = Return drawing →
  truthy drawing = true →
  truthy (own drawing "r:id") = true →
  _parseMetaXmlToObject sax wb
    ("xl/worksheets/_rels/sheet" +:+ js_to_string sheetId +:+ ".xml.rels") = Return sheetRels →
  relationships_of sheetRels = Return (JObject ps :: rest) →
  props_get "Target" ps = Some (JString target) →
  occurs ".." target = false →
  files wb !! target = None →
  _parseMetaXmlToObject sax wb ("xl/drawings/_rels/" +:+ basename target +:+ ".rels")
    = Return dr →
  _resolveDrawing sax wb sheetId = Return (Some (JNull, dr)) ∧
  _resolveSheetImages sax Number wb sheetId = Throw TypeError.
Proof.
  intros Hsheet Hws Hdrawing Htruthy Hid Hrels Hlist Htarget Hdots Habsent Hdr.
  assert (_resolveDrawing sax wb sheetId = Return (Some (JNull, dr))) as Hlocated.
  { rewrite (resolveDrawing_located _ _ _ _ _ _ _ _ Hsheet Hws Hdrawing Htruthy Hid Hrels
               Hlist Htarget).
    rewrite (replace_absent _ _ _ Hdots), (parse_absent sax wb _ Habsent), Return_bind, Hdr.
    reflexivity. }
  split; [exact Hlocated|].
  unfold _resolveSheetImages. rewrite Hlocated, Return_bind.
  apply drawing_images_null. left. reflexivity.
Qed.

(** X3.  A worksheet that declares no drawing has no images, and no other
    part is read for it. *)
Theorem resolveSheetImages_no_drawing sheetId sheetXmlObj ws drawing :
  _parseMetaXmlToObject sax wb ("xl/worksheets/sheet" +:+ js_to_string sheetId +:+ ".xml")
    = Return sheetXmlObj →
  get sheetXmlObj "worksheet" = Return ws →
  get ws "drawing" = Return drawing →
  truthy drawing = false →
  _resolveDrawing sax wb sheetId = Return None ∧
  _resolveSheetImages sax Number wb sheetId = Return [].
Proof.
  intros Hsheet Hws Hdrawing Hfalsy.
  assert (_resolveDrawing sax wb sheetId = Return None) as Hnone.
  { unfold _resolveDrawing.
    rewrite Hsheet, Return_bind, Hws, Return_bind, Hdrawing, Return_bind, Hfalsy.
    reflexivity. }
  split; [exact Hnone|]. unfold _resolveSheetImages. rewrite Hnone. reflexivity.
Qed.

(** X4.  An anchor that holds no picture, as the anchor of a chart or of a
    shape does, makes the resolution of its sheet fail with a [TypeError],
    whatever the other anchors and the relationships are. *)
Theorem resolveSheetImages_anchor_without_picture sheetId dx dr anchors anchor :
  _resolveDrawing sax wb sheetId = Return (Some (dx, dr)) →
  image_anchors dx = Return anchors →
  anchor ∈ anchors →
  nullish (own anchor "xdr:pic") = true →
  _resolveSheetImages sax Number wb sheetId = Throw TypeError.
Proof.
  intros Hd Ha Hin Hpic.
  assert (read_anchor Number anchor = Throw TypeError) as Hread.
  { unfold read_anchor, embed_id.
    destruct (get anchor "xdr:pic") as [pic|e] eqn:Hget; cbn.
    - apply get_own in Hget. subst pic.
      destruct (own anchor "xdr:pic"); try discriminate; reflexivity.
    - apply get_throws in Hget. subst e. reflexivity. }
  destruct (forM_elem_fails _ _ _ _ Hin Hread) as [e He].
  unfold _resolveSheetImages, drawing_images. rewrite Hd, Return_bind, Ha, Return_bind.
  rewrite (forM_read_anchor_fails Number anchors e [] He). reflexivity.
Qed.

(** X5.  The file of a relationship is looked up under [xl/media] by the
    file name of the target alone, whatever directory the target names, and
    the [File] is given that name; each anchor of the relationship gets it,
    and [null] when the package has no such part. *)
Theorem relationship_images_by_file_name
    (m : list (jsval * list (IImageAnchor number))) r rid dir name anchors :
  get r "Id" = Return rid →
  get r "Target" = Return (JString (dir +:+ "/" +:+ name)) →
  has_char "/" name = false →
  map_get rid m = Some anchors →
  relationship_images wb m r =
    Return (map (λ a, {| file := (λ entry, {| file_name := name; file_bits := content entry |})
                                   <$> files wb !! ("xl/media/" +:+ name);
                         from := anchor_from a; to := anchor_to a |}) anchors).
Proof.
  intros Hid Htarget Hname Hm. unfold relationship_images.
  rewrite Hid, Return_bind, Htarget, Return_bind. cbn [as_string]. rewrite Return_bind, Hm.
  rewrite (basename_app _ _ Hname).
  unfold _parseMetaImageToFile, _getDataFromWbFile.
  destruct (files wb !! ("xl/media/" +:+ name)); reflexivity.
Qed.
End DrawingParts.

(** ** The sheets of a workbook *)

Lemma props_get_is_Some {A} k (ps : list (string * A)) :
  is_Some (props_get k ps) ↔ k ∈ ps.*1.
Proof.
  induction ps as [|[k0 v0] ps IH]; cbn.
  - split; [intros [x Hx]; discriminate | inversion 1].
  - destruct (String.eqb k k0) eqn:Hk.
    + apply String.eqb_eq in Hk. subst k0. split; [left | eauto].
    + apply String.eqb_neq in Hk. rewrite IH. split; [right; assumption|].
      intros [->|H]%elem_of_cons; [congruence | exact H].
Qed.

Lemma props_set_append {A} k (v : A) ps :
  array_index k = None → k ∉ ps.*1 → props_set k v ps = (ps ++ [(k, v)])%list.
Proof.
  intros Hk. induction ps as [|[k0 v0] ps IH]; cbn; [reflexivity|].
  intros Hnot. destruct (String.eqb k k0) eqn:Heq.
  - apply String.eqb_eq in Heq. subst k0. exfalso. apply Hnot. left.
  - unfold key_before. rewrite Hk, IH; [reflexivity|].
    intros Hin. apply Hnot. right. exact Hin.
Qed.


Section Workbook.
Context {worksheet number any St : Type}.
Variable sax : string → completion report.
Variable Number : jsval → number.
Variable key_of : number → key.
Variable sheet_to_json : option worksheet → sparse (sparse any).
Variable sheet_add_aoa : worksheet → sparse (sparse any) → worksheet.
Variable wb : WorkBook worksheet.

(** The body of the loop of [_resolveAllSheetImages]. *)
#[local] Abbreviation sheet_images sheetMap :=
  (λ (metadatasMap : list (string * list (IImageMetadata number))) (sheetName : string),
     match map_get (JString sheetName) sheetMap with
     | None => Throw (Error msg_sheet_not_found)
     | Some sheet =>
         images ← _resolveSheetImages sax Number wb (sheet_id sheet);
         Return (props_set sheetName images metadatasMap)
     end).

(** The loop stops at the first sheet that is not resolved. *)
Lemma resolveImageLocations_stops sheetMap pre name post e :
  _resolveSheetMap sax wb = Return sheetMap →
  SheetNames wb = (pre ++ name :: post)%list →
  (∀ n, n ∈ pre → ∃ s imgs, map_get (JString n) sheetMap = Some s ∧
                             _resolveSheetImages sax Number wb (sheet_id s) = Return imgs) →
  match map_get (JString name) sheetMap with
  | None => Throw (Error msg_sheet_not_found)
  | Some sheet => _resolveSheetImages sax Number wb (sheet_id sheet)
  end = Throw e →
  resolveImageLocations sax Number wb = Throw e.
Proof.
  intros Hmap Hnames Hpre Hfail.
  unfold resolveImageLocations. rewrite Hmap, Return_bind.
  unfold _resolveAllSheetImages. rewrite Hnames, foldM_app.
  destruct (foldM_returns (sheet_images sheetMap) pre)
    with (s := @nil (string * list (IImageMetadata number))) as [m1 ->].
  - intros n Hn m. destruct (Hpre n Hn) as (s & imgs & -> & ->). cbn. eauto.
  - cbn. destruct (map_get (JString name) sheetMap).
    + rewrite Hfail. reflexivity.
    + injection Hfail as <-. reflexivity.
Qed.

(** X6.  A sheet name of the workbook that [xl/workbook.xml] does not
    declare makes the resolution fail with the error "sheet not found", once
    the sheets before it are resolved; a transform then runs no callback and
    writes nothing. *)
Theorem sheet_not_found sheetMap pre name post :
  _resolveSheetMap sax wb = Return sheetMap →
  SheetNames wb = (pre ++ name :: post)%list →
  (∀ n, n ∈ pre → ∃ s imgs, map_get (JString n) sheetMap = Some s ∧
                             _resolveSheetImages sax Number wb (sheet_id s) = Return imgs) →
  map_get (JString name) sheetMap = None →
  resolveImageLocations sax Number wb = Throw SheetNotFoundError ∧
  ∀ (cb : St → option File → cell number → completion any * St)
    (this : @Excel worksheet) (st : St),
    imageResolver this = Some {| resolver_workbook := wb |} →
    transformImagesToStr sax Number key_of sheet_to_json sheet_add_aoa cb this st
      = (Throw SheetNotFoundError, this, st).
Proof.
  intros Hmap Hnames Hpre Hnone.
  assert (resolveImageLocations sax Number wb = Throw SheetNotFoundError) as Hall.
  { apply (resolveImageLocations_stops sheetMap pre name post _ Hmap Hnames Hpre).
    rewrite Hnone. reflexivity. }
  split; [exact Hall|]. intros cb this st Hthis.
  apply (transform_resolve_fails sax Number key_of sheet_to_json sheet_add_aoa cb this
           _ _ st Hthis). exact Hall.
Qed.

(** X7.  The worksheet of a sheet is the part numbered by the [sheetId] the
    workbook declares for it.  When the package has no part of that number
    the resolution of the sheet, that of the workbook and every transform
    fail with a [TypeError]. *)
Theorem worksheet_part_by_sheetId sheetMap pre name post sheet :
  _resolveSheetMap sax wb = Return sheetMap →
  SheetNames wb = (pre ++ name :: post)%list →
  (∀ n, n ∈ pre → ∃ s imgs, map_get (JString n) sheetMap = Some s ∧
                             _resolveSheetImages sax Number wb (sheet_id s) = Return imgs) →
  map_get (JString name) sheetMap = Some sheet →
  files wb !! ("xl/worksheets/sheet" +:+ js_to_string (sheet_id sheet) +:+ ".xml") = None →
  _resolveSheetImages sax Number wb (sheet_id sheet) = Throw TypeError ∧
  resolveImageLocations sax Number wb = Throw TypeError ∧
  ∀ (cb : St → option File → cell number → completion any * St)
    (this : @Excel worksheet) (st : St),
    imageResolver this = Some {| resolver_workbook := wb |} →
    transformImagesToStr sax Number key_of sheet_to_json sheet_add_aoa cb this st
      = (Throw TypeError, this, st).
Proof.
  intros Hmap Hnames Hpre Hsheet Habsent.
  assert (_resolveSheetImages sax Number wb (sheet_id sheet) = Throw TypeError) as Hfail.
  { unfold _resolveSheetImages, _resolveDrawing.
    rewrite (parse_absent sax wb _ Habsent). reflexivity. }
  assert (resolveImageLocations sax Number wb = Throw TypeError) as Hall.
  { apply (resolveImageLocations_stops sheetMap pre name post _ Hmap Hnames Hpre).
    rewrite Hsheet. exact Hfail. }
  split; [exact Hfail|]. split; [exact Hall|]. intros cb this st Hthis.
  apply (transform_resolve_fails sax Number key_of sheet_to_json sheet_add_aoa cb this
           _ _ st Hthis). exact Hall.
Qed.



Lemma resolveAllSheetImages_entries sheetMap names :
  ∀ acc m,
    foldM (sheet_images sheetMap) names acc = Return m →
    (∀ name, name ∈ names →
       ∃ sheet images,
         map_get (JString name) sheetMap = Some sheet ∧
         _resolveSheetImages sax Number wb (sheet_id sheet) = Return images ∧
         props_get name m = Some images) ∧
    (∀ name, name ∉ names → props_get name m = props_get name acc).
Proof.
  induction names as [|n names IH]; intros acc m; cbn [foldM].
  - intros [= <-]. split; [intros name H; inversion H | reflexivity].
  - destruct (map_get (JString n) sheetMap) as [sheet|] eqn:Hsheet; [|discriminate].
    destruct (_resolveSheetImages sax Number wb (sheet_id sheet)) as [images|] eqn:Himages;
      [|discriminate].
    cbn [mbind completion_bind]. intros Hrest.
    destruct (IH _ _ Hrest) as [Hin Hout]. split.
    + intros name Hname. destruct (decide (name ∈ names)) as [Hlater|Hlater].
      * apply Hin. exact Hlater.
      * apply elem_of_cons in Hname as [->|Hname]; [|contradiction].
        exists sheet, images. split; [exact Hsheet|]. split; [exact Himages|].
        rewrite (Hout _ Hlater), props_get_props_set, String.eqb_refl. reflexivity.
    + intros name Hname. rewrite Hout by (intros H; apply Hname; right; exact H).
      rewrite props_get_props_set.
      destruct (String.eqb name n) eqn:Heq; [|reflexivity].
      apply String.eqb_eq in Heq. subst n. exfalso. apply Hname. left.
Qed.



End Workbook.

(** ** The operations of [Excel] *)

Lemma forM_Return_map {A B} (g : A → B) (l : list A) :
  forM (λ x, Return (g x)) l = Return (map g l).
Proof. induction l as [|x l IH]; cbn; [reflexivity|]. rewrite IH. reflexivity. Qed.

Section Operations.
Context {worksheet number any St : Type}.
Variable sax : string → completion report.
Variable Number : jsval → number.
Variable key_of : number → key.
Variable XLSX_read : string → completion (WorkBook worksheet).
Variable sheet_to_json : option worksheet → sparse (sparse any).
Variable sheet_add_aoa : worksheet → sparse (sparse any) → worksheet.

Lemma getData_loaded (this : @Excel worksheet) wb :
  workbook this = Some wb →
  getData sheet_to_json this
  = Return (map (λ name, (name, sheet_to_json (Sheets wb !! name))) (SheetNames wb)).
Proof.
  intros Hwb. unfold getData, _assertHasLoaded, getDataBySheetName. rewrite Hwb, Return_bind.
  apply (forM_Return_map (λ name, (name, sheet_to_json (Sheets wb !! name)))).
Qed.

(** X11.  After a load that succeeds, [getData] does not fail: it returns
    one grid for each sheet name of the workbook read, in the order of the
    workbook, the grid being that of the worksheet filed under the name.  A
    load that fails is the failure of [XLSX.read]. *)
Theorem load_then_getData (this : @Excel worksheet) buffer :
  match XLSX_read buffer with
  | Return wb =>
      ∃ this', load XLSX_read this buffer = Return this' ∧
        workbook this' = Some wb ∧
        getData sheet_to_json this'
        = Return (map (λ name, (name, sheet_to_json (Sheets wb !! name))) (SheetNames wb))
  | Throw e => load XLSX_read this buffer = Throw e
  end.
Proof.
  unfold load. destruct (XLSX_read buffer) as [wb|e]; [|reflexivity].
  eexists. split; [reflexivity|]. split; [reflexivity|]. apply getData_loaded. reflexivity.
Qed.


Variable cb : St → option File → cell number → completion any * St.

Lemma transform_locations_app pre post data st :
  transform_locations key_of cb (pre ++ post) data st =
  match transform_locations key_of cb pre data st with
  | (Return d1, st1) => transform_locations key_of cb post d1 st1
  | (Throw e, st1) => (Throw e, st1)
  end.
Proof.
  revert data st. induction pre as [|l pre IH]; intros data st; cbn; [reflexivity|].
  destruct (cb st (file l) (from l)) as [[str|e] st1]; [apply IH | reflexivity].
Qed.

Lemma transform_sheets_app before after (this : @Excel worksheet) st :
  transform_sheets key_of sheet_to_json sheet_add_aoa cb (before ++ after) this st =
  match transform_sheets key_of sheet_to_json sheet_add_aoa cb before this st with
  | (Return _, this1, st1) =>
      transform_sheets key_of sheet_to_json sheet_add_aoa cb after this1 st1
  | (Throw e, this1, st1) => (Throw e, this1, st1)
  end.
Proof.
  revert this st. induction before as [|[name locations] before IH]; intros this st; cbn.
  - reflexivity.
  - destruct (getDataBySheetName sheet_to_json this name) as [data|e]; [|reflexivity].
    destruct (transform_locations key_of cb locations data st) as [[data'|e] st1];
      [|reflexivity].
    destruct (setData sheet_add_aoa this name data') as [this1|e]; [apply IH | reflexivity].
Qed.

(** X13.  The loop over the images of a sheet changes no cell of the grid
    other than the [from] cells of the images, whatever the callback does. *)
Theorem transform_locations_frame locations data st data' st' (c : cell number) :
  transform_locations key_of cb locations data st = (Return data', st') →
  (∀ l, l ∈ locations →
     (key_of (row c), key_of (col c)) ≠ (key_of (row (from l)), key_of (col (from l)))) →
  cell_get key_of data' c = cell_get key_of data c.
Proof.
  revert data st. induction locations as [|l locations IH]; intros data st; cbn.
  - intros [= <- _] _. reflexivity.
  - destruct (cb st (file l) (from l)) as [[str|e] st1]; [|discriminate].
    intros Hrest Hall. rewrite (IH _ _ Hrest).
    + apply write_cell_other. apply Hall. left.
    + intros l' Hl'. apply Hall. right. exact Hl'.
Qed.

(** X14.  After the loop over the images of a sheet, the [from] cell of an
    image holds the string the callback resolved to for that image, unless a
    later image of the sheet has the same [from] cell (whose string it then
    holds). *)
Theorem transform_locations_last_write pre l post data st d1 st1 str st2 data' st' :
  transform_locations key_of cb pre data st = (Return d1, st1) →
  cb st1 (file l) (from l) = (Return str, st2) →
  transform_locations key_of cb post (write_cell key_of d1 (from l) str) st2
    = (Return data', st') →
  (∀ l', l' ∈ post →
     (key_of (row (from l)), key_of (col (from l)))
     ≠ (key_of (row (from l')), key_of (col (from l')))) →
  transform_locations key_of cb (pre ++ l :: post) data st = (Return data', st') ∧
  cell_get key_of data' (from l) = Some str.
Proof.
  intros Hpre Hl Hpost Hlater. split.
  - rewrite transform_locations_app, Hpre. cbn. rewrite Hl. exact Hpost.
  - revert Hpost Hlater. generalize (write_cell_read key_of d1 (from l) str).
    generalize (write_cell key_of d1 (from l) str) st2.
    induction post as [|l' post IH]; intros d st0 Hread; cbn.
    + intros [= <- _] _. exact Hread.
    + destruct (cb st0 (file l') (from l')) as [[str'|e] st3]; [|discriminate].
      intros Hrest Hlater. apply (IH _ _) with (2 := Hrest).
      * rewrite write_cell_other; [exact Hread|]. apply Hlater. left.
      * intros l'' Hl''. apply Hlater. right. exact Hl''.
Qed.

(** X15.  When the callback rejects on an image, the transform rejects with
    the same error and no callback runs after it.  The sheets before the
    sheet of the image are written; the sheet of the image is not, although
    the callback has resolved for the images before, and neither are the
    sheets after it. *)
Theorem transform_callback_rejects
    (this : @Excel worksheet) resolver before name pre l post after st this1 wb1 st0
    d1 st1 e st2 :
  imageResolver this = Some resolver →
  resolveImageLocations sax Number (resolver_workbook resolver)
    = Return (before ++ (name, pre ++ l :: post) :: after)%list →
  transform_sheets key_of sheet_to_json sheet_add_aoa cb before this st
    = (Return (), this1, st0) →
  workbook this1 = Some wb1 →
  transform_locations key_of cb pre (sheet_to_json (Sheets wb1 !! name)) st0
    = (Return d1, st1) →
  cb st1 (file l) (from l) = (Throw e, st2) →
  transformImagesToStr sax Number key_of sheet_to_json sheet_add_aoa cb this st
    = (Throw e, this1, st2).
Proof.
  intros Hresolver Hresolve Hbefore Hwb1 Hpre Hl. unfold transformImagesToStr.
  rewrite Hresolver, Hresolve, transform_sheets_app, Hbefore.
  cbn [transform_sheets]. unfold getDataBySheetName. rewrite Hwb1.
  rewrite transform_locations_app, Hpre. cbn. rewrite Hl. reflexivity.
Qed.
End Operations.

(** ** Anchors and relationships, counted *)

Lemma filter_bool_cons {A} (P : A → bool) x l :
  filter (λ y, P y) (x :: l) = if P x then x :: filter (λ y, P y) l else filter (λ y, P y) l.
Proof.
  rewrite filter_cons. destruct (P x); [rewrite decide_True | rewrite decide_False];
    cbn; auto.
Qed.

Lemma length_filter_sum {A} (P : A → bool) l :
  length (filter (λ y, P y) l) = sum_list (map (λ y, if P y then 1 else 0) l).
Proof.
  induction l as [|x l IH]; [reflexivity|].
  rewrite filter_bool_cons. cbn. destruct (P x); cbn; rewrite IH; reflexivity.
Qed.

(** Pairs counted by rows and by columns. *)
Lemma count_pairs {A B} (R : A → B → bool) (xs : list A) (ys : list B) :
  sum_list (map (λ y, length (filter (λ x, R x y) xs)) ys)
  = sum_list (map (λ x, length (filter (λ y, R x y) ys)) xs).
Proof.
  induction xs as [|x xs IH].
  - induction ys as [|y ys IHy]; cbn; [reflexivity | exact IHy].
  - cbn [map sum_list]. rewrite <- IH, (length_filter_sum (R x)). clear IH.
    induction ys as [|y ys IHy]; [reflexivity|].
    cbn [map sum_list]. rewrite filter_bool_cons, IHy. unfold id.
    destruct (R x y); cbn [length]; lia.
Qed.

Lemma length_concat_sum {A} (ls : list (list A)) :
  length (List.concat ls) = sum_list (map length ls).
Proof. induction ls as [|l ls IH]; cbn; [reflexivity|]. rewrite length_app, IH. reflexivity. Qed.

Lemma forM_length {A B} (f : A → completion B) l ys :
  forM f l = Return ys → length ys = length l.
Proof.
  revert ys. induction l as [|x l IH]; intros ys; cbn.
  - intros [= <-]. reflexivity.
  - destruct (f x); cbn; [|discriminate]. destruct (forM f l); cbn; [|discriminate].
    intros [= <-]. cbn. rewrite (IH _ eq_refl). reflexivity.
Qed.

Lemma sum_list_ones {A} (g : A → nat) l :
  (∀ x, x ∈ l → g x = 1) → sum_list (map g l) = length l.
Proof.
  induction l as [|x l IH]; intros Hall; cbn; [reflexivity|].
  rewrite (Hall x) by left. rewrite IH; [reflexivity|].
  intros y Hy. apply Hall. right. exact Hy.
Qed.

Section Counting.
Context {worksheet number : Type}.
Variable sax : string → completion report.
Variable Number : jsval → number.
Variable wb : WorkBook worksheet.

(** X16.  On a sheet whose drawing is located, whose anchors are all read
    and whose relationships each have an id, a target and an anchor, the
    number of images resolved is the number of pairs of an anchor and a
    relationship with the same id.  An anchor whose id no relationship has
    is dropped, one whose id several relationships have is emitted for each;
    when the id of every anchor is that of exactly one relationship, there
    are as many images as anchors. *)
Theorem resolveSheetImages_count sheetId dx dr anchors parsed rels views :
  _resolveDrawing sax wb sheetId = Return (Some (dx, dr)) →
  image_anchors dx = Return anchors →
  forM (read_anchor Number) anchors = Return parsed →
  relationships_of dr = Return rels →
  Forall2 is_relationship rels views →
  (∀ v, v ∈ views → anchors_of v.1 parsed ≠ []) →
  ∃ images,
    _resolveSheetImages sax Number wb sheetId = Return images ∧
    length images
    = sum_list (map (λ p : jsval * IImageAnchor number,
                       length (filter (λ v : jsval * string, same_value_zero p.1 v.1) views))
                    parsed) ∧
    ((∀ p, p ∈ parsed →
        length (filter (λ v : jsval * string, same_value_zero p.1 v.1) views) = 1) →
     length images = length anchors).
Proof.
  intros Hd Ha Hp Hr Hv Hall. eexists. split.
  - rewrite (resolveSheetImages_spec sax Number wb _ _ _ _ _ _ _ Hd Ha Hp Hr Hv).
    rewrite (forM_images_of_all wb _ _ Hall). reflexivity.
  - assert (length (List.concat
                      (map (λ v : jsval * string,
                              located (media wb v.2) (anchors_of v.1 parsed)) views))
            = sum_list (map (λ p : jsval * IImageAnchor number,
                               length (filter (λ v : jsval * string,
                                                 same_value_zero p.1 v.1) views)) parsed))
      as Hcount.
    { rewrite length_concat_sum, map_map.
      rewrite <- (count_pairs (λ (p : jsval * IImageAnchor number) (v : jsval * string),
                                same_value_zero p.1 v.1)).
      f_equal. apply map_ext. intros v. unfold located, anchors_of.
      rewrite !length_map. reflexivity. }
    split; [exact Hcount|]. intros Hone. rewrite Hcount.
    rewrite (sum_list_ones _ _ Hone). apply (forM_length _ _ _ Hp).
Qed.
End Counting.

(** ** The older copy of the resolver *)

Lemma last_filter_cons {A} (P : A → bool) x l :
  last (filter (λ y, P y) (x :: l)) =
  match last (filter (λ y, P y) l) with
  | Some y => Some y
  | None => if P x then Some x else None
  end.
Proof.
  rewrite filter_bool_cons. destruct (P x); [|destruct (last _); reflexivity].
  rewrite last_cons. reflexivity.
Qed.

Lemma forM_ext_in {A B} (f g : A → completion B) l :
  (∀ x, x ∈ l → f x = g x) → forM f l = forM g l.
Proof.
  induction l as [|x l IH]; intros Hall; cbn; [reflexivity|].
  rewrite (Hall x) by left. rewrite IH; [reflexivity|].
  intros y Hy. apply Hall. right. exact Hy.
Qed.

Lemma forM_singletons {A B} (f : A → completion (list B)) (g : A → completion B) l :
  (∀ x, x ∈ l → f x = (y ← g x; Return [y])) →
  (ls ← forM f l; Return (List.concat ls)) = forM g l.
Proof.
  induction l as [|x l IH]; intros Hall; cbn; [reflexivity|].
  rewrite (Hall x) by left. destruct (g x) as [y|e]; cbn; [|reflexivity].
  rewrite <- IH by (intros z Hz; apply Hall; right; exact Hz).
  destruct (forM f l); reflexivity.
Qed.

Section OlderCopy.
Context {worksheet number : Type}.
Variable Number : jsval → number.
Variable wb : WorkBook worksheet.

(** The [Map] built from the entries: under each id, the last anchor
    that references it. *)
Lemma new_Map_last (parsed : list (jsval * IImageAnchor number)) rid :
  map_get rid (new_Map parsed) = last (anchors_of rid parsed).
Proof.
  unfold new_Map.
  assert (∀ m0, map_get rid (fold_left (λ m kv, map_set kv.1 kv.2 m) parsed m0)
                = match last (anchors_of rid parsed) with
                  | Some a => Some a
                  | None => map_get rid m0
                  end) as Hgen.
  { induction parsed as [|[aid a] parsed IH]; intros m0; [reflexivity|].
    cbn [fold_left fst snd]. rewrite IH, map_get_map_set, anchors_of_cons.
    destruct (same_value_zero aid rid); [|reflexivity].
    rewrite last_cons. destruct (last (anchors_of rid parsed)); reflexivity. }
  rewrite Hgen. destruct (last (anchors_of rid parsed)); reflexivity.
Qed.

Lemma legacy_relationship_image_spec (parsed : list (jsval * IImageAnchor number)) r v :
  is_relationship r v →
  legacy_relationship_image wb (new_Map parsed) r =
    match last (anchors_of v.1 parsed) with
    | None => Throw ImageAnchorNotFoundError
    | Some a => Return {| file := media wb v.2; from := anchor_from a; to := anchor_to a |}
    end.
Proof.
  intros [HId HTarget]. unfold legacy_relationship_image.
  rewrite HId, Return_bind, HTarget, Return_bind. cbn [as_string].
  rewrite Return_bind, new_Map_last. reflexivity.
Qed.

(** X17.  The copy of the resolver in src/excel/image.ts gives one image for
    each relationship of the drawing, in the order of the table, with the
    corners of the last two-cell anchor that references the relationship;
    the anchors before it are dropped. *)
Theorem legacy_one_image_per_relationship dx dr wsDr anchors parsed rels views :
  get dx "xdr:wsDr" = Return wsDr →
  get wsDr "xdr:twoCellAnchor" = Return (JArray anchors) →
  forM (legacy_read_anchor Number) anchors = Return parsed →
  relationships_of dr = Return rels →
  Forall2 is_relationship rels views →
  legacy_drawing_images Number wb dx dr
  = forM (λ v : jsval * string,
            match last (anchors_of v.1 parsed) with
            | None => Throw ImageAnchorNotFoundError
            | Some a =>
                Return {| file := media wb v.2; from := anchor_from a; to := anchor_to a |}
            end) views ∧
  ∀ images, legacy_drawing_images Number wb dx dr = Return images →
            length images = length rels.
Proof.
  intros Hws Htwo Hp Hr Hv.
  assert (legacy_drawing_images Number wb dx dr
          = forM (legacy_relationship_image wb (new_Map parsed)) rels) as Hrun.
  { unfold legacy_drawing_images. rewrite Hws, Return_bind, Htwo, Return_bind.
    cbn [elements]. rewrite Return_bind, Hp, Return_bind, Hr. reflexivity. }
  split.
  - rewrite Hrun. clear Hrun Hr.
    induction Hv as [|r v rels views Hrv _ IH]; cbn [forM]; [reflexivity|].
    rewrite (legacy_relationship_image_spec parsed r v Hrv), IH. reflexivity.
  - intros images Himages. rewrite Hrun in Himages. apply (forM_length _ _ _ Himages).
Qed.

Lemma read_anchor_two_cell anchor :
  truthy (own anchor "xdr:to") = true →
  read_anchor Number anchor = legacy_read_anchor Number anchor.
Proof.
  intros Hto. unfold read_anchor, legacy_read_anchor.
  destruct (embed_id anchor) as [rid|e]; [|reflexivity]. rewrite !Return_bind.
  destruct (get anchor "xdr:from") as [xfrom|e] eqn:Hfrom; [|reflexivity].
  rewrite !Return_bind.
  destruct (get xfrom "xdr:row") as [from_row|e]; [|reflexivity]. rewrite !Return_bind.
  destruct (get xfrom "xdr:col") as [from_col|e]; [|reflexivity]. rewrite !Return_bind.
  rewrite (get_defined anchor "xdr:to" (get_Return_defined _ _ _ Hfrom)), !Return_bind.
  rewrite Hto. cbn [negb]. change ("xdr:" +:+ "to") with "xdr:to".
  rewrite (get_defined anchor "xdr:to" (get_Return_defined _ _ _ Hfrom)), !Return_bind.
  reflexivity.
Qed.

(** X18.  The two copies of the resolver agree on the drawings the older one
    was written for: no one-cell anchor, two-cell anchors that each declare
    a [to] pair, and no relationship id referenced by two anchors.  On such
    a drawing they return the same images or fail with the same error. *)
Theorem legacy_agrees_on_two_cell_drawings dx dr wsDr anchors parsed :
  get dx "xdr:wsDr" = Return wsDr →
  get wsDr "xdr:twoCellAnchor" = Return (JArray anchors) →
  truthy (own wsDr "xdr:oneCellAnchor") = false →
  (∀ anchor, anchor ∈ anchors → truthy (own anchor "xdr:to") = true) →
  forM (read_anchor Number) anchors = Return parsed →
  (∀ rid, length (anchors_of rid parsed) ≤ 1)%nat →
  drawing_images Number wb dx dr = legacy_drawing_images Number wb dx dr.
Proof.
  intros Hws Htwo Hone Hto Hp Hunique.
  assert (image_anchors dx = Return anchors) as Ha.
  { unfold image_anchors. rewrite Hws, !Return_bind, Htwo, !Return_bind.
    rewrite (get_defined wsDr "xdr:oneCellAnchor" (get_Return_defined _ _ _ Htwo)).
    rewrite Return_bind. unfold or_else. rewrite Hone. reflexivity. }
  assert (forM (legacy_read_anchor Number) anchors = Return parsed) as Hlegacy.
  { rewrite <- Hp. symmetry. apply forM_ext_in. intros anchor Hin.
    apply read_anchor_two_cell, Hto, Hin. }
  unfold drawing_images, legacy_drawing_images.
  rewrite Ha, Hws, !Return_bind, Htwo, !Return_bind. cbn [elements].
  rewrite Return_bind, Hlegacy, Return_bind.
  destruct (foldM_add_anchor Number anchors parsed [] Hp) as (m & -> & Hm).
  rewrite Return_bind.
  destruct (relationships_of dr) as [rels|e]; [|reflexivity]. rewrite !Return_bind.
  apply forM_singletons. intros r _.
  unfold relationship_images, legacy_relationship_image.
  destruct (get r "Id") as [rid|e]; [|reflexivity]. rewrite !Return_bind.
  destruct (get r "Target") as [target|e]; [|reflexivity]. rewrite !Return_bind.
  destruct (as_string target) as [t|e]; [|reflexivity]. rewrite !Return_bind.
  rewrite Hm, new_Map_last. specialize (Hunique rid).
  destruct (anchors_of rid parsed) as [|a [|b l]]; [reflexivity | reflexivity |].
  cbn in Hunique. lia.
Qed.
End OlderCopy.

(** ** The keys of an array *)

Lemma small_digit (d : N) :
  (d < 10)%N →
  (d = 0 ∨ d = 1 ∨ d = 2 ∨ d = 3 ∨ d = 4 ∨
   d = 5 ∨ d = 6 ∨ d = 7 ∨ d = 8 ∨ d = 9)%N.
Proof. lia. Qed.

Lemma pretty_N_char_digit (d : N) :
  (d < 10)%N →
  is_digit (pretty_N_char d) = true ∧ (N_of_ascii (pretty_N_char d) - 48)%N = d ∧
  (d ≠ 0%N → pretty_N_char d ≠ "0"%char).
Proof.
  intros Hd.
  destruct (small_digit d Hd) as [->|[->|[->|[->|[->|[->|[->|[->|[->| ->]]]]]]]]];
    (split; [reflexivity | split; [reflexivity | intros H; try congruence; discriminate]]).
Qed.

Lemma all_digits_pretty_N_go (x : N) s : all_digits (pretty_N_go x s) = all_digits s.
Proof.
  revert s. induction (N.lt_wf_0 x) as [x _ IH]; intros s.
  destruct (decide (0 < x)%N) as [Hx|Hx].
  - rewrite pretty_N_go_step by exact Hx. rewrite IH by (apply N.div_lt; lia).
    cbn [all_digits].
    destruct (pretty_N_char_digit (x `mod` 10)) as [-> _]; [|reflexivity].
    apply N.mod_lt. lia.
  - assert (x = 0%N) as -> by lia. rewrite pretty_N_go_0. reflexivity.
Qed.

Lemma digits_value_pretty_N_go (x : N) s :
  digits_value (pretty_N_go x s) 0 = digits_value s x.
Proof.
  revert s. induction (N.lt_wf_0 x) as [x _ IH]; intros s.
  destruct (decide (0 < x)%N) as [Hx|Hx].
  - rewrite pretty_N_go_step by exact Hx. rewrite IH by (apply N.div_lt; lia).
    cbn [digits_value].
    destruct (pretty_N_char_digit (x `mod` 10)) as (_ & -> & _); [apply N.mod_lt; lia|].
    f_equal. pose proof (N.div_mod x 10). lia.
  - assert (x = 0%N) as -> by lia. rewrite pretty_N_go_0. reflexivity.
Qed.

Lemma pretty_N_go_head (x : N) s :
  (0 < x)%N → ∃ a rest, pretty_N_go x s = String a rest ∧ a ≠ "0"%char.
Proof.
  revert s. induction (N.lt_wf_0 x) as [x _ IH]; intros s Hx.
  rewrite pretty_N_go_step by exact Hx.
  destruct (decide (0 < x `div` 10)%N) as [Hq|Hq].
  - apply IH; [apply N.div_lt; lia | exact Hq].
  - assert (x `div` 10 = 0)%N as Hzero by (apply N.le_0_r, N.nlt_ge; exact Hq).
    rewrite Hzero, pretty_N_go_0.
    eexists _, _. split; [reflexivity|].
    apply pretty_N_char_digit; [apply N.mod_lt; lia|].
    pose proof (N.div_mod x 10 ltac:(lia)) as Hdm. rewrite Hzero in Hdm. lia.
Qed.

(** The key of an index, read back as the index. *)
Lemma array_index_pretty (i : nat) :
  (N.of_nat i < 4294967295)%N → array_index (pretty i) = Some i.
Proof.
  intros Hi. unfold pretty, pretty_nat, pretty, pretty_N.
  destruct (decide (N.of_nat i = 0%N)) as [Hzero|Hpos].
  - assert (i = 0%nat) as -> by lia. reflexivity.
  - destruct (pretty_N_go_head (N.of_nat i) "") as (a & rest & Hgo & Ha); [lia|].
    pose proof (all_digits_pretty_N_go (N.of_nat i) "") as Hall.
    pose proof (digits_value_pretty_N_go (N.of_nat i) "") as Hvalue.
    rewrite Hgo in Hall, Hvalue |- *. unfold array_index. rewrite Hall, Hvalue.
    cbn [all_digits digits_value andb].
    destruct (Ascii.eqb a "0") eqn:Heq; [apply Ascii.eqb_eq in Heq; contradiction|].
    cbn [negb orb]. rewrite (proj2 (N.ltb_lt _ _) Hi), Nat2N.id. reflexivity.
Qed.

(** ** The merge, as a function *)

Lemma props_get_None {A} k (l : list (string * A)) : k ∉ l.*1 → props_get k l = None.
Proof.
  intros Hnot. destruct (props_get k l) as [x|] eqn:Hx; [|reflexivity].
  exfalso. apply Hnot, props_get_is_Some. eauto.
Qed.

Lemma props_get_mid {A} k (x : A) l1 l2 :
  k ∉ l1.*1 → props_get k (l1 ++ (k, x) :: l2) = Some x.
Proof.
  induction l1 as [|[k0 v0] l1 IH]; cbn; intros Hnot.
  - rewrite String.eqb_refl. reflexivity.
  - destruct (String.eqb k k0) eqn:Hk.
    + apply String.eqb_eq in Hk. subst k0. exfalso. apply Hnot. left.
    + apply IH. intros H. apply Hnot. right. exact H.
Qed.

Lemma props_set_mid {A} k (y x : A) l1 l2 :
  array_index k = None → k ∉ l1.*1 →
  props_set k y (l1 ++ (k, x) :: l2) = (l1 ++ (k, y) :: l2)%list.
Proof.
  intros Hk. induction l1 as [|[k0 v0] l1 IH]; cbn; intros Hnot.
  - rewrite String.eqb_refl. reflexivity.
  - destruct (String.eqb k k0) eqn:Heq.
    + apply String.eqb_eq in Heq. subst k0. exfalso. apply Hnot. left.
    + unfold key_before. rewrite Hk, IH; [reflexivity|].
      intros H. apply Hnot. right. exact H.
Qed.

Lemma props_delete_cons {A} k k' (x : A) l :
  props_delete k ((k', x) :: l) =
  if String.eqb k k' then props_delete k l else (k', x) :: props_delete k l.
Proof.
  unfold props_delete. rewrite (filter_bool_cons (λ p : string * A, negb (String.eqb k p.1))).
  cbn. destruct (String.eqb k k'); reflexivity.
Qed.

Lemma props_delete_absent {A} k (l : list (string * A)) : k ∉ l.*1 → props_delete k l = l.
Proof.
  induction l as [|[k0 v0] l IH]; intros Hnot; [reflexivity|].
  rewrite props_delete_cons. destruct (String.eqb k k0) eqn:Heq.
  - apply String.eqb_eq in Heq. subst k0. exfalso. apply Hnot. left.
  - rewrite IH; [reflexivity|]. intros H. apply Hnot. right. exact H.
Qed.

Lemma props_delete_app {A} k (l1 l2 : list (string * A)) :
  props_delete k (l1 ++ l2) = (props_delete k l1 ++ props_delete k l2)%list.
Proof. apply filter_app. Qed.

Lemma props_delete_map {A B} k (f : A → B) (l : list (string * A)) :
  props_delete k (map (λ p, (p.1, f p.2)) l) = map (λ p, (p.1, f p.2)) (props_delete k l).
Proof.
  induction l as [|[k0 v0] l IH]; [reflexivity|].
  cbn [map fst snd]. rewrite !props_delete_cons, IH.
  destruct (String.eqb k k0); reflexivity.
Qed.

(** [Object.assign] of attributes that the object does not have yet. *)
Lemma assign_fresh L attrs :
  NoDup attrs.*1 →
  Forall (λ a : string * jsval, array_index a.1 = None) attrs →
  (∀ k, k ∈ attrs.*1 → k ∉ L.*1) →
  assign (JObject L) (JObject attrs) = JObject (L ++ attrs)%list.
Proof.
  unfold assign. cbn [entries]. revert L.
  induction attrs as [|[a v] attrs IH]; intros L Hnodup Hplain Hfresh; cbn [fold_left].
  - rewrite app_nil_r. reflexivity.
  - apply NoDup_cons in Hnodup as [Ha Hnodup]. apply Forall_cons in Hplain as [Hindex Hplain].
    cbn [put fst snd]. rewrite props_set_append; [|exact Hindex|apply Hfresh; left].
    rewrite IH; [rewrite <- app_assoc; reflexivity|exact Hnodup|exact Hplain|].
    intros k Hk Hin. rewrite fmap_app in Hin. apply elem_of_app in Hin as [Hin|Hin].
    + apply (Hfresh k); [right; exact Hk | exact Hin].
    + apply list_elem_of_singleton in Hin. cbn in Hin. subst k. contradiction.
Qed.

Lemma merged_leaf x : is_object x = false → merged x = x.
Proof. destruct x; try discriminate; reflexivity. Qed.

Lemma own_object ps k : own (JObject ps) k = default JUndefined (props_get k ps).
Proof. reflexivity. Qed.

Lemma merge_key_attributes inner obj aliased hasParent newObj moved :
  merge_key inner obj aliased hasParent (newObj, moved) attributesKey =
  Return (remove (assign newObj (own (if aliased then newObj else obj) attributesKey))
            attributesKey, moved).
Proof. reflexivity. Qed.

Lemma merge_key_text inner obj aliased hasParent newObj moved :
  merge_key inner obj aliased hasParent (newObj, moved) textKey =
  Return (newObj,
          if hasParent then Some (own (if aliased then newObj else obj) textKey) else moved).
Proof. reflexivity. Qed.

Lemma merge_key_plain inner obj aliased hasParent newObj moved k :
  plain k = true →
  merge_key inner obj aliased hasParent (newObj, moved) k =
  if is_object (own (if aliased then newObj else obj) k) then
    r ← inner (own (if aliased then newObj else obj) k);
    Return (put (put newObj k (own (if aliased then newObj else obj) k)) k (default r.1 r.2),
            moved)
  else Return (put newObj k (own (if aliased then newObj else obj) k), moved).
Proof.
  unfold plain. intros [H1 H2]%andb_true_iff. apply negb_true_iff in H1, H2.
  unfold merge_key. rewrite H1, H2.
  destruct (is_object _); [|reflexivity].
  destruct (inner _) as [[child text]|e]; reflexivity.
Qed.

Lemma plain_cases k :
  k = attributesKey ∨ k = textKey ∨ plain k = true.
Proof.
  unfold plain. destruct (String.eqb k attributesKey) eqn:Ha.
  - left. apply String.eqb_eq. exact Ha.
  - destruct (String.eqb k textKey) eqn:Ht.
    + right. left. apply String.eqb_eq. exact Ht.
    + right. right. reflexivity.
Qed.

Lemma keys_mid {A} l1 (k : string) (x y : A) l2 l3 :
  (((l1 ++ [(k, y)]) ++ l2 ++ l3)%list).*1 = ((l1 ++ ((k, x) :: l2) ++ l3)%list).*1.
Proof. rewrite <- app_assoc, !fmap_app. reflexivity. Qed.

(** The loop of an inner call on an element: the entries [done] are
    merged, the entries [todo] are still to be visited, and [tail] was
    added by the attributes. *)
Lemma merge_object_loop (inner : jsval → completion (jsval * option jsval)) obj todo :
  ∀ done tail moved,
    NoDup ((done ++ todo ++ tail)%list).*1 →
    Forall (λ k, array_index k = None) ((done ++ todo ++ tail)%list).*1 →
    (∀ k x, (k, x) ∈ todo → plain k = true → is_object x = true →
       ∃ c t, inner x = Return (c, t) ∧ default c t = merged x) →
    (∀ a, (attributesKey, a) ∈ todo →
       ∃ attrs, a = JObject attrs ∧ NoDup attrs.*1 ∧
         Forall (λ p : string * jsval, array_index p.1 = None) attrs ∧
         ∀ k, k ∈ attrs.*1 → k ∉ ((done ++ todo ++ tail)%list).*1) →
    foldM (merge_key inner obj true true) todo.*1 (JObject (done ++ todo ++ tail)%list, moved)
    = Return (JObject (done ++ map merged_entry (props_delete attributesKey todo) ++ tail
                            ++ hoisted todo)%list,
              match props_get textKey todo with Some t => Some t | None => moved end).
Proof.
  induction todo as [|[k x] todo IH]; intros done tail moved Hnodup Hindex Hinner Hattrs.
  - cbn. rewrite app_nil_r. reflexivity.
  - rewrite fmap_cons. cbn [fst foldM].
    assert (NoDup done.*1 ∧ NoDup ((todo ++ tail)%list).*1 ∧
            (k ∉ done.*1) ∧ (k ∉ ((todo ++ tail)%list).*1) ∧
            ∀ y, y ∈ done.*1 → y ∉ ((todo ++ tail)%list).*1)
      as (Hnd1 & Hnd2 & Hdone & Hrest & Hapart).
    { rewrite fmap_app in Hnodup. apply NoDup_app in Hnodup as (Hnd1 & Hdisjoint & Hnodup).
      cbn in Hnodup. apply NoDup_cons in Hnodup as [Hrest Hnd2].
      split; [exact Hnd1|]. split; [exact Hnd2|]. split; [|split; [exact Hrest|]].
      - intros Hin. apply (Hdisjoint k Hin). left.
      - intros y Hy Hin. apply (Hdisjoint y Hy). right. exact Hin. }
    assert (array_index k = None ∧
            Forall (λ k, array_index k = None) done.*1 ∧
            Forall (λ k, array_index k = None) ((todo ++ tail)%list).*1) as (Hk & Hi1 & Hi2).
    { rewrite fmap_app in Hindex. apply Forall_app in Hindex as [Hi1 Hindex].
      cbn in Hindex. apply Forall_cons in Hindex as [Hk Hi2]. auto. }
    assert (own (JObject (done ++ ((k, x) :: todo) ++ tail)%list) k = x) as Hown.
    { rewrite own_object. cbn [app]. rewrite (props_get_mid _ _ _ _ Hdone). reflexivity. }
    assert (k ∉ todo.*1) as Htodo.
    { intros Hin. apply Hrest. rewrite fmap_app. apply elem_of_app. left. exact Hin. }
    destruct (plain_cases k) as [->|[->|Hplain]].
    + rewrite merge_key_attributes, Hown, Return_bind.
      destruct (Hattrs x) as (attrs & -> & Hnd & Hni & Hfresh); [left|].
      rewrite (assign_fresh _ _ Hnd Hni Hfresh). cbn [remove].
      assert (attributesKey ∉ attrs.*1) as Hself.
      { intros Hin. apply (Hfresh _ Hin). rewrite fmap_app. apply elem_of_app. right.
        cbn. left. }
      rewrite !props_delete_app, props_delete_cons, String.eqb_refl.
      rewrite <- props_delete_app.
      rewrite (props_delete_absent _ done Hdone), (props_delete_absent _ _ Hrest),
        (props_delete_absent _ attrs Hself).
      rewrite <- !app_assoc.
      rewrite (IH done (tail ++ attrs)%list moved).
      * unfold hoisted at 2. cbn [props_get]. rewrite String.eqb_refl. cbn [entries].
        unfold hoisted. rewrite (props_get_None _ _ Htodo).
        rewrite app_nil_r. reflexivity.
      * rewrite !app_assoc, fmap_app. apply NoDup_app. split; [|split; [|exact Hnd]].
        { rewrite <- app_assoc, fmap_app. apply NoDup_app. auto. }
        { intros y Hy Hin. apply (Hfresh y Hin).
          rewrite <- app_assoc, fmap_app in Hy. rewrite fmap_app. cbn.
          apply elem_of_app in Hy as [Hy|Hy]; apply elem_of_app; [left|right; right];
            exact Hy. }
      * rewrite !app_assoc, fmap_app. apply Forall_app. split.
        { rewrite <- app_assoc, fmap_app. apply Forall_app. auto. }
        { apply Forall_fmap. exact Hni. }
      * intros k' x' Hin. apply Hinner. right. exact Hin.
      * intros a Hin. exfalso. apply Htodo. apply list_elem_of_fmap.
        exists (attributesKey, a). split; [reflexivity | exact Hin].
    + rewrite merge_key_text, Hown, Return_bind.
      replace (done ++ ((textKey, x) :: todo) ++ tail)%list
        with ((done ++ [(textKey, x)]) ++ todo ++ tail)%list
        by (rewrite <- app_assoc; reflexivity).
      rewrite (IH (done ++ [(textKey, x)])%list tail (Some x)).
      * rewrite (props_get_None _ _ Htodo), <- app_assoc, props_delete_cons. reflexivity.
      * rewrite (keys_mid _ _ x). exact Hnodup.
      * rewrite (keys_mid _ _ x). exact Hindex.
      * intros k' x' Hin. apply Hinner. right. exact Hin.
      * intros a Hin.
        destruct (Hattrs a) as (attrs & Ha & Hnd & Hni & Hfresh); [right; exact Hin|].
        exists attrs. split; [exact Ha|]. split; [exact Hnd|]. split; [exact Hni|].
        rewrite (keys_mid _ _ x). exact Hfresh.
    + assert (String.eqb k textKey = false ∧ String.eqb attributesKey k = false)
        as [Hnot_text Hnot_attr].
      { pose proof Hplain as Hboth. unfold plain in Hboth.
        apply andb_true_iff in Hboth as [H1 H2]. apply negb_true_iff in H1, H2.
        split; [exact H2 | rewrite String.eqb_sym; exact H1]. }
      assert (put (JObject (done ++ ((k, x) :: todo) ++ tail)%list) k (merged x)
              = JObject ((done ++ [(k, merged x)]) ++ todo ++ tail)%list) as Hput.
      { cbn [put app]. rewrite (props_set_mid _ _ _ _ _ Hk Hdone), <- app_assoc.
        reflexivity. }
      assert (merge_key inner obj true true
                (JObject (done ++ ((k, x) :: todo) ++ tail)%list, moved) k
              = Return (JObject ((done ++ [(k, merged x)]) ++ todo ++ tail)%list, moved))
        as Hstep.
      { rewrite (merge_key_plain _ _ _ _ _ _ _ Hplain), Hown.
        assert (put (JObject (done ++ ((k, x) :: todo) ++ tail)%list) k x
                = JObject (done ++ ((k, x) :: todo) ++ tail)%list) as Hsame.
        { cbn [put app]. rewrite (props_set_mid _ _ _ _ _ Hk Hdone). reflexivity. }
        rewrite Hsame. destruct (is_object x) eqn:Hobject.
        - destruct (Hinner k x) as (c & t & -> & Hmerged); [left|exact Hplain|exact Hobject|].
          rewrite Return_bind. cbn [fst snd]. rewrite Hmerged, Hput. reflexivity.
        - rewrite (merged_leaf x Hobject), <- app_assoc. reflexivity. }
      rewrite Hstep, Return_bind.
      rewrite (IH (done ++ [(k, merged x)])%list tail moved).
      * rewrite props_delete_cons, Hnot_attr. cbn [map]. unfold merged_entry at 2.
        cbn [fst snd]. rewrite Hnot_text.
        cbn [props_get]. rewrite String.eqb_sym, Hnot_text.
        unfold hoisted. cbn [props_get]. rewrite Hnot_attr.
        rewrite <- !app_assoc. reflexivity.
      * rewrite (keys_mid _ _ x). exact Hnodup.
      * rewrite (keys_mid _ _ x). exact Hindex.
      * intros k' x' Hin. apply Hinner. right. exact Hin.
      * intros a Hin.
        destruct (Hattrs a) as (attrs & Ha & Hnd & Hni & Hfresh); [right; exact Hin|].
        exists attrs. split; [exact Ha|]. split; [exact Hnd|]. split; [exact Hni|].
        rewrite (keys_mid _ _ x). exact Hfresh.
Qed.

Lemma array_index_plain k i : array_index k = Some i → plain k = true.
Proof.
  intros Hk. destruct (plain_cases k) as [->|[->|Hplain]]; [discriminate.. | exact Hplain].
Qed.

Lemma index_keys_app from n m :
  index_keys from (n + m) = (index_keys from n ++ index_keys (from + n) m)%list.
Proof.
  revert from. induction n as [|n IH]; intros from; cbn.
  - rewrite Nat.add_0_r. reflexivity.
  - rewrite IH. replace (S from + n)%nat with (from + S n)%nat by lia. reflexivity.
Qed.

(** The loop of an inner call on an array: the items [done] are merged,
    the items [todo] are still to be visited. *)
Lemma merge_array_loop (inner : jsval → completion (jsval * option jsval)) obj todo :
  ∀ done moved,
    (N.of_nat (length (done ++ todo)%list) < 4294967295)%N →
    (∀ x, x ∈ todo → is_object x = true →
       ∃ c t, inner x = Return (c, t) ∧ default c t = merged x) →
    foldM (merge_key inner obj true true) (index_keys (length done) (length todo))
      (JArray (done ++ todo)%list, moved)
    = Return (JArray (done ++ map merged todo)%list, moved).
Proof.
  induction todo as [|x todo IH]; intros done moved Hlength Hinner.
  - cbn. reflexivity.
  - cbn [length index_keys foldM].
    assert (array_index (pretty (length done)) = Some (length done)) as Hk.
    { apply array_index_pretty. rewrite length_app in Hlength. cbn [length] in Hlength. lia. }
    assert (own (JArray (done ++ x :: todo)%list) (pretty (length done)) = x) as Hown.
    { unfold own, get. rewrite Hk, list_lookup_middle by reflexivity. reflexivity. }
    assert (∀ y, put (JArray (done ++ x :: todo)%list) (pretty (length done)) y
                 = JArray ((done ++ [y]) ++ todo)%list) as Hput.
    { intros y. cbn [put]. rewrite Hk.
      rewrite insert_app_r_alt by lia. rewrite Nat.sub_diag. cbn.
      rewrite <- app_assoc. reflexivity. }
    assert (merge_key inner obj true true (JArray (done ++ x :: todo)%list, moved)
              (pretty (length done))
            = Return (JArray ((done ++ [merged x]) ++ todo)%list, moved)) as Hstep.
    { rewrite (merge_key_plain _ _ _ _ _ _ _ (array_index_plain _ _ Hk)), Hown.
      destruct (is_object x) eqn:Hobject.
      - destruct (Hinner x) as (c & t & -> & Hmerged); [left|exact Hobject|].
        rewrite Return_bind. cbn [fst snd]. rewrite Hmerged, (Hput x).
        replace ((done ++ [x]) ++ todo)%list with (done ++ x :: todo)%list
          by (rewrite <- app_assoc; reflexivity).
        rewrite (Hput (merged x)). reflexivity.
      - rewrite (Hput x), (merged_leaf x Hobject). reflexivity. }
    rewrite Hstep, Return_bind.
    replace (S (length done)) with (length (done ++ [merged x])%list)
      by (rewrite length_app; cbn; lia).
    rewrite (IH (done ++ [merged x])%list moved).
    + rewrite <- app_assoc. reflexivity.
    + rewrite !length_app in Hlength. rewrite !length_app. cbn [length] in Hlength |- *. lia.
    + intros y Hy. apply Hinner. right. exact Hy.
Qed.

Lemma regular_object ps :
  regular (JObject ps) = true →
  NoDup ps.*1 ∧
  Forall (λ k, array_index k = None) ps.*1 ∧
  (∀ k x, (k, x) ∈ ps → plain k = true → regular x = true) ∧
  (∀ a, props_get attributesKey ps = Some a →
     ∃ attrs, a = JObject attrs ∧ NoDup attrs.*1 ∧
       Forall (λ p : string * jsval, array_index p.1 = None) attrs ∧
       ∀ k, k ∈ attrs.*1 → k ∉ ps.*1).
Proof.
  cbn [regular]. intros H.
  apply andb_true_iff in H as [H Hattrs]. apply andb_true_iff in H as [H Hchildren].
  apply andb_true_iff in H as [Hnodup Hindex].
  apply bool_decide_eq_true in Hnodup. split; [exact Hnodup|]. split; [|split].
  - apply Forall_fmap, Forall_forall. intros p Hp.
    rewrite forallb_forall in Hindex. specialize (Hindex p).
    rewrite <- list_elem_of_In in Hindex. specialize (Hindex Hp).
    apply bool_decide_eq_true in Hindex. exact Hindex.
  - intros k x Hin Hplain. rewrite forallb_forall in Hchildren.
    specialize (Hchildren (k, x)). rewrite <- list_elem_of_In in Hchildren.
    specialize (Hchildren Hin). cbn in Hchildren. rewrite Hplain in Hchildren. exact Hchildren.
  - intros a Ha. rewrite Ha in Hattrs. destruct a as [| |s|attrs|l]; try discriminate.
    apply andb_true_iff in Hattrs as [Hnd Hall]. apply bool_decide_eq_true in Hnd.
    exists attrs. split; [reflexivity|]. split; [exact Hnd|].
    rewrite forallb_forall in Hall. split.
    + apply Forall_forall. intros p Hp. specialize (Hall p).
      rewrite <- list_elem_of_In in Hall. specialize (Hall Hp).
      apply andb_true_iff in Hall as [Hi _]. apply bool_decide_eq_true in Hi. exact Hi.
    + intros k Hk. apply list_elem_of_fmap in Hk as (p & -> & Hp). specialize (Hall p).
      rewrite <- list_elem_of_In in Hall. specialize (Hall Hp).
      apply andb_true_iff in Hall as [_ Hfresh]. apply bool_decide_eq_true in Hfresh.
      exact Hfresh.
Qed.

Lemma props_get_NoDup {A} k (x : A) ps : NoDup ps.*1 → (k, x) ∈ ps → props_get k ps = Some x.
Proof.
  intros Hnodup Hin. apply list_elem_of_split in Hin as (l1 & l2 & ->).
  apply props_get_mid. rewrite fmap_app in Hnodup.
  apply NoDup_app in Hnodup as (_ & Hdisjoint & _). intros Hk.
  apply (Hdisjoint k Hk). left.
Qed.

Lemma regular_array items :
  regular (JArray items) = true →
  (∀ x, x ∈ items → regular x = true) ∧ (N.of_nat (length items) < 4294967295)%N.
Proof.
  cbn [regular]. intros [Hitems Hlength]%andb_true_iff. split.
  - intros x Hx. rewrite forallb_forall in Hitems. apply Hitems, list_elem_of_In, Hx.
  - apply N.ltb_lt. exact Hlength.
Qed.

(** An inner call leaves in its parent what [merged] says. *)
Lemma merge_inner_merged n :
  ∀ v, (height v < n)%nat → regular v = true → is_object v = true →
    ∃ c t, _mergeAttrAndText n v v true true = Return (c, t) ∧ default c t = merged v.
Proof.
  induction n as [|n IH]; intros v Hn Hregular Hobject; [lia|].
  destruct v as [| |s|ps|items]; try discriminate.
  - destruct (regular_object ps Hregular) as (Hnodup & Hindex & Hchildren & Hattrs).
    cbn [_mergeAttrAndText keys]. rewrite Return_bind.
    pose proof (merge_object_loop (λ attrs, _mergeAttrAndText n attrs attrs true true)
                  (JObject ps) ps [] [] None) as Hloop.
    cbn [app] in Hloop. rewrite !app_nil_r in Hloop. rewrite Hloop; clear Hloop.
    + eexists _, _. split; [reflexivity|]. cbn [merged].
      destruct (props_get textKey ps) as [text|] eqn:Htext; [reflexivity|].
      cbn [default]. f_equal. f_equal.
      rewrite props_delete_map. apply map_ext_in. intros [k x] Hin.
      unfold merged_entry. cbn [fst snd].
      destruct (String.eqb k textKey) eqn:Hk; [|reflexivity].
      apply String.eqb_eq in Hk. subst k. exfalso.
      apply list_elem_of_In, list_elem_of_filter in Hin as [_ Hin].
      rewrite (props_get_NoDup _ _ _ Hnodup Hin) in Htext. discriminate.
    + exact Hnodup.
    + exact Hindex.
    + intros k x Hin Hplain Hx. apply IH; [|apply (Hchildren k x Hin Hplain)|exact Hx].
      apply height_props in Hin. cbn in Hin, Hn. lia.
    + intros a Hin. apply Hattrs. apply props_get_NoDup; assumption.
  - destruct (regular_array items Hregular) as [Hitems Hlength].
    cbn [_mergeAttrAndText keys]. rewrite Return_bind.
    pose proof (merge_array_loop (λ attrs, _mergeAttrAndText n attrs attrs true true)
                  (JArray items) items [] None) as Hloop.
    cbn [app length] in Hloop. rewrite Hloop; clear Hloop.
    + eexists _, _. split; reflexivity.
    + exact Hlength.
    + intros x Hin Hx. apply IH; [|apply Hitems, Hin|exact Hx].
      apply height_items in Hin. cbn in Hn. lia.
Qed.

(** The loop of the outermost call: the entries are read from the
    object parsed and stored, merged, in the new object. *)
Lemma merge_top_loop (inner : jsval → completion (jsval * option jsval)) ps todo :
  ∀ done,
    NoDup ((done ++ todo)%list).*1 →
    Forall (λ k, array_index k = None) ((done ++ todo)%list).*1 →
    (∀ k x, (k, x) ∈ todo → plain k = true ∧ props_get k ps = Some x) →
    (∀ k x, (k, x) ∈ todo → is_object x = true →
       ∃ c t, inner x = Return (c, t) ∧ default c t = merged x) →
    foldM (merge_key inner (JObject ps) false false) todo.*1 (JObject done, None)
    = Return (JObject (done ++ map (λ p, (p.1, merged p.2)) todo)%list, None).
Proof.
  induction todo as [|[k x] todo IH]; intros done Hnodup Hindex Hread Hinner.
  - cbn. rewrite app_nil_r. reflexivity.
  - rewrite fmap_cons. cbn [fst foldM].
    destruct (Hread k x) as [Hplain Hget]; [left|].
    assert (k ∉ done.*1) as Hfresh.
    { rewrite fmap_app in Hnodup. apply NoDup_app in Hnodup as (_ & Hdisjoint & _).
      intros Hin. apply (Hdisjoint k Hin). left. }
    assert (array_index k = None) as Hk.
    { rewrite fmap_app in Hindex. apply Forall_app in Hindex as [_ Hindex].
      cbn in Hindex. apply Forall_cons in Hindex as [Hk _]. exact Hk. }
    assert (merge_key inner (JObject ps) false false (JObject done, None) k
            = Return (JObject (done ++ [(k, merged x)])%list, None)) as Hstep.
    { rewrite (merge_key_plain _ _ _ _ _ _ _ Hplain), own_object, Hget.
      change (default JUndefined (Some x)) with x. cbn [put].
      rewrite (props_set_append _ _ _ Hk Hfresh).
      destruct (is_object x) eqn:Hobject.
      - destruct (Hinner k x) as (c & t & -> & Hmerged); [left|exact Hobject|].
        rewrite Return_bind. cbn [fst snd]. rewrite Hmerged.
        rewrite (props_set_mid _ _ _ _ [] Hk Hfresh). reflexivity.
      - rewrite (merged_leaf x Hobject). reflexivity. }
    rewrite Hstep, Return_bind, (IH (done ++ [(k, merged x)])%list).
    + rewrite <- app_assoc. reflexivity.
    + rewrite <- app_assoc. rewrite !fmap_app in Hnodup |- *. exact Hnodup.
    + rewrite <- app_assoc. rewrite !fmap_app in Hindex |- *. exact Hindex.
    + intros k' x' Hin. apply Hread. right. exact Hin.
    + intros k' x' Hin. apply (Hinner k' x'). right. exact Hin.
Qed.

Section Merged.
Variable sax : string → completion report.

(** X19.  [_xml2Obj] as a function of the object that [xml2js] builds.  On a
    regular object whose outermost keys are element names, the merge gives,
    under each name, the element merged: an element that has text becomes
    that text, its attributes and children dropped; any other element
    becomes an object that holds its children, each merged, and then its
    attributes as properties of its own; the items of an array are merged
    one by one. *)
Theorem xml2Obj_merged xml ps :
  xml2js sax xml = Return (Tree (JObject ps)) →
  regular (JObject ps) = true →
  forallb (λ p : string * jsval, plain p.1) ps = true →
  _xml2Obj sax xml = Return (JObject (map (λ p, (p.1, merged p.2)) ps)).
Proof.
  intros Hparsed Hregular Hplain. unfold _xml2Obj. rewrite Hparsed, Return_bind.
  destruct (regular_object ps Hregular) as (Hnodup & Hindex & Hchildren & _).
  cbn [_mergeAttrAndText keys]. rewrite Return_bind.
  rewrite (merge_top_loop _ ps ps []); [reflexivity|exact Hnodup|exact Hindex| |].
  - intros k x Hin. split; [|apply props_get_NoDup; assumption].
    rewrite forallb_forall in Hplain. apply (Hplain (k, x)), list_elem_of_In, Hin.
  - intros k x Hin Hx. apply merge_inner_merged; [| |exact Hx].
    + apply height_props in Hin. cbn in Hin |- *. lia.
    + apply (Hchildren k x Hin). rewrite forallb_forall in Hplain.
      apply (Hplain (k, x)), list_elem_of_In, Hin.
Qed.
End Merged.

(** ** The merge never fails on what the builder makes *)













Section Builder.
Variable names : list string.








End Builder.

Section Reading.
Context {worksheet : Type}.
Variable sax : string → completion report.
Variable wb : WorkBook worksheet.

End Reading.

(** ** Load, transform, read *)

Section LoadTransformRead.
Context {worksheet number any St : Type}.
Variable sax : string → completion report.
Variable Number : jsval → number.
Variable key_of : number → key.
Variable XLSX_read : string → completion (WorkBook worksheet).
Variable sheet_to_json : option worksheet → sparse (sparse any).
Variable sheet_add_aoa : worksheet → sparse (sparse any) → worksheet.
Variable f : St → option File → cell number → any * St.

Lemma resolveImageLocations_names (wb : WorkBook worksheet) locationsMap :
  resolveImageLocations sax Number wb = Return locationsMap →
  ∀ name, name ∈ locationsMap.*1 ↔ name ∈ SheetNames wb.
Proof.
  intros Hresolve name. unfold resolveImageLocations in Hresolve.
  destruct (_resolveSheetMap sax wb) as [sheetMap|]; [|discriminate].
  rewrite Return_bind in Hresolve. unfold _resolveAllSheetImages in Hresolve.
  destruct (resolveAllSheetImages_entries sax Number wb _ _ _ _ Hresolve) as [Hin Hout].
  rewrite <- props_get_is_Some. split.
  - intros Hsome. destruct (decide (name ∈ SheetNames wb)) as [H|H]; [exact H|].
    rewrite (Hout _ H) in Hsome. destruct Hsome as [x Hx]. discriminate.
  - intros Hname. destruct (Hin _ Hname) as (sheet & images & _ & _ & ->). eauto.
Qed.

Lemma rewrite_step_frame locations (acc : sparse (sparse any) * St) (c : cell number) :
  (∀ l, l ∈ locations →
     (key_of (row c), key_of (col c)) ≠ (key_of (row (from l)), key_of (col (from l)))) →
  cell_get key_of (fold_left (rewrite_step key_of f) locations acc).1 c
  = cell_get key_of acc.1 c.
Proof.
  revert acc. induction locations as [|l locations IH]; intros acc Hall; [reflexivity|].
  cbn [fold_left]. rewrite IH by (intros l' Hl'; apply Hall; right; exact Hl').
  unfold rewrite_step. cbn [fst]. apply write_cell_other. apply Hall. left.
Qed.

End LoadTransformRead.

(** ** The images of a workbook *)

(** The loop over the sheet names, whichever way a sheet is resolved: when
    every sheet is declared and resolved, the loop returns a map that
    holds, under each name, the images of the sheet declared with it. *)
Lemma resolve_loop_returns {number}
    (resolve : jsval → completion (list (IImageMetadata number))) sheetMap names :
  (∀ n, n ∈ names → ∃ s imgs, map_get (JString n) sheetMap = Some s ∧
                                resolve (sheet_id s) = Return imgs) →
  ∀ acc, ∃ m,
    foldM (λ metadatasMap sheetName,
             match map_get (JString sheetName) sheetMap with
             | None => Throw (Error msg_sheet_not_found)
             | Some sheet =>
                 images ← resolve (sheet_id sheet);
                 Return (props_set sheetName images metadatasMap)
             end) names acc = Return m ∧
    (∀ n, n ∈ names → ∃ s imgs, map_get (JString n) sheetMap = Some s ∧
                                  resolve (sheet_id s) = Return imgs ∧
                                  props_get n m = Some imgs) ∧
    (∀ n, n ∉ names → props_get n m = props_get n acc).
Proof.
  induction names as [|n names IH]; intros Hall acc; cbn [foldM].
  - exists acc. split; [reflexivity|]. split; [intros n H; inversion H | reflexivity].
  - destruct (Hall n) as (s & imgs & Hs & Himgs); [left|].
    rewrite Hs, Himgs. cbn [mbind completion_bind].
    destruct (IH (λ n' Hn', Hall n' (list_elem_of_further _ _ _ Hn')) (props_set n imgs acc))
      as (m & Hm & Hin & Hout).
    exists m. split; [exact Hm|]. split.
    + intros n' Hn'. destruct (decide (n' ∈ names)) as [Hlater|Hlater]; [apply Hin, Hlater|].
      apply elem_of_cons in Hn' as [->|Hn']; [|contradiction].
      exists s, imgs. split; [exact Hs|]. split; [exact Himgs|].
      rewrite (Hout _ Hlater), props_get_props_set, String.eqb_refl. reflexivity.
    + intros n' Hn'. rewrite Hout by (intros H; apply Hn'; right; exact H).
      rewrite props_get_props_set.
      destruct (String.eqb n' n) eqn:Heq; [|reflexivity].
      apply String.eqb_eq in Heq. subst n'. exfalso. apply Hn'. left.
Qed.

Lemma resolve_loop_sheet {number}
    (resolve : jsval → completion (list (IImageMetadata number))) sheetMap names
    name sheet imgs :
  name ∈ names →
  map_get (JString name) sheetMap = Some sheet →
  resolve (sheet_id sheet) = Return imgs →
  (∀ n, n ∈ names → n ≠ name →
     ∃ s imgs', map_get (JString n) sheetMap = Some s ∧ resolve (sheet_id s) = Return imgs') →
  ∃ m,
    foldM (λ metadatasMap sheetName,
             match map_get (JString sheetName) sheetMap with
             | None => Throw (Error msg_sheet_not_found)
             | Some sheet =>
                 images ← resolve (sheet_id sheet);
                 Return (props_set sheetName images metadatasMap)
             end) names [] = Return m ∧
    props_get name m = Some imgs.
Proof.
  intros Hname Hsheet Himgs Hothers.
  destruct (resolve_loop_returns resolve sheetMap names)
    with (acc := @nil (string * list (IImageMetadata number))) as (m & Hm & Hin & _).
  - intros n Hn. destruct (decide (n = name)) as [->|Hne]; [eauto|].
    apply Hothers; assumption.
  - exists m. split; [exact Hm|].
    destruct (Hin name Hname) as (s & imgs' & Hs & Himgs' & Hget).
    rewrite Hsheet in Hs. injection Hs as <-.
    rewrite Himgs in Himgs'. injection Himgs' as <-. exact Hget.
Qed.

(** The last anchor of each relationship, when each has one. *)
Lemma forM_last_anchor {number B} (mk : jsval * string → IImageAnchor number → B)
    (parsed : list (jsval * IImageAnchor number)) views :
  (∀ v, v ∈ views → anchors_of v.1 parsed ≠ []) →
  forM (λ v : jsval * string,
          match last (anchors_of v.1 parsed) with
          | None => Throw ImageAnchorNotFoundError
          | Some a => Return (mk v a)
          end) views
  = Return (List.concat
              (map (λ v, map (mk v) (option_list (last (anchors_of v.1 parsed)))) views)).
Proof.
  induction views as [|v views IH]; intros Hall; cbn [forM map List.concat]; [reflexivity|].
  rewrite IH by (intros v' Hv'; apply Hall; right; exact Hv').
  destruct (last (anchors_of v.1 parsed)) as [a|] eqn:Hlast; [reflexivity|].
  exfalso. apply (Hall v); [left|]. apply last_None. exact Hlast.
Qed.

Section TwoCopies.
Context {worksheet number : Type}.
Variable sax : string → completion report.
Variable Number : jsval → number.
Variable wb : WorkBook worksheet.

Lemma resolveImageLocations_sheet sheetMap name sheet imgs :
  _resolveSheetMap sax wb = Return sheetMap →
  name ∈ SheetNames wb →
  map_get (JString name) sheetMap = Some sheet →
  _resolveSheetImages sax Number wb (sheet_id sheet) = Return imgs →
  (∀ n, n ∈ SheetNames wb → n ≠ name →
     ∃ s imgs', map_get (JString n) sheetMap = Some s ∧
                _resolveSheetImages sax Number wb (sheet_id s) = Return imgs') →
  ∃ locationsMap,
    resolveImageLocations sax Number wb = Return locationsMap ∧
    props_get name locationsMap = Some imgs.
Proof.
  intros Hmap Hname Hsheet Himgs Hothers.
  unfold resolveImageLocations. rewrite Hmap, Return_bind.
  apply (resolve_loop_sheet (_resolveSheetImages sax Number wb) sheetMap (SheetNames wb)
           name sheet imgs Hname Hsheet Himgs Hothers).
Qed.

Lemma legacy_resolveImageLocations_sheet sheetMap name sheet imgs :
  _resolveSheetMap sax wb = Return sheetMap →
  name ∈ SheetNames wb →
  map_get (JString name) sheetMap = Some sheet →
  legacy_resolveSheetImages sax Number wb (sheet_id sheet) = Return imgs →
  (∀ n, n ∈ SheetNames wb → n ≠ name →
     ∃ s imgs', map_get (JString n) sheetMap = Some s ∧
                legacy_resolveSheetImages sax Number wb (sheet_id s) = Return imgs') →
  ∃ locationsMap,
    legacy_resolveImageLocations sax Number wb = Return locationsMap ∧
    props_get name locationsMap = Some imgs.
Proof.
  intros Hmap Hname Hsheet Himgs Hothers.
  unfold legacy_resolveImageLocations. rewrite Hmap, Return_bind.
  apply (resolve_loop_sheet (legacy_resolveSheetImages sax Number wb) sheetMap (SheetNames wb)
           name sheet imgs Hname Hsheet Himgs Hothers).
Qed.

(** C4.  A sheet whose drawing holds two-cell anchors only, each with a
    [to] pair, and whose relationships each have an id, a target and at
    least one anchor, in a workbook whose other sheets are resolved by
    both copies of the resolver.  The copy of src/unnamed/part_000
    resolves the workbook, and the entries of the sheet are, relationship
    by relationship, the file of the relationship at every anchor that
    references it, in anchor-list order: N entries for N anchors.  The
    copy of src/src/excel/image.ts resolves the workbook as well, and
    the entries of the sheet are, relationship by relationship, the file
    of the relationship at the last anchor that references it: one
    entry, whatever N is. *)
Theorem fan_out_in_the_two_copies
    sheetMap name sheet dx dr wsDr anchors parsed rels views :
  _resolveSheetMap sax wb = Return sheetMap →
  name ∈ SheetNames wb →
  map_get (JString name) sheetMap = Some sheet →
  (∀ n, n ∈ SheetNames wb → n ≠ name →
     ∃ s imgs imgs',
       map_get (JString n) sheetMap = Some s ∧
       _resolveSheetImages sax Number wb (sheet_id s) = Return imgs ∧
       legacy_resolveSheetImages sax Number wb (sheet_id s) = Return imgs') →
  _resolveDrawing sax wb (sheet_id sheet) = Return (Some (dx, dr)) →
  get dx "xdr:wsDr" = Return wsDr →
  get wsDr "xdr:twoCellAnchor" = Return (JArray anchors) →
  truthy (own wsDr "xdr:oneCellAnchor") = false →
  (∀ anchor, anchor ∈ anchors → truthy (own anchor "xdr:to") = true) →
  forM (read_anchor Number) anchors = Return parsed →
  relationships_of dr = Return rels →
  Forall2 is_relationship rels views →
  (∀ v, v ∈ views → anchors_of v.1 parsed ≠ []) →
  (∃ locationsMap,
     resolveImageLocations sax Number wb = Return locationsMap ∧
     props_get name locationsMap
     = Some (List.concat
               (map (λ v, located (media wb v.2) (anchors_of v.1 parsed)) views))) ∧
  (∃ locationsMap,
     legacy_resolveImageLocations sax Number wb = Return locationsMap ∧
     props_get name locationsMap
     = Some (List.concat
               (map (λ v, located (media wb v.2) (option_list (last (anchors_of v.1 parsed))))
                    views))).
Proof.
  intros Hmap Hname Hsheet Hothers Hd Hws Htwo Hone Hto Hp Hr Hv Hall.
  assert (image_anchors dx = Return anchors) as Ha.
  { unfold image_anchors. rewrite Hws, !Return_bind, Htwo, !Return_bind.
    rewrite (get_defined wsDr "xdr:oneCellAnchor" (get_Return_defined _ _ _ Htwo)).
    rewrite Return_bind. unfold or_else. rewrite Hone. reflexivity. }
  split.
  - apply (resolveImageLocations_sheet sheetMap name sheet _ Hmap Hname Hsheet).
    + apply (resolveSheetImages_located sax Number wb _ _ _ _ _ _ _ Hd Ha Hp Hr Hv Hall).
    + intros n Hn Hne. destruct (Hothers n Hn Hne) as (s & imgs & _ & Hs & Himgs & _). eauto.
  - apply (legacy_resolveImageLocations_sheet sheetMap name sheet _ Hmap Hname Hsheet).
    + unfold legacy_resolveSheetImages. rewrite Hd, Return_bind.
      assert (forM (legacy_read_anchor Number) anchors = Return parsed) as Hlegacy.
      { rewrite <- Hp. symmetry. apply forM_ext_in. intros anchor Hin.
        apply read_anchor_two_cell, Hto, Hin. }
      unfold legacy_drawing_images. rewrite Hws, Return_bind, Htwo, Return_bind.
      cbn [elements]. rewrite Return_bind, Hlegacy, Return_bind, Hr, Return_bind.
      unfold located.
      rewrite <- (forM_last_anchor
                    (λ (v : jsval * string) (a : IImageAnchor number),
                       {| file := media wb v.2; from := anchor_from a; to := anchor_to a |})
                    parsed views Hall).
      clear Hr Hall. induction Hv as [|r v rels views Hrv _ IH]; cbn [forM]; [reflexivity|].
      rewrite (legacy_relationship_image_spec wb parsed r v Hrv), IH. reflexivity.
    + intros n Hn Hne. destruct (Hothers n Hn Hne) as (s & _ & imgs' & Hs & _ & Himgs'). eauto.
Qed.

(** C10, as the program has it.  A sheet whose drawing is located, whose
    anchors are all read and whose relationships each have an id, a
    target and at least one anchor, in a workbook whose other sheets are
    resolved.  A relationship of the drawing whose media part is absent
    from the package does not make the resolution fail: the resolver
    returns its map, and the entries of the relationship, one for each of
    its anchors, are emitted with a null file, between the entries of
    the relationships before it and those of the relationships after
    it. *)
Theorem resolve_missing_media
    sheetMap name sheet dx dr anchors parsed rels before v after :
  _resolveSheetMap sax wb = Return sheetMap →
  name ∈ SheetNames wb →
  map_get (JString name) sheetMap = Some sheet →
  (∀ n, n ∈ SheetNames wb → n ≠ name →
     ∃ s imgs, map_get (JString n) sheetMap = Some s ∧
               _resolveSheetImages sax Number wb (sheet_id s) = Return imgs) →
  _resolveDrawing sax wb (sheet_id sheet) = Return (Some (dx, dr)) →
  image_anchors dx = Return anchors →
  forM (read_anchor Number) anchors = Return parsed →
  relationships_of dr = Return rels →
  Forall2 is_relationship rels (before ++ v :: after) →
  (∀ v', v' ∈ (before ++ v :: after)%list → anchors_of v'.1 parsed ≠ []) →
  files wb !! ("xl/media/" +:+ basename v.2) = None →
  ∃ locationsMap,
    resolveImageLocations sax Number wb = Return locationsMap ∧
    props_get name locationsMap
    = Some (List.concat (map (λ v', located (media wb v'.2) (anchors_of v'.1 parsed)) before) ++
            map (λ a, {| file := None; from := anchor_from a; to := anchor_to a |})
                (anchors_of v.1 parsed) ++
            List.concat (map (λ v', located (media wb v'.2) (anchors_of v'.1 parsed)) after))%list.
Proof.
  intros Hmap Hname Hsheet Hothers Hd Ha Hp Hr Hv Hall Habsent.
  destruct (resolveImageLocations_sheet sheetMap name sheet _ Hmap Hname Hsheet
              (resolveSheetImages_located sax Number wb _ _ _ _ _ _ _ Hd Ha Hp Hr Hv Hall)
              Hothers) as (locationsMap & Hresolve & Hget).
  exists locationsMap. split; [exact Hresolve|]. rewrite Hget.
  rewrite map_app, concat_app. cbn [map List.concat].
  rewrite (media_absent wb _ Habsent). reflexivity.
Qed.
End TwoCopies.

(** ** The order of the callbacks *)

(** The anchors of a drawing whose two collections are arrays: the
    one-cell anchors, then the two-cell anchors. *)
Lemma image_anchors_concat dx wsDr ones twos anchors :
  get dx "xdr:wsDr" = Return wsDr →
  or_else (own wsDr "xdr:oneCellAnchor") (JArray []) = JArray ones →
  or_else (own wsDr "xdr:twoCellAnchor") (JArray []) = JArray twos →
  image_anchors dx = Return anchors →
  anchors = (ones ++ twos)%list.
Proof.
  intros Hws Hones Htwos. unfold image_anchors. rewrite Hws, !Return_bind.
  destruct (get wsDr "xdr:twoCellAnchor") as [two|e] eqn:Htwo; [|discriminate].
  rewrite !Return_bind.
  rewrite (get_defined wsDr "xdr:oneCellAnchor" (get_Return_defined _ _ _ Htwo)), Return_bind.
  rewrite (get_own _ _ _ Htwo), Hones, Htwos. cbn. intros [= <-]. reflexivity.
Qed.

Section CallbackOrder.
Context {worksheet number any St : Type}.
Variable sax : string → completion report.
Variable Number : jsval → number.
Variable key_of : number → key.
Variable sheet_to_json : option worksheet → sparse (sparse any).
Variable sheet_add_aoa : worksheet → sparse (sparse any) → worksheet.
Variable f : St → option File → cell number → any * St.

(** The images of a sheet of the resolved map are those of the drawing of
    the sheet: none without a drawing, and else, relationship by
    relationship in the order of the table, the file of the relationship
    at each anchor that references it, the one-cell anchors before the
    two-cell anchors and each kind in the order of its array. *)
Lemma resolved_sheet_images (wb : WorkBook worksheet) locationsMap sheetMap name locations sheet :
  resolveImageLocations sax Number wb = Return locationsMap →
  (name, locations) ∈ locationsMap →
  _resolveSheetMap sax wb = Return sheetMap →
  map_get (JString name) sheetMap = Some sheet →
  (_resolveDrawing sax wb (sheet_id sheet) = Return None → locations = []) ∧
  (∀ dx dr wsDr ones twos parsed rels views,
     _resolveDrawing sax wb (sheet_id sheet) = Return (Some (dx, dr)) →
     get dx "xdr:wsDr" = Return wsDr →
     or_else (own wsDr "xdr:oneCellAnchor") (JArray []) = JArray ones →
     or_else (own wsDr "xdr:twoCellAnchor") (JArray []) = JArray twos →
     forM (read_anchor Number) (ones ++ twos) = Return parsed →
     relationships_of dr = Return rels →
     Forall2 is_relationship rels views →
     locations
     = List.concat (map (λ v, located (media wb v.2) (anchors_of v.1 parsed)) views)).
Proof.
  intros Hresolve Hin Hmap Hsheet.
  assert (_resolveSheetImages sax Number wb (sheet_id sheet) = Return locations) as Himages.
  { pose proof (resolveImageLocations_NoDup sax Number wb _ Hresolve) as Hnodup.
    pose proof (props_get_NoDup _ _ _ Hnodup Hin) as Hget.
    unfold resolveImageLocations in Hresolve. rewrite Hmap, Return_bind in Hresolve.
    unfold _resolveAllSheetImages in Hresolve.
    destruct (resolveAllSheetImages_entries sax Number wb _ _ _ _ Hresolve) as [Hentries Hout].
    destruct (decide (name ∈ SheetNames wb)) as [Hname|Hname].
    - destruct (Hentries name Hname) as (s & imgs & Hs & Himgs & Hget').
      rewrite Hsheet in Hs. injection Hs as <-.
      rewrite Hget in Hget'. injection Hget' as <-. exact Himgs.
    - rewrite (Hout name Hname) in Hget. discriminate. }
  split.
  - intros Hnone. unfold _resolveSheetImages in Himages. rewrite Hnone in Himages.
    injection Himages as <-. reflexivity.
  - intros dx dr wsDr ones twos parsed rels views Hd Hws Hones Htwos Hp Hr Hv.
    assert (image_anchors dx = Return (ones ++ twos)%list) as Ha.
    { unfold _resolveSheetImages in Himages. rewrite Hd, Return_bind in Himages.
      unfold drawing_images in Himages.
      destruct (image_anchors dx) as [anchors|e] eqn:Ha; [|discriminate].
      rewrite (image_anchors_concat _ _ _ _ _ Hws Hones Htwos Ha). reflexivity. }
    rewrite (resolveSheetImages_spec sax Number wb _ _ _ _ _ _ _ Hd Ha Hp Hr Hv) in Himages.
    destruct (forM (images_of wb parsed) views) as [l|e] eqn:Hl; [|discriminate].
    injection Himages as <-. rewrite (forM_images_of_Return wb _ _ _ Hl). reflexivity.
Qed.

(** C6, as the program has it.  Once the resolver has returned its map
    and every sheet of the map is in the workbook, a transform whose
    callback resolves completes, and:
    - the callback has run once on each image of the map, in the order
      of the map (sheet by sheet in the enumeration order of the map,
      the images of a sheet in the order resolved), each time on the
      file and the [from] cell of the image and in the state its
      predecessor left;
    - the images of a sheet are in the order of the relationships of its
      drawing and, for one relationship, in that of the anchors that
      reference it, the one-cell anchors before the two-cell anchors and
      each kind in the order of its array; a sheet without a drawing has
      none;
    - the worksheet of each sheet of the map is the one it was with the
      grid added in which, image by image, the string of the callback
      is written at the [from] cell;
    - such a write is read back at the [from] cell and changes no other
      cell, hence not the [to] cell when it is another one. *)
Theorem transform_callbacks_and_writes (this : @Excel worksheet) resolver wb locationsMap st :
  imageResolver this = Some resolver →
  workbook this = Some wb →
  resolveImageLocations sax Number (resolver_workbook resolver) = Return locationsMap →
  (∀ name, name ∈ locationsMap.*1 → is_Some (Sheets wb !! name)) →
  ∃ sheets,
    transformImagesToStr sax Number key_of sheet_to_json sheet_add_aoa (resolving f) this st
      = (Return (), with_workbook this (with_Sheets wb sheets),
         state_after f (callbacks locationsMap) st) ∧
    (∀ name locations sheetMap sheet,
       (name, locations) ∈ locationsMap →
       _resolveSheetMap sax (resolver_workbook resolver) = Return sheetMap →
       map_get (JString name) sheetMap = Some sheet →
       (_resolveDrawing sax (resolver_workbook resolver) (sheet_id sheet) = Return None →
        locations = []) ∧
       (∀ dx dr wsDr ones twos parsed rels views,
          _resolveDrawing sax (resolver_workbook resolver) (sheet_id sheet)
            = Return (Some (dx, dr)) →
          get dx "xdr:wsDr" = Return wsDr →
          or_else (own wsDr "xdr:oneCellAnchor") (JArray []) = JArray ones →
          or_else (own wsDr "xdr:twoCellAnchor") (JArray []) = JArray twos →
          forM (read_anchor Number) (ones ++ twos) = Return parsed →
          relationships_of dr = Return rels →
          Forall2 is_relationship rels views →
          locations
          = List.concat
              (map (λ v, located (media (resolver_workbook resolver) v.2)
                           (anchors_of v.1 parsed)) views))) ∧
    (∀ i name locations,
       locationsMap !! i = Some (name, locations) →
       ∃ sheet, Sheets wb !! name = Some sheet ∧
         sheets !! name
         = Some (sheet_add_aoa sheet
                   (fold_left (rewrite_step key_of f) locations
                      (sheet_to_json (Some sheet),
                       state_after f (callbacks (take i locationsMap)) st)).1)) ∧
    (∀ name, name ∉ locationsMap.*1 → sheets !! name = Sheets wb !! name) ∧
    (∀ (data : sparse (sparse any)) (l : IImageMetadata number) (str : any),
       cell_get key_of (write_cell key_of data (from l) str) (from l) = Some str ∧
       ∀ c, (key_of (row c), key_of (col c))
              ≠ (key_of (row (from l)), key_of (col (from l))) →
            cell_get key_of (write_cell key_of data (from l) str) c
            = cell_get key_of data c).
Proof.
  intros Hresolver Hwb Hresolve Hall.
  exists (fold_left (rewrite_sheet key_of sheet_to_json sheet_add_aoa f) locationsMap
            (Sheets wb, st)).1.
  split; [|split; [|split; [|split]]].
  - unfold transformImagesToStr. rewrite Hresolver, Hresolve.
    rewrite (transform_sheets_resolving key_of sheet_to_json sheet_add_aoa f
               locationsMap this wb st Hwb Hall).
    rewrite (rewrite_sheet_state key_of sheet_to_json sheet_add_aoa f) by exact Hall.
    reflexivity.
  - intros name locations sheetMap sheet Hin Hmap Hsheet.
    apply (resolved_sheet_images _ locationsMap sheetMap name locations sheet
             Hresolve Hin Hmap Hsheet).
  - intros i name locations Hi.
    apply (rewrite_sheet_lookup key_of sheet_to_json sheet_add_aoa f); [|exact Hall|exact Hi].
    eapply resolveImageLocations_NoDup. exact Hresolve.
  - intros name Hname.
    apply (rewrite_sheet_untouched key_of sheet_to_json sheet_add_aoa f). exact Hname.
  - intros data l str. split; [apply write_cell_read|].
    intros c Hc. apply write_cell_other. exact Hc.
Qed.
End CallbackOrder.

(** ** A write beyond the rows of the grid *)

Section WriteBeyond.
Context {number any St : Type}.
Variable key_of : number → key.
Variable cb : St → option File → cell number → completion any * St.

(** C8.  When the loop over the images of a sheet comes to an image whose
    [from] row lies beyond the rows of the grid, and the callback
    resolves, the loop does not fail: it goes on to the images that
    follow with a grid that is extended up to that row, in which the rows
    there were are as they were, the rows in between are holes, and the
    row at the index is a new row that holds the string of the callback
    at the [from] column. *)
Theorem transform_write_grows (l : IImageMetadata number) rest
    (data : sparse (sparse any)) st str st1 i :
  cb st (file l) (from l) = (Return str, st1) →
  key_of (row (from l)) = Index i →
  (length (slots data) ≤ i)%nat →
  ∃ data',
    transform_locations key_of cb (l :: rest) data st
    = transform_locations key_of cb rest data' st1 ∧
    length (slots data') = S i ∧
    arr_get data' (Index i) = Some (arr_set new_array (key_of (col (from l))) str) ∧
    cell_get key_of data' (from l) = Some str ∧
    (∀ j, (j < length (slots data))%nat → slots data' !! j = slots data !! j) ∧
    (∀ j, (length (slots data) ≤ j < i)%nat → arr_get data' (Index j) = None).
Proof.
  intros Hcb Hrow Hlen. exists (write_cell key_of data (from l) str). split.
  - cbn [transform_locations]. rewrite Hcb. reflexivity.
  - apply (write_cell_grows key_of data (from l) str i Hrow Hlen).
Qed.
End WriteBeyond.

(** ** The grid read back after a transform *)

Section ReadBack.
Context {worksheet number any St : Type}.
Variable sax : string → completion report.
Variable Number : jsval → number.
Variable key_of : number → key.
Variable XLSX_read : string → completion (WorkBook worksheet).
Variable sheet_to_json : option worksheet → sparse (sparse any).
Variable sheet_add_aoa : worksheet → sparse (sparse any) → worksheet.
Variable f : St → option File → cell number → any * St.
(** The worksheets whose range starts at the first cell of the sheet. *)
Variable anchored : worksheet → Prop.
(** The cell values that are strings. *)
Variable text : any → Prop.

(** X21.  The use the README shows, run to its end, on worksheets whose
    range starts at the first cell of the sheet and with a callback that
    resolves to strings.  Provided that, on such a worksheet, a string
    that the grid added holds at an array index of an array index is read
    back by [sheet_to_json] at the same place: after a load, a transform
    and a call of [getData], the grid of a sheet holds at the [from] cell
    of an image the string the callback resolved to for that image,
    unless a later image of the sheet has the same [from] cell. *)
Theorem load_transform_getData buffer wb locationsMap st i name pre l post r c :
  XLSX_read buffer = Return wb →
  resolveImageLocations sax Number wb = Return locationsMap →
  (∀ n, n ∈ SheetNames wb → ∃ sheet, Sheets wb !! n = Some sheet ∧ anchored sheet) →
  (∀ sheet data (at_ : cell number) r' c' s,
     anchored sheet →
     key_of (row at_) = Index r' → key_of (col at_) = Index c' →
     text s →
     cell_get key_of data at_ = Some s →
     cell_get key_of (sheet_to_json (Some (sheet_add_aoa sheet data))) at_ = Some s) →
  (∀ st file at_, text (f st file at_).1) →
  locationsMap !! i = Some (name, (pre ++ l :: post)%list) →
  key_of (row (from l)) = Index r →
  key_of (col (from l)) = Index c →
  (∀ l', l' ∈ post →
     (key_of (row (from l)), key_of (col (from l)))
     ≠ (key_of (row (from l')), key_of (col (from l')))) →
  ∃ this1 this2 grids data,
    load XLSX_read new_Excel buffer = Return this1 ∧
    transformImagesToStr sax Number key_of sheet_to_json sheet_add_aoa (resolving f) this1 st
      = (Return (), this2, state_after f (callbacks locationsMap) st) ∧
    getData sheet_to_json this2 = Return grids ∧
    (name, data) ∈ grids ∧
    cell_get key_of data (from l)
    = Some (f (state_after f
                 (callbacks (take i locationsMap) ++ map (λ l, (file l, from l)) pre)%list st)
              (file l) (from l)).1.
Proof.
  intros Hread Hresolve Hsheets Hback Htext Hi Hr Hc Hlater.
  pose proof (resolveImageLocations_names sax Number wb locationsMap Hresolve) as Hnames.
  assert (name ∈ locationsMap.*1) as Hname.
  { apply list_elem_of_fmap. exists (name, (pre ++ l :: post)%list).
    split; [reflexivity|]. eapply list_elem_of_lookup_2. exact Hi. }
  assert (∀ n, n ∈ locationsMap.*1 → is_Some (Sheets wb !! n)) as Hall.
  { intros n Hn. destruct (Hsheets n) as (sheet & -> & _); [apply Hnames, Hn | eauto]. }
  set (this1 := {| workbook := Some wb;
                   imageResolver := Some {| resolver_workbook := wb |} |}).
  pose proof (transform_sheets_resolving key_of sheet_to_json sheet_add_aoa f locationsMap
                this1 wb st eq_refl Hall) as Hrun.
  rewrite (rewrite_sheet_state key_of sheet_to_json sheet_add_aoa f _ _ _ Hall) in Hrun.
  destruct (rewrite_sheet_lookup key_of sheet_to_json sheet_add_aoa f locationsMap (Sheets wb)
              st i name _ (resolveImageLocations_NoDup sax Number wb _ Hresolve) Hall Hi)
    as (sheet & Hsheet & Hfinal).
  assert (anchored sheet) as Hanchored.
  { destruct (Hsheets name) as (sheet' & Hsheet' & Hanchored); [apply Hnames, Hname|].
    rewrite Hsheet in Hsheet'. injection Hsheet' as <-. exact Hanchored. }
  eexists this1, _, _, _. split; [unfold load; rewrite Hread; reflexivity|].
  split; [unfold transformImagesToStr; cbn [imageResolver this1 resolver_workbook];
          rewrite Hresolve; exact Hrun|].
  split; [apply (getData_loaded sheet_to_json); reflexivity|]. split.
  - apply list_elem_of_fmap. exists name. split; [|apply Hnames, Hname].
    cbn [Sheets with_Sheets]. rewrite Hfinal. reflexivity.
  - apply (Hback sheet _ (from l) r c _ Hanchored Hr Hc); [apply Htext|].
    rewrite fold_left_app. cbn [fold_left].
    rewrite (rewrite_step_frame key_of f) by exact Hlater.
    unfold rewrite_step at 1. cbn [fst]. rewrite write_cell_read.
    rewrite (rewrite_step_state key_of f). unfold state_after. rewrite fold_left_app.
    reflexivity.
Qed.
End ReadBack.

(** ** The parser of the worked packages *)

(** The parser reads back every document it is given: the text of a part
    of a worked package is a text it knows. *)
Lemma sax_for_listed docs d :
  d ∈ docs → ∃ d', sax_for docs (show d) = Return (Closed [d']) ∧ show d' = show d.
Proof.
  intros Hin. unfold sax_for.
  destruct (List.find (λ d', String.eqb (show d') (show d)) docs) as [d'|] eqn:Hfind.
  - apply find_some in Hfind as [_ Heq%String.eqb_eq]. eauto.
  - exfalso. apply list_elem_of_In in Hin. apply (find_none _ _ Hfind d) in Hin.
    rewrite String.eqb_refl in Hin. discriminate.
Qed.

(** ** The worksheets of the worked packages *)

Lemma strip_holes_lookup {A} (l : list (option A)) i :
  mjoin (strip_holes l !! i) = mjoin (l !! i).
Proof.
  revert i. induction l as [|x l IH]; intros i; [reflexivity|]. cbn [strip_holes].
  destruct x as [a|].
  - destruct i; cbn; [reflexivity | apply IH].
  - destruct (strip_holes l) as [|y rest] eqn:Hrest.
    + destruct i; cbn; [reflexivity|]. rewrite <- IH. reflexivity.
    + destruct i; cbn; [reflexivity | apply IH].
Qed.

Lemma elem_of_written (data : demo_grid) r c v :
  ((r, c), v) ∈ written data ↔
  ∃ cells, slots data !! r = Some (Some cells) ∧ slots cells !! c = Some (Some v).
Proof.
  unfold written. rewrite list_elem_of_bind. split.
  - intros ([r' cells'] & Hin & Hrow).
    apply elem_of_lookup_imap in Hrow as (i & y & [= -> ->] & Hy).
    destruct y as [cells|]; [|inversion Hin]. exists cells.
    apply list_elem_of_omap in Hin as ([c' v'] & Hc & Hv).
    apply elem_of_lookup_imap in Hc as (j & z & [= -> ->] & Hz).
    destruct z as [s|]; [|discriminate]. injection Hv as -> -> ->. split; assumption.
  - intros (cells & Hrow & Hcell). exists (r, Some cells). split.
    + apply list_elem_of_omap. exists (c, Some v). split; [|reflexivity].
      apply elem_of_lookup_imap. eauto.
    + apply elem_of_lookup_imap. eauto.
Qed.

(** After the cells are written one after the other, each holds the value
    written to it, when no cell is written two values. *)
Lemma write_all (W : list ((nat * nat) * string)) ws k v :
  (∀ k v v', (k, v) ∈ W → (k, v') ∈ W → v = v') →
  (k, v) ∈ W →
  sheet_cells (fold_left write W ws) !! k = Some v.
Proof.
  induction W as [|[k' v'] W IH] using rev_ind; intros Hfun Hin; [inversion Hin|].
  rewrite fold_left_app. cbn [fold_left write sheet_cells fst snd].
  destruct (decide (k' = k)) as [->|Hne].
  - rewrite lookup_insert_eq. f_equal. apply (Hfun k); [|exact Hin].
    apply elem_of_app. right. left.
  - rewrite lookup_insert_ne by exact Hne.
    apply elem_of_app in Hin as [Hin|Hin].
    + apply IH; [|exact Hin]. intros k0 v0 v1 H0 H1.
      apply (Hfun k0); apply elem_of_app; left; assumption.
    + apply list_elem_of_singleton in Hin. congruence.
Qed.

(** A range that starts at the first cell still does after the writes,
    and holds every cell written. *)
Lemma write_range (W : list ((nat * nat) * string)) ws e :
  sheet_ref ws = Some ((0, 0), e) →
  ∃ r1 c1, sheet_ref (fold_left write W ws) = Some ((0, 0), (r1, c1)) ∧
    ∀ (r c : nat) v, ((r, c), v) ∈ W → (r ≤ r1)%nat ∧ (c ≤ c1)%nat.
Proof.
  intros Href. induction W as [|[[r' c'] v'] W IH] using rev_ind.
  - destruct e as [r1 c1]. exists r1, c1. split; [exact Href|]. intros r c v H. inversion H.
  - destruct IH as (r1 & c1 & Hrange & Hheld).
    rewrite fold_left_app. cbn [fold_left write sheet_ref fst snd]. rewrite Hrange.
    exists (r1 `max` r'), (c1 `max` c'). split; [reflexivity|].
    intros r c v [Hin|Hin]%elem_of_app.
    + destruct (Hheld r c v Hin). lia.
    + apply list_elem_of_singleton in Hin. injection Hin as -> -> ->. lia.
Qed.

(** On a worksheet whose range starts at the first cell, a string that the
    grid added holds at an array index of an array index is read back at
    the same place. *)
Lemma demo_round_trip (sheet : demo_sheet) (data : demo_grid) (at_ : cell (option N))
    r c s e :
  sheet_ref sheet = Some ((0, 0), e) →
  key_decimal (row at_) = Index r →
  key_decimal (col at_) = Index c →
  cell_get key_decimal data at_ = Some s →
  cell_get key_decimal (demo_to_json (Some (demo_add_aoa sheet data))) at_ = Some s.
Proof.
  intros Href Hr Hc. unfold cell_get. rewrite Hr, Hc. cbn [arr_get].
  destruct (slots data !! r) as [[cells|]|] eqn:Hrow; try discriminate.
  cbn. intros Hcell.
  assert (slots cells !! c = Some (Some s)) as Hcell'.
  { destruct (slots cells !! c) as [[x|]|]; cbn in Hcell; congruence. }
  assert (((r, c), s) ∈ written data) as Hin by (apply elem_of_written; eauto).
  destruct (write_range (written data) sheet e Href) as (r1 & c1 & Hrange & Hheld).
  destruct (Hheld r c s Hin) as [Hr1 Hc1].
  unfold demo_to_json, demo_add_aoa. cbn [mbind option_bind]. rewrite Hrange.
  cbn [slots]. rewrite Nat.sub_0_r.
  rewrite list_lookup_fmap, lookup_seq_lt by lia. cbn -[strip_holes seq].
  rewrite strip_holes_lookup, list_lookup_fmap, lookup_seq_lt by lia. cbn.
  apply write_all; [|exact Hin].
  intros [r' c'] v v' [cells1 [H1 H1']]%elem_of_written [cells2 [H2 H2']]%elem_of_written.
  congruence.
Qed.

(** * The worked packages, run *)

Example resolve_scenario :
  resolveImageLocations (demo_sax parts_scenario) Number_decimal
    (demo_book ["Data"] parts_scenario image1)
  = Return [("Data", [{| file := Some {| file_name := "image1.png"; file_bits := "PNG1" |};
                         from := {| row := Some 2%N; col := Some 1%N |};
                         to := {| row := Some 4%N; col := Some 3%N |} |}])].
Proof. vm_compute. reflexivity. Qed.

(** *** One image referenced by two anchors *)

(** C4 at work.  In the shared drawing [rId1] is referenced by the anchors
    at rows 2 and 9.  The copy of src/unnamed/part_000 gives it two
    entries, with the bytes of [image1.png] and the corners of each
    anchor; the copy of src/src/excel/image.ts gives it one, with the
    corners of the anchor at row 9. *)
Lemma fan_out_in_the_two_copies_shared :
  (∃ locationsMap,
     resolveImageLocations sax_shared Number_decimal book_shared = Return locationsMap ∧
     props_get "Data" locationsMap
     = Some [ {| file := Some {| file_name := "image1.png"; file_bits := "PNG1" |};
                 from := {| row := Some 2%N; col := Some 1%N |};
                 to := {| row := Some 4%N; col := Some 3%N |} |};
              {| file := Some {| file_name := "image1.png"; file_bits := "PNG1" |};
                 from := {| row := Some 9%N; col := Some 0%N |};
                 to := {| row := Some 10%N; col := Some 1%N |} |};
              {| file := Some {| file_name := "image2.png"; file_bits := "PNG2" |};
                 from := {| row := Some 6%N; col := Some 5%N |};
                 to := {| row := Some 8%N; col := Some 7%N |} |} ]) ∧
  (∃ locationsMap,
     legacy_resolveImageLocations sax_shared Number_decimal book_shared
       = Return locationsMap ∧
     props_get "Data" locationsMap
     = Some [ {| file := Some {| file_name := "image1.png"; file_bits := "PNG1" |};
                 from := {| row := Some 9%N; col := Some 0%N |};
                 to := {| row := Some 10%N; col := Some 1%N |} |};
              {| file := Some {| file_name := "image2.png"; file_bits := "PNG2" |};
                 from := {| row := Some 6%N; col := Some 5%N |};
                 to := {| row := Some 8%N; col := Some 7%N |} |} ]).
Proof.
  destruct (fan_out_in_the_two_copies sax_shared Number_decimal book_shared
              shared_sheetMap "Data"
              {| sheet_id := JString "1"; sheet_name := JString "Data" |}
              shared_drawing.1 shared_drawing.2 (own shared_drawing.1 "xdr:wsDr")
              shared_anchors shared_parsed shared_rels shared_views)
    as [(new & Hnew & Hentries) (old & Hold & Hkept)].
  - run.
  - left.
  - run.
  - intros n Hn Hne. apply list_elem_of_singleton in Hn. contradiction.
  - run.
  - run.
  - run.
  - run.
  - each_in ltac:(run).
  - run.
  - run.
  - repeat constructor.
  - each_view.
  - split.
    + exists new. split; [exact Hnew|]. rewrite Hentries. run.
    + exists old. split; [exact Hold|]. rewrite Hkept. run.
Defined.

(** *** A media part that is absent *)

(** C10 as amended, at work: [image2.png] is not in the package, and the
    resolver returns the entry of [rId2] with a null file, after the two
    entries of [rId1]. *)
Lemma resolve_missing_media_shared :
  ∃ locationsMap,
    resolveImageLocations sax_shared Number_decimal book_no_image2 = Return locationsMap ∧
    props_get "Data" locationsMap
    = Some [ {| file := Some {| file_name := "image1.png"; file_bits := "PNG1" |};
                from := {| row := Some 2%N; col := Some 1%N |};
                to := {| row := Some 4%N; col := Some 3%N |} |};
             {| file := Some {| file_name := "image1.png"; file_bits := "PNG1" |};
                from := {| row := Some 9%N; col := Some 0%N |};
                to := {| row := Some 10%N; col := Some 1%N |} |};
             {| file := None;
                from := {| row := Some 6%N; col := Some 5%N |};
                to := {| row := Some 8%N; col := Some 7%N |} |} ].
Proof.
  destruct (resolve_missing_media sax_shared Number_decimal book_no_image2
              shared_sheetMap "Data"
              {| sheet_id := JString "1"; sheet_name := JString "Data" |}
              shared_drawing.1 shared_drawing.2 shared_anchors shared_parsed shared_rels
              [(JString "rId1", "../media/image1.png")]
              (JString "rId2", "../media/image2.png") [])
    as (locationsMap & Hresolve & Hentries).
  - run.
  - left.
  - run.
  - intros n Hn Hne. apply list_elem_of_singleton in Hn. contradiction.
  - run.
  - run.
  - run.
  - run.
  - repeat constructor.
  - each_view.
  - run.
  - exists locationsMap. split; [exact Hresolve|]. rewrite Hentries. run.
Defined.

(** C10 does not hold as stated: [rId9] is bound to [image2.png], which is
    not in the package, and no anchor references it; the resolution
    fails. *)
Lemma missing_media_without_anchor :
  files book_orphan_no_media !! "xl/media/image2.png" = None ∧
  orphan_rels !! 1%nat
  = Some (JObject [("Id", JString "rId9"); ("Type", JString "t");
                   ("Target", JString "../media/image2.png")]) ∧
  relationships_of
    (the (_parseMetaXmlToObject sax_orphan book_orphan_no_media
            "xl/drawings/_rels/drawing1.xml.rels") JNull)
  = Return orphan_rels ∧
  anchors_of (JString "rId9") orphan_parsed = [] ∧
  resolveImageLocations sax_orphan Number_decimal book_orphan_no_media
  = Throw ImageAnchorNotFoundError.
Proof. repeat split; run. Qed.

(** *** The two shapes of anchor *)

(** C5 at work, on a one-cell and on a two-cell anchor. *)
Lemma read_anchor_corners_both :
  read_anchor Number_decimal anchor_one_cell
  = Return (JString "rId1",
            {| anchor_from := {| row := Some 8%N; col := Some 7%N |};
               anchor_to := {| row := Some 8%N; col := Some 7%N |} |}) ∧
  read_anchor Number_decimal anchor_two_cell
  = Return (JString "rId1",
            {| anchor_from := {| row := Some 2%N; col := Some 1%N |};
               anchor_to := {| row := Some 4%N; col := Some 3%N |} |}).
Proof.
  split.
  - refine (read_anchor_corners Number_decimal anchor_one_cell (JString "rId1")
              (JObject [("xdr:col", JString "7"); ("xdr:row", JString "8")]) _ _ _);
      reflexivity.
  - refine (read_anchor_corners Number_decimal anchor_two_cell (JString "rId1")
              (JObject [("xdr:col", JString "1"); ("xdr:row", JString "2")]) _ _ _);
      reflexivity.
Defined.

(** *** The drawing is the second relationship of the worksheet

    The worksheet declares the drawing [rId2]; its relationship table lists
    the comments part first. *)

(** The lookup assigns instead of comparing: whenever the declared id is a
    non-empty string the first entry is returned, its [Id] overwritten. *)
Lemma find_relationship_first r rest drawingRelId :
  truthy drawingRelId = true →
  is_object r = true → r ≠ JNull →
  find_relationship (r :: rest) drawingRelId = Return (put r "Id" drawingRelId).
Proof.
  intros Hid Hobj Hnull. cbn. destruct r; try discriminate; try congruence; cbn;
    rewrite Hid; reflexivity.
Qed.

(** C1 on this package: the lookup for [rId2] returns the entry of the
    comments part, the locator reads the comments as the drawing, and the
    resolution fails; the image of [drawing1.xml] is never reached. *)
Lemma resolveDrawing_selects_first_relationship :
  (sheetRelsXmlObj ← _parseMetaXmlToObject sax_second book_second
                       "xl/worksheets/_rels/sheet1.xml.rels";
   relationships ← relationships_of sheetRelsXmlObj;
   find_relationship relationships (JString "rId2"))
  = Return (JObject [("Id", JString "rId2"); ("Type", JString "t");
                     ("Target", JString "../comments1.xml")]) ∧
  _resolveDrawing sax_second book_second (JString "1")
  = Return (Some (JObject [("comments", JObject [("authors", JObject [])])], JNull)) ∧
  resolveImageLocations sax_second Number_decimal book_second = Throw TypeError.
Proof. split; [|split]; run. Qed.

(** *** A drawing with exactly one one-cell anchor *)

(** Whatever is not an array or a string has no [concat]. *)
Lemma image_anchors_single_object dx wsDr ps :
  get dx "xdr:wsDr" = Return wsDr →
  get wsDr "xdr:oneCellAnchor" = Return (JObject ps) →
  image_anchors dx = Throw TypeError.
Proof.
  intros Hws Hone. unfold image_anchors.
  rewrite Hws, !Return_bind.
  rewrite (get_defined wsDr "xdr:twoCellAnchor" (get_Return_defined _ _ _ Hone)).
  rewrite !Return_bind, Hone. reflexivity.
Qed.

(** C3 on this package: ["xdr:oneCellAnchor"] is not among the names that
    are always arrays, the single anchor is read as an object, and the
    resolution fails on [concat]. *)
Lemma single_one_cell_anchor_fails :
  includes alwaysArray "xdr:oneCellAnchor" = false ∧
  (drawingXmlObj ← _parseMetaXmlToObject sax_single book_single "xl/drawings/drawing1.xml";
   wsDr ← get drawingXmlObj "xdr:wsDr";
   one ← get wsDr "xdr:oneCellAnchor";
   Return (isArray one, is_object one)) = Return (false, true) ∧
  _resolveSheetImages sax_single Number_decimal book_single (JString "1") = Throw TypeError ∧
  resolveImageLocations sax_single Number_decimal book_single = Throw TypeError.
Proof. repeat split; run. Qed.

(** *** A worksheet that declares a drawing and has no relationship table *)

(** C2 does not hold as stated: the worksheet declares a drawing, its
    relationship table is absent, and the resolution returns an empty
    result instead of failing. *)
Lemma missing_sheet_rels_is_no_error :
  (sheetXmlObj ← _parseMetaXmlToObject sax_no_rels book_no_rels "xl/worksheets/sheet1.xml";
   ws ← get sheetXmlObj "worksheet";
   drawing ← get ws "drawing";
   Return (truthy drawing)) = Return true ∧
  files book_no_rels !! "xl/worksheets/_rels/sheet1.xml.rels" = None ∧
  resolveImageLocations sax_no_rels Number_decimal book_no_rels = Return [("Data", [])] ∧
  ¬ ∃ e, _resolveSheetImages sax_no_rels Number_decimal book_no_rels (JString "1") = Throw e.
Proof.
  split; [run|]. split; [run|]. split; [run|].
  intros [e He]. vm_compute in He. discriminate.
Qed.

(** *** A drawing part that is absent *)

(** C2 as amended, at work on the two packages. *)
Lemma resolveSheetImages_missing_part_both :
  _resolveSheetImages sax_no_rels Number_decimal book_no_rels (JString "1") = Return [] ∧
  _resolveSheetImages sax_no_drawing Number_decimal book_no_drawing (JString "1")
  = Throw TypeError.
Proof.
  split.
  - refine (proj1 (resolveSheetImages_missing_part sax_no_rels Number_decimal book_no_rels
              (JString "1")
              (JObject [("worksheet",
                 JObject [("sheetData", JObject []);
                          ("drawing", JObject [("r:id", JString "rId1")])])])
              (JObject [("sheetData", JObject []);
                        ("drawing", JObject [("r:id", JString "rId1")])])
              (JObject [("r:id", JString "rId1")]) _ _ _ _) _); run.
  - refine (proj1 (proj2 (resolveSheetImages_missing_part sax_no_drawing Number_decimal
              book_no_drawing (JString "1")
              (JObject [("worksheet",
                 JObject [("sheetData", JObject []);
                          ("drawing", JObject [("r:id", JString "rId1")])])])
              (JObject [("sheetData", JObject []);
                        ("drawing", JObject [("r:id", JString "rId1")])])
              (JObject [("r:id", JString "rId1")]) _ _ _ _)) JNull JNull _ _).
    + run.
    + run.
    + run.
    + run.
    + run.
    + left. reflexivity.
Defined.

(** *** A relationship that no anchor references *)

(** C7 at work. *)
Lemma anchor_not_found_orphan :
  _resolveSheetImages sax_orphan Number_decimal book_orphan (JString "1")
    = Throw ImageAnchorNotFoundError ∧
  resolveImageLocations sax_orphan Number_decimal book_orphan
    = Throw ImageAnchorNotFoundError ∧
  transformImagesToStr sax_orphan Number_decimal key_decimal demo_to_json demo_add_aoa
    (resolving log_url) (loaded book_orphan) []
    = (Throw ImageAnchorNotFoundError, loaded book_orphan, []).
Proof.
  destruct (anchor_not_found (any := string) (St := list (option File * cell (option N)))
              sax_orphan Number_decimal key_decimal demo_to_json
              demo_add_aoa book_orphan orphan_sheetMap [] "Data" []
              {| sheet_id := JString "1"; sheet_name := JString "Data" |}
              orphan_drawing.1 orphan_drawing.2 orphan_anchors orphan_parsed orphan_rels
              [(JString "rId1", "../media/image1.png"); (JString "rId9", "../media/image2.png")])
    as (Hsheet & Hall & Htransform).
  - run.
  - reflexivity.
  - intros n Hn. inversion Hn.
  - run.
  - run.
  - run.
  - run.
  - run.
  - repeat constructor.
  - exists (JString "rId9", "../media/image2.png"). split; [right; left | run].
  - split; [exact Hsheet|]. split; [exact Hall|].
    apply Htransform. reflexivity.
Defined.

(** *** A write beyond the rows of the grid *)

(** C8 at work: a grid of one row and an image at row 3 and column 2. *)
Lemma transform_write_grows_example :
  let data : demo_grid :=
    {| slots := [Some {| slots := [Some "a"]; named := ∅ |}]; named := ∅ |} in
  let l : IImageMetadata (option N) :=
    {| file := None; from := {| row := Some 3%N; col := Some 2%N |};
       to := {| row := Some 3%N; col := Some 2%N |} |} in
  ∃ data',
    transform_locations key_decimal (resolving log_url) [l] data []
    = (Return data', [(None, {| row := Some 3%N; col := Some 2%N |})]) ∧
    length (slots data') = 4 ∧
    arr_get data' (Index 3)
    = Some {| slots := [None; None; Some "https://cdn/x.png"]; named := ∅ |} ∧
    slots data' !! 0%nat = slots data !! 0%nat ∧
    arr_get data' (Index 1) = None ∧
    arr_get data' (Index 2) = None.
Proof.
  intros data l.
  destruct (transform_write_grows key_decimal (resolving log_url) l [] data []
              "https://cdn/x.png" [(None, {| row := Some 3%N; col := Some 2%N |})] 3)
    as (data' & Hrun & Hlen & Hrow & _ & Hold & Hgap).
  - reflexivity.
  - reflexivity.
  - cbn. lia.
  - exists data'. split; [exact Hrun|]. split; [exact Hlen|]. split; [exact Hrow|].
    split; [apply Hold; cbn; lia|]. split; apply Hgap; cbn; lia.
Defined.

(** *** The order of the callbacks *)

(** C6 does not hold as stated: the drawing declares the anchors at rows
    2, 6 and 9 in this order, and the callback runs on rows 2, 9 and 6. *)
Lemma callbacks_not_in_declaration_order :
  let run := transformImagesToStr sax_shared Number_decimal key_decimal demo_to_json
               demo_add_aoa (resolving log_url) (loaded book_shared) [] in
  run.1.1 = Return () ∧
  run.2.*2 = [ {| row := Some 2%N; col := Some 1%N |};
               {| row := Some 9%N; col := Some 0%N |};
               {| row := Some 6%N; col := Some 5%N |} ] ∧
  declaration_order (x_drawing [x_two "rId1" "1" "2" "3" "4"; x_two "rId2" "5" "6" "7" "8";
                                x_two "rId1" "0" "9" "1" "10"])
  = [ {| row := Some 2%N; col := Some 1%N |};
      {| row := Some 6%N; col := Some 5%N |};
      {| row := Some 9%N; col := Some 0%N |} ] ∧
  run.2.*2 ≠ declaration_order (x_drawing [x_two "rId1" "1" "2" "3" "4";
                                           x_two "rId2" "5" "6" "7" "8";
                                           x_two "rId1" "0" "9" "1" "10"]).
Proof.
  intros run. split; [run|]. split; [run|]. split; [run|].
  vm_compute. discriminate.
Qed.

(** C6 as amended, at work.  The drawing declares a two-cell anchor of
    [rId1] at row 2, a one-cell anchor of [rId2] at row 6 and a one-cell
    anchor of [rId1] at row 9.  The images of the sheet are, for [rId1],
    the one-cell anchor and then the two-cell anchor, and for [rId2] its
    one-cell anchor; the callback runs on them in this order, and the URL
    is written to the worksheet at the three [from] cells. *)
Lemma transform_callbacks_and_writes_mixed :
  ∃ sheets,
    transformImagesToStr sax_mixed Number_decimal key_decimal demo_to_json demo_add_aoa
      (resolving log_url) (loaded book_mixed) []
    = (Return (), with_workbook (loaded book_mixed) (with_Sheets book_mixed sheets),
       [ (Some {| file_name := "image1.png"; file_bits := "PNG1" |},
          {| row := Some 9%N; col := Some 0%N |});
         (Some {| file_name := "image1.png"; file_bits := "PNG1" |},
          {| row := Some 2%N; col := Some 1%N |});
         (Some {| file_name := "image2.png"; file_bits := "PNG2" |},
          {| row := Some 6%N; col := Some 5%N |}) ]) ∧
    (∀ locations,
       ("Data", locations) ∈ mixed_map →
       locations
       = [ {| file := Some {| file_name := "image1.png"; file_bits := "PNG1" |};
              from := {| row := Some 9%N; col := Some 0%N |};
              to := {| row := Some 9%N; col := Some 0%N |} |};
           {| file := Some {| file_name := "image1.png"; file_bits := "PNG1" |};
              from := {| row := Some 2%N; col := Some 1%N |};
              to := {| row := Some 4%N; col := Some 3%N |} |};
           {| file := Some {| file_name := "image2.png"; file_bits := "PNG2" |};
              from := {| row := Some 6%N; col := Some 5%N |};
              to := {| row := Some 6%N; col := Some 5%N |} |} ]) ∧
    ∃ sheet, sheets !! "Data" = Some sheet ∧
      sheet_cells sheet !! (9, 0)%nat = Some "https://cdn/x.png" ∧
      sheet_cells sheet !! (2, 1)%nat = Some "https://cdn/x.png" ∧
      sheet_cells sheet !! (6, 5)%nat = Some "https://cdn/x.png" ∧
      sheet_cells sheet !! (4, 3)%nat = None.
Proof.
  destruct (transform_callbacks_and_writes sax_mixed Number_decimal key_decimal
              demo_to_json demo_add_aoa log_url (loaded book_mixed)
              {| resolver_workbook := book_mixed |} book_mixed mixed_map [])
    as (sheets & Hrun & Horder & Hsheets & _).
  - reflexivity.
  - reflexivity.
  - run.
  - intros name Hname. apply list_elem_of_singleton in Hname as ->. vm_compute. eauto.
  - exists sheets. split; [exact Hrun|]. split.
    + intros locations Hin.
      destruct (Horder "Data" locations mixed_sheetMap
                  {| sheet_id := JString "1"; sheet_name := JString "Data" |} Hin)
        as [_ Hdrawing]; [run | run |].
      rewrite (Hdrawing mixed_drawing.1 mixed_drawing.2 (own mixed_drawing.1 "xdr:wsDr")
                 mixed_ones mixed_twos mixed_parsed mixed_rels shared_views);
        [run | run | run | run | run | run | run | repeat constructor].
    + edestruct (Hsheets 0%nat "Data") as (sheet & Hsheet & Hdata); [reflexivity|].
      assert (Some sheet = Some empty_sheet) as [= ->] by (rewrite <- Hsheet; run).
      eexists. split; [exact Hdata|]. repeat split; run.
Defined.

(** *** File names and paths *)

(** X5 at work: the file of [rId1] is found under [xl/media] by the name
    [image1.png]; that of [rId2], absent from the package, is [null]. *)
Lemma relationship_images_by_file_name_shared :
  relationship_images book_no_image2
    [(JString "rId1", [{| anchor_from := {| row := Some 2%N; col := Some 1%N |};
                          anchor_to := {| row := Some 4%N; col := Some 3%N |} |}])]
    (JObject [("Id", JString "rId1"); ("Target", JString "../media/image1.png")])
  = Return [ {| file := Some {| file_name := "image1.png"; file_bits := "PNG1" |};
                from := {| row := Some 2%N; col := Some 1%N |};
                to := {| row := Some 4%N; col := Some 3%N |} |} ] ∧
  relationship_images book_no_image2
    [(JString "rId2", [{| anchor_from := {| row := Some 6%N; col := Some 5%N |};
                          anchor_to := {| row := Some 8%N; col := Some 7%N |} |}])]
    (JObject [("Id", JString "rId2"); ("Target", JString "/xl/media/image2.png")])
  = Return [ {| file := None;
                from := {| row := Some 6%N; col := Some 5%N |};
                to := {| row := Some 8%N; col := Some 7%N |} |} ].
Proof.
  split.
  - refine (relationship_images_by_file_name book_no_image2 _ _ (JString "rId1")
              "../media" "image1.png"
              [{| anchor_from := {| row := Some 2%N; col := Some 1%N |};
                  anchor_to := {| row := Some 4%N; col := Some 3%N |} |}] _ _ _ _);
      reflexivity.
  - refine (relationship_images_by_file_name book_no_image2 _ _ (JString "rId2")
              "/xl/media" "image2.png"
              [{| anchor_from := {| row := Some 6%N; col := Some 5%N |};
                  anchor_to := {| row := Some 8%N; col := Some 7%N |} |}] _ _ _ _);
      reflexivity.
Defined.

(** X1 at work: the drawing of the sheet is read from
    [xl/drawings/drawing1.xml] and its relationships from
    [xl/drawings/_rels/drawing1.xml.rels]. *)
Lemma resolveDrawing_relative_target_shared :
  _resolveDrawing sax_shared book_shared (JString "1") =
    (drawingXmlObj ← _parseMetaXmlToObject sax_shared book_shared "xl/drawings/drawing1.xml";
     drawingRelXmlObj ← _parseMetaXmlToObject sax_shared book_shared
                          "xl/drawings/_rels/drawing1.xml.rels";
     Return (Some (drawingXmlObj, drawingRelXmlObj))).
Proof.
  refine (resolveDrawing_relative_target sax_shared book_shared (JString "1")
            shared_sheet (own shared_sheet "worksheet")
            (own (own shared_sheet "worksheet") "drawing") shared_sheet_rels
            [("Id", JString "rId1"); ("Type", JString "t");
             ("Target", JString "../drawings/drawing1.xml")] []
            "/drawings" "drawing1.xml" _ _ _ _ _ _ _ _ _); run.
Defined.

(** X2 at work: a target written from the root of the package names no part:
    the drawing is read as [null] and the sheet is not resolved. *)
Lemma resolveSheetImages_target_without_dots_absolute :
  _resolveDrawing sax_absolute book_absolute (JString "1")
    = Return (Some (JNull, absolute_drawing_rels)) ∧
  _resolveSheetImages sax_absolute Number_decimal book_absolute (JString "1")
    = Throw TypeError.
Proof.
  refine (resolveSheetImages_target_without_dots sax_absolute Number_decimal book_absolute
            (JString "1") absolute_sheet (own absolute_sheet "worksheet")
            (own (own absolute_sheet "worksheet") "drawing") absolute_sheet_rels
            [("Id", JString "rId1"); ("Type", JString "t");
             ("Target", JString "/xl/drawings/drawing1.xml")] []
            "/xl/drawings/drawing1.xml" absolute_drawing_rels _ _ _ _ _ _ _ _ _ _ _); run.
Defined.

(** *** Sheets without images and anchors without pictures *)

(** X3 at work: the worksheet of the package declares no drawing. *)
Lemma resolveSheetImages_no_drawing_plain :
  _resolveDrawing sax_plain book_plain (JString "1") = Return None ∧
  _resolveSheetImages sax_plain Number_decimal book_plain (JString "1") = Return [].
Proof.
  refine (resolveSheetImages_no_drawing sax_plain Number_decimal book_plain (JString "1")
            (JObject [("worksheet", JObject [("sheetData", JObject [])])])
            (JObject [("sheetData", JObject [])]) JUndefined _ _ _ _); run.
Defined.

(** X4 at work: the second anchor of the drawing holds a chart. *)
Lemma resolveSheetImages_anchor_without_picture_chart :
  _resolveSheetImages sax_chart Number_decimal book_chart (JString "1") = Throw TypeError.
Proof.
  refine (resolveSheetImages_anchor_without_picture sax_chart Number_decimal book_chart
            (JString "1") chart_drawing.1 chart_drawing.2 chart_anchors
            (default JNull (chart_anchors !! 1)) _ _ _ _).
  - run.
  - run.
  - right. left.
  - run.
Defined.

(** *** The sheets of a workbook *)

(** X6 at work: the workbook lists the sheet [Other], which
    [xl/workbook.xml] does not declare. *)
Lemma sheet_not_found_other :
  resolveImageLocations sax_plain Number_decimal book_other = Throw SheetNotFoundError ∧
  transformImagesToStr sax_plain Number_decimal key_decimal demo_to_json demo_add_aoa
    (resolving log_url) (loaded book_other) []
  = (Throw SheetNotFoundError, loaded book_other, []).
Proof.
  destruct (sheet_not_found (any := string) (St := list (option File * cell (option N)))
              sax_plain Number_decimal key_decimal demo_to_json demo_add_aoa book_other
              [(JString "Data", {| sheet_id := JString "1"; sheet_name := JString "Data" |})]
              ["Data"] "Other" []) as [Hall Htransform].
  - run.
  - reflexivity.
  - intros n Hn. apply list_elem_of_singleton in Hn as ->.
    exists {| sheet_id := JString "1"; sheet_name := JString "Data" |}, []. split; run.
  - reflexivity.
  - split; [exact Hall|]. apply Htransform. reflexivity.
Defined.

(** X7 at work: the workbook declares its sheet with [sheetId] 3, and the
    package has no [sheet3.xml]. *)
Lemma worksheet_part_by_sheetId_renumbered :
  _resolveSheetImages sax_renumbered Number_decimal book_renumbered (JString "3")
    = Throw TypeError ∧
  resolveImageLocations sax_renumbered Number_decimal book_renumbered = Throw TypeError ∧
  transformImagesToStr sax_renumbered Number_decimal key_decimal demo_to_json demo_add_aoa
    (resolving log_url) (loaded book_renumbered) []
  = (Throw TypeError, loaded book_renumbered, []).
Proof.
  destruct (worksheet_part_by_sheetId (any := string)
              (St := list (option File * cell (option N)))
              sax_renumbered Number_decimal key_decimal demo_to_json demo_add_aoa
              book_renumbered
              [(JString "Data", {| sheet_id := JString "3"; sheet_name := JString "Data" |})]
              [] "Data" [] {| sheet_id := JString "3"; sheet_name := JString "Data" |})
    as (Hsheet & Hall & Htransform).
  - run.
  - reflexivity.
  - intros n Hn. inversion Hn.
  - reflexivity.
  - run.
  - split; [exact Hsheet|]. split; [exact Hall|]. apply Htransform. reflexivity.
Defined.




(** *** The operations of [Excel] *)

(** X11 at work: the reader knows [shared.xlsx] and nothing else. *)
Lemma load_then_getData_shared :
  (∃ this',
     load demo_read new_Excel "shared.xlsx" = Return this' ∧
     workbook this' = Some book_shared ∧
     getData demo_to_json this' = Return [("Data", new_array)]) ∧
  load demo_read (@new_Excel demo_sheet) "notes.txt" = Throw (Error "unsupported file").
Proof.
  split.
  - exact (load_then_getData demo_read demo_to_json new_Excel "shared.xlsx").
  - exact (load_then_getData demo_read demo_to_json new_Excel "notes.txt").
Defined.


(** X13 at work: the [to] cell of the first image of the shared drawing is
    the [from] cell of no image: the loop leaves it empty. *)
Lemma transform_locations_frame_shared :
  cell_get key_decimal shared_rewritten.1 {| row := Some 4%N; col := Some 3%N |}
  = cell_get key_decimal (@new_array (sparse string)) {| row := Some 4%N; col := Some 3%N |}.
Proof.
  refine (transform_locations_frame key_decimal (resolving log_url) shared_locations
            new_array [] shared_rewritten.1 shared_rewritten.2
            {| row := Some 4%N; col := Some 3%N |} _ _).
  - run.
  - each_view.
Defined.

(** X14 at work: the [from] cell of the second image resolved holds the
    string of its callback. *)
Lemma transform_locations_last_write_shared :
  transform_locations key_decimal (resolving log_url) shared_locations new_array []
    = (Return shared_rewritten.1, shared_rewritten.2) ∧
  cell_get key_decimal shared_rewritten.1 {| row := Some 9%N; col := Some 0%N |}
    = Some "https://cdn/x.png".
Proof.
  refine (transform_locations_last_write key_decimal (resolving log_url)
            (take 1 shared_locations)
            {| file := Some {| file_name := "image1.png"; file_bits := "PNG1" |};
               from := {| row := Some 9%N; col := Some 0%N |};
               to := {| row := Some 10%N; col := Some 1%N |} |}
            (drop 2 shared_locations) new_array []
            (write_cell key_decimal new_array {| row := Some 2%N; col := Some 1%N |}
               "https://cdn/x.png")
            [(Some {| file_name := "image1.png"; file_bits := "PNG1" |},
              {| row := Some 2%N; col := Some 1%N |})]
            "https://cdn/x.png"
            [(Some {| file_name := "image1.png"; file_bits := "PNG1" |},
              {| row := Some 2%N; col := Some 1%N |});
             (Some {| file_name := "image1.png"; file_bits := "PNG1" |},
              {| row := Some 9%N; col := Some 0%N |})]
            shared_rewritten.1 shared_rewritten.2 _ _ _ _).
  - run.
  - run.
  - run.
  - each_view.
Defined.

(** X15 at work: the callback resolves for the first image of the shared
    drawing and rejects for the second: the transform rejects with its
    error, the third image is not visited and the workbook is as it was. *)
Lemma transform_callback_rejects_shared :
  transformImagesToStr sax_shared Number_decimal key_decimal demo_to_json demo_add_aoa
    upload_once (loaded book_shared) 0
  = (Throw (Error "upload failed"), loaded book_shared, 2).
Proof.
  refine (transform_callback_rejects sax_shared Number_decimal key_decimal demo_to_json
            demo_add_aoa upload_once (loaded book_shared)
            {| resolver_workbook := book_shared |} [] "Data"
            (take 1 shared_locations)
            {| file := Some {| file_name := "image1.png"; file_bits := "PNG1" |};
               from := {| row := Some 9%N; col := Some 0%N |};
               to := {| row := Some 10%N; col := Some 1%N |} |}
            (drop 2 shared_locations) [] 0 (loaded book_shared) book_shared 0
            (write_cell key_decimal new_array {| row := Some 2%N; col := Some 1%N |}
               "https://cdn/1.png")
            1 (Error "upload failed") 2 _ _ _ _ _ _); run.
Defined.

(** *** Anchors and relationships, counted *)

(** X16 at work: three anchors, each of the id of one relationship: three
    images. *)
Lemma resolveSheetImages_count_shared :
  ∃ images,
    _resolveSheetImages sax_shared Number_decimal book_shared (JString "1") = Return images ∧
    length images = 3.
Proof.
  destruct (resolveSheetImages_count sax_shared Number_decimal book_shared (JString "1")
              shared_drawing.1 shared_drawing.2 shared_anchors shared_parsed shared_rels
              shared_views) as (images & Hrun & _ & Hone).
  - run.
  - run.
  - run.
  - run.
  - repeat constructor.
  - each_view.
  - exists images. split; [exact Hrun|]. rewrite Hone; [reflexivity|].
    intros p Hp.
    repeat (apply elem_of_cons in Hp as [->|Hp]; [reflexivity|]). inversion Hp.
Defined.

(** *** The older copy of the resolver *)

(** X17 at work: on the shared drawing the older copy keeps, for [rId1], the
    anchor at row 9 and drops the one at row 2. *)
Lemma legacy_one_image_per_relationship_shared :
  legacy_drawing_images Number_decimal book_shared shared_drawing.1 shared_drawing.2
  = Return [ {| file := Some {| file_name := "image1.png"; file_bits := "PNG1" |};
                from := {| row := Some 9%N; col := Some 0%N |};
                to := {| row := Some 10%N; col := Some 1%N |} |};
             {| file := Some {| file_name := "image2.png"; file_bits := "PNG2" |};
                from := {| row := Some 6%N; col := Some 5%N |};
                to := {| row := Some 8%N; col := Some 7%N |} |} ].
Proof.
  rewrite (proj1 (legacy_one_image_per_relationship Number_decimal book_shared
                    shared_drawing.1 shared_drawing.2 (own shared_drawing.1 "xdr:wsDr")
                    shared_anchors shared_parsed shared_rels shared_views
                    ltac:(run) ltac:(run) ltac:(run) ltac:(run)
                    ltac:(repeat constructor))).
  run.
Defined.

(** X18 at work: on the drawing of the scenario, with its one two-cell
    anchor, the two copies return the same image. *)
Lemma legacy_agrees_on_two_cell_drawings_scenario :
  drawing_images Number_decimal book_scenario scenario_drawing.1 scenario_drawing.2
  = legacy_drawing_images Number_decimal book_scenario scenario_drawing.1 scenario_drawing.2.
Proof.
  refine (legacy_agrees_on_two_cell_drawings Number_decimal book_scenario
            scenario_drawing.1 scenario_drawing.2 (own scenario_drawing.1 "xdr:wsDr")
            scenario_anchors scenario_parsed _ _ _ _ _ _).
  - run.
  - run.
  - run.
  - intros anchor Hin. apply list_elem_of_singleton in Hin as ->. run.
  - run.
  - intros rid. change scenario_parsed with
      [(JString "rId1",
        {| anchor_from := {| row := Some 2%N; col := Some 1%N |};
           anchor_to := {| row := Some 4%N; col := Some 3%N |} |})].
    rewrite anchors_of_cons. destruct (same_value_zero (JString "rId1") rid); cbn; lia.
Defined.

(** *** The merge *)

(** X19 at work: the relationships of the shared drawing: the attributes of
    each entry have become its properties. *)
Lemma xml2Obj_merged_shared :
  _xml2Obj sax_shared shared_rels_text
  = Return (JObject
      [("Relationships",
        JObject
          [("Relationship",
            JArray
              [JObject [("Id", JString "rId1"); ("Type", JString "t");
                        ("Target", JString "../media/image1.png")];
               JObject [("Id", JString "rId2"); ("Type", JString "t");
                        ("Target", JString "../media/image2.png")]])])]).
Proof.
  refine (xml2Obj_merged sax_shared shared_rels_text shared_rels_built _ _ _); run.
Defined.


(** *** Load, transform, read *)

(** X21 at work: the workbook whose worksheet has its titles in the first
    row, loaded, transformed and read: the grid of [Data] holds the URL at
    the cell of the image resolved second. *)
Lemma load_transform_getData_titled :
  ∃ this1 this2 grids data,
    load demo_read new_Excel "titled.xlsx" = Return this1 ∧
    transformImagesToStr sax_shared Number_decimal key_decimal demo_to_json demo_add_aoa
      (resolving log_url) this1 []
    = (Return (), this2, state_after log_url (callbacks shared_map) []) ∧
    getData demo_to_json this2 = Return grids ∧
    (("Data", data) : string * demo_grid) ∈ grids ∧
    cell_get key_decimal data {| row := Some 9%N; col := Some 0%N |}
    = Some "https://cdn/x.png".
Proof.
  refine (load_transform_getData sax_shared Number_decimal key_decimal demo_read
            demo_to_json demo_add_aoa log_url
            (λ ws, ∃ e, sheet_ref ws = Some ((0, 0)%nat, e)) (λ _, True)
            "titled.xlsx" book_titled shared_map [] 0 "Data"
            (take 1 shared_locations)
            {| file := Some {| file_name := "image1.png"; file_bits := "PNG1" |};
               from := {| row := Some 9%N; col := Some 0%N |};
               to := {| row := Some 10%N; col := Some 1%N |} |}
            (drop 2 shared_locations) 9 0 _ _ _ _ _ _ _ _ _).
  - reflexivity.
  - run.
  - intros n Hn. apply list_elem_of_singleton in Hn as ->.
    exists titled_sheet. split; [reflexivity|]. exists (0, 1)%nat. reflexivity.
  - intros sheet data at_ r c s [e He] Hr Hc _ Hcell.
    exact (demo_round_trip sheet data at_ r c s e He Hr Hc Hcell).
  - intros st file at_. exact I.
  - reflexivity.
  - reflexivity.
  - reflexivity.
  - each_view.
Defined.

(** The worksheet of the shared workbook is empty.  Its range after the
    transform starts at the first row and the first column written, and
    [getData] counts rows and columns from there: the URL written at row 9
    and column 0 is read at row 7, and the one written at row 2 and
    column 1 at row 0. *)
Example getData_counts_from_the_range :
  let run := transformImagesToStr sax_shared Number_decimal key_decimal demo_to_json
               demo_add_aoa (resolving log_url) (loaded book_shared) [] in
  let sheet := default empty_sheet (workbook run.1.2 ≫= λ wb, Sheets wb !! "Data") in
  let data := demo_to_json (Some sheet) in
  sheet_ref sheet = Some ((2, 0), (9, 5))%nat ∧
  sheet_cells sheet !! (9, 0)%nat = Some "https://cdn/x.png" ∧
  getData demo_to_json run.1.2 = Return [("Data", data)] ∧
  cell_get key_decimal data {| row := Some 9%N; col := Some 0%N |} = None ∧
  cell_get key_decimal data {| row := Some 7%N; col := Some 0%N |}
  = Some "https://cdn/x.png" ∧
  cell_get key_decimal data {| row := Some 0%N; col := Some 1%N |}
  = Some "https://cdn/x.png".
Proof. intros run sheet data. repeat split; run. Qed.
